(** * Chunking engine, CSV ingestion path, query router and hash embedder

    A shallow embedding of the parts of the backend that the specification's
    testable properties talk about:

    - [app/services/chunking_service.py]  (class [ChunkingService])
    - [app/services/rag_pipeline.py]      ([add_document], [_process_csv_content])
    - [app/routers/chat.py]               ([should_use_rag])
    - [app/services/embedding_service.py] ([_simple_hash_embedding])

    Python [str] values are modelled as [string]; a character is a code point
    below 256 (the Latin-1 range), and the character classes below
    ([isspace], [isword], [lower_char]) are Python's on that range.
    Python [int] is [Z]; list positions are [nat].  A [Dict[str, Any]] is a
    [gmap string value].  A Python exception is the [Raise] branch of
    [result]; [try]/[except Exception] is [try_except].  The two external
    packages the code calls, [tree_sitter_languages] and [hashlib], are
    parameters of the functions that use them; floating-point values are
    binary64 ([PrimFloat]). *)

From Stdlib Require Import ZArith Ascii String List Lia Bool Strings.Byte Floats Uint63.
From stdpp Require Import gmap strings list pretty.

Local Open Scope string_scope.
Local Open Scope Z_scope.

(** ** Python values, dictionaries, exceptions *)

Inductive value :=
| VStr (s : string)
| VInt (n : Z)
| VBool (b : bool)
| VNone.

#[global] Instance value_eq_dec : EqDecision value.
Proof. solve_decision. Defined.

Abbreviation dict := (gmap string value).

(** [d.get(key, default)] *)
Definition dict_get (d : dict) (key : string) (default : value) : value :=
  match d !! key with
  | Some v => v
  | None => default
  end.

(** [d.update({k1: v1, ...})] and [{**d, k1: v1, ...}] *)
Definition dict_update (d : dict) (kvs : list (string * value)) : dict :=
  foldl (fun acc kv => <[kv.1 := kv.2]> acc) d kvs.

Inductive exn :=
| AttributeError (msg : string)
| IndexError (msg : string)
| ValueError (msg : string)
| TypeError (msg : string)
| ImportError (msg : string)
| KeyError (msg : string)
| OtherError (msg : string).

(** [str(e)] *)
Definition exn_str (e : exn) : string :=
  match e with
  | AttributeError m | IndexError m | ValueError m
  | TypeError m | ImportError m | KeyError m | OtherError m => m
  end.

Inductive result (A : Type) :=
| Ok (a : A)
| Raise (e : exn).
Arguments Ok {A} a.
Arguments Raise {A} e.

Definition rbind {A B} (m : result A) (f : A -> result B) : result B :=
  match m with
  | Ok a => f a
  | Raise e => Raise e
  end.

(** [try: body / except Exception as e: handler(e)] *)
Definition try_except {A} (body : result A) (handler : exn -> result A) : result A :=
  match body with
  | Ok a => Ok a
  | Raise e => handler e
  end.

#[global] Instance result_ret : MRet result := fun _ a => Ok a.
#[global] Instance result_bind : MBind result := fun _ _ f m => rbind m f.

(** A chunk is the two-key dictionary [{'content': ..., 'metadata': ...}]. *)
Record chunk := Chunk { content : string; metadata : dict }.

(** ** Characters and strings *)

Definition code (c : ascii) : N := N_of_ascii c.

(** [c.isspace()], which is also the regular expression class [\s]. *)
Definition isspace (c : ascii) : bool :=
  let n := code c in
  ((9 <=? n) && (n <=? 13) || (28 <=? n) && (n <=? 32) || (n =? 133) || (n =? 160))%N.

(** The regular expression class [\w]: alphanumeric or underscore. *)
Definition isword (c : ascii) : bool :=
  let n := code c in
  ((48 <=? n) && (n <=? 57) || (65 <=? n) && (n <=? 90) || (n =? 95)
   || (97 <=? n) && (n <=? 122)
   || (n =? 170) || (n =? 178) || (n =? 179) || (n =? 181) || (n =? 185)
   || (n =? 186) || (188 <=? n) && (n <=? 190)
   || (192 <=? n) && (n <=? 214) || (216 <=? n) && (n <=? 246)
   || (248 <=? n))%N.

(** The regular expression class [.] (no DOTALL). *)
Definition isdot (c : ascii) : bool := negb (Ascii.eqb c "010").

Definition lower_char (c : ascii) : ascii :=
  let n := code c in
  if ((65 <=? n) && (n <=? 90) || (192 <=? n) && (n <=? 222) && negb (n =? 215))%N
  then ascii_of_N (n + 32) else c.

(** [s.lower()] *)
Fixpoint lower (s : string) : string :=
  match s with
  | EmptyString => EmptyString
  | String c s' => String (lower_char c) (lower s')
  end.

Fixpoint lstrip (s : string) : string :=
  match s with
  | EmptyString => EmptyString
  | String c s' => if isspace c then lstrip s' else s
  end.

(** Removes trailing whitespace: a character is kept when something
    non-blank follows it or it is non-blank itself. *)
Fixpoint rstrip (s : string) : string :=
  match s with
  | EmptyString => EmptyString
  | String c s' =>
      match rstrip s' with
      | EmptyString => if isspace c then EmptyString else String c EmptyString
      | r => String c r
      end
  end.

(** [s.strip()] *)
Definition strip (s : string) : string := rstrip (lstrip s).

(** [s.split(sep)] for a one-character separator; never returns []. *)
Fixpoint split_on (sep : ascii) (s : string) : list string :=
  match s with
  | EmptyString => [EmptyString]
  | String c s' =>
      if Ascii.eqb c sep then EmptyString :: split_on sep s'
      else match split_on sep s' with
           | [] => [String c EmptyString]
           | w :: ws => String c w :: ws
           end
  end.

Definition newline : ascii := "010".

(** [s.split('\n')] *)
Definition split_lines (s : string) : list string := split_on newline s.

(** [s.split()]: the maximal runs of non-blank characters.  [cur] is the
    word being read, if any. *)
Fixpoint split_ws_aux (s : string) (cur : option string) : list string :=
  match s with
  | EmptyString => match cur with Some w => [w] | None => [] end
  | String c s' =>
      if isspace c then
        match cur with
        | Some w => w :: split_ws_aux s' None
        | None => split_ws_aux s' None
        end
      else
        match cur with
        | Some w => split_ws_aux s' (Some (w ++ String c EmptyString))
        | None => split_ws_aux s' (Some (String c EmptyString))
        end
  end.

Definition split_ws (s : string) : list string := split_ws_aux s None.

(** [sep.join(l)] *)
Fixpoint join (sep : string) (l : list string) : string :=
  match l with
  | [] => EmptyString
  | [x] => x
  | x :: l' => x ++ sep ++ join sep l'
  end.

Definition nl : string := String newline EmptyString.

(** [l[a:b]] for [0 <= a], [0 <= b] *)
Definition slice {A} (l : list A) (a b : nat) : list A := take (b - a) (drop a l).

(** [s[:n]] *)
Definition str_prefix (n : nat) (s : string) : string := String.substring 0 n s.

(** [sub in s] *)
Fixpoint contains (sub s : string) : bool :=
  if String.prefix sub s then true
  else match s with
       | EmptyString => false
       | String _ s' => contains sub s'
       end.

(** [enumerate(l)] *)
Fixpoint enumerate_from {A} (i : nat) (l : list A) : list (nat * A) :=
  match l with
  | [] => []
  | x :: l' => (i, x) :: enumerate_from (S i) l'
  end.

Definition enumerate {A} (l : list A) : list (nat * A) := enumerate_from 0 l.

Definition len {A} (l : list A) : Z := Z.of_nat (length l).

(** [l[0]] *)
Definition index0 {A} (l : list A) : result A :=
  match l with
  | x :: _ => Ok x
  | [] => Raise (IndexError "list index out of range")
  end.

(** [l[-1:]] *)
Definition last_slice {A} (l : list A) : list A := drop (length l - 1)%nat l.

(** [for x in l: st = body(st, x)] where the body may raise. *)
Fixpoint for_each {S A} (body : S -> A -> result S) (st : S) (l : list A) : result S :=
  match l with
  | [] => Ok st
  | x :: l' => st' ← body st x; for_each body st' l'
  end.

(** [str(n)] and [f"{n}"] for an [int]. *)
Definition str_of_int (n : Z) : string := pretty n.

(** Groups the digits of a reversed digit string in threes. *)
Fixpoint group3_rev (digits : list ascii) (k : nat) : list ascii :=
  match digits with
  | [] => []
  | d :: ds =>
      match k with
      | 3%nat => ","%char :: d :: group3_rev ds 1
      | _ => d :: group3_rev ds (S k)
      end
  end.

(** [f"{n:,}"] for an [int]. *)
Definition format_comma (n : Z) : string :=
  let digits := list_ascii_of_string (pretty (Z.abs n)) in
  let grouped := string_of_list_ascii (rev (group3_rev (rev digits) 0)) in
  if n <? 0 then "-" ++ grouped else grouped.

(** [str(v)] and [f"{v}"] *)
Definition str_of_value (v : value) : string :=
  match v with
  | VStr s => s
  | VInt n => str_of_int n
  | VBool true => "True"
  | VBool false => "False"
  | VNone => "None"
  end.

(** [f"{v:,}"]: integers (and booleans, which are integers) accept the
    thousands separator; [str] and [None] reject the format spec. *)
Definition format_comma_value (v : value) : result string :=
  match v with
  | VInt n => Ok (format_comma n)
  | VBool b => Ok (if b then "1" else "0")
  | VStr _ => Raise (ValueError "Cannot specify ',' with 's'.")
  | VNone => Raise (TypeError "unsupported format string passed to NoneType.__format__")
  end.

(** [v in [s1, s2, ...]] for a list of string literals. *)
Definition value_in (v : value) (l : list string) : bool :=
  existsb (fun s => bool_decide (v = VStr s)) l.

(** ** Regular expressions

    The fragment of Python's [re] syntax that the sources use: literal
    characters, the classes [\s], [\w] and [.], a quantifier on a single
    character or class (greedy or lazy, bounded or not), concatenation, a
    capture group and the anchor [^].  Matching is by backtracking in
    Python's order: a greedy quantifier tries the longest run first, a lazy
    one the shortest. *)

Inductive regex :=
| Eps
| Chr (c : ascii)
| Cls (p : ascii -> bool)
| Rep (p : ascii -> bool) (lo : nat) (hi : option nat) (greedy : bool)
| Cat (a b : regex)
| Grp (a : regex)
| Bol.

Fixpoint Lit (s : string) : regex :=
  match s with
  | EmptyString => Eps
  | String c EmptyString => Chr c
  | String c s' => Cat (Chr c) (Lit s')
  end.

(** [re.IGNORECASE] *)
Fixpoint icase (r : regex) : regex :=
  match r with
  | Chr c => Cls (fun x => Ascii.eqb (lower_char x) (lower_char c))
  | Cat a b => Cat (icase a) (icase b)
  | Grp a => Grp (icase a)
  | r => r
  end.

Declare Scope regex_scope.
Delimit Scope regex_scope with re.
Bind Scope regex_scope with regex.
Infix "·" := Cat (at level 40, left associativity) : regex_scope.
Notation "'\s*'" := (Rep isspace 0 None true) : regex_scope.
Notation "'\s+'" := (Rep isspace 1 None true) : regex_scope.
Notation "'\w+'" := (Rep isword 1 None true) : regex_scope.
Notation "'.*?'" := (Rep isdot 0 None false) : regex_scope.

Record re_match_obj := Match { m_end : nat; m_groups : list string }.

Fixpoint run_length (p : ascii -> bool) (s : string) : nat :=
  match s with
  | String c s' => if p c then S (run_length p s') else 0%nat
  | EmptyString => 0%nat
  end.

Fixpoint drop_str (n : nat) (s : string) : string :=
  match n, s with
  | S n', String _ s' => drop_str n' s'
  | _, _ => s
  end.

Fixpoint first_some {A R} (f : A -> option R) (l : list A) : option R :=
  match l with
  | [] => None
  | x :: l' => match f x with Some r => Some r | None => first_some f l' end
  end.

(** The repetition counts a quantifier tries, in order, when [run]
    characters of its class are available. *)
Definition rep_counts (lo : nat) (hi : option nat) (greedy : bool) (run : nat) : list nat :=
  let top := match hi with Some h => Nat.min h run | None => run end in
  let up := seq lo (S top - lo) in
  if greedy then rev up else up.

(** [rmatch r pos s caps k]: match [r] at position [pos], where [s] is the
    text from [pos] on, then continue with [k]. *)
Fixpoint rmatch {R} (r : regex) (pos : nat) (s : string) (caps : list string)
    (k : nat -> string -> list string -> option R) : option R :=
  match r with
  | Eps => k pos s caps
  | Chr c =>
      match s with
      | String x s' => if Ascii.eqb x c then k (S pos) s' caps else None
      | EmptyString => None
      end
  | Cls p =>
      match s with
      | String x s' => if p x then k (S pos) s' caps else None
      | EmptyString => None
      end
  | Rep p lo hi greedy =>
      first_some (fun j => k (pos + j)%nat (drop_str j s) caps)
                 (rep_counts lo hi greedy (run_length p s))
  | Cat a b => rmatch a pos s caps (fun pos' s' caps' => rmatch b pos' s' caps' k)
  | Grp a =>
      rmatch a pos s caps
        (fun pos' s' caps' => k pos' s' (caps' ++ [String.substring 0 (pos' - pos) s])%list)
  | Bol => if (pos =? 0)%nat then k pos s caps else None
  end.

Definition match_at (r : regex) (pos : nat) (s : string) : option re_match_obj :=
  rmatch r pos s [] (fun e _ g => Some (Match e g)).

(** [re.match(r, s)] *)
Definition re_match (r : regex) (s : string) : option re_match_obj := match_at r 0 s.

(** [re.search(r, s)]: the leftmost position with a match. *)
Fixpoint search_from (r : regex) (pos : nat) (s : string) : option re_match_obj :=
  match match_at r pos s with
  | Some m => Some m
  | None =>
      match s with
      | String _ s' => search_from r (S pos) s'
      | EmptyString => None
      end
  end.

Definition re_search (r : regex) (s : string) : option re_match_obj := search_from r 0 s.

(** [if re.match(r, s):] *)
Definition re_matches (r : regex) (s : string) : bool :=
  match re_match r s with
  | Some _ => true
  | None => false
  end.

(** [m.group(1)] *)
Definition group1 (m : re_match_obj) : string :=
  match m_groups m with
  | g :: _ => g
  | [] => EmptyString
  end.

(** [re.split(r, s)] for a pattern without groups that matches no empty
    string.  [skip] counts the characters of the current separator still
    to be passed, [cur] is the piece being read. *)
Fixpoint split_from (r : regex) (pos : nat) (s : string) (skip : nat) (cur : string)
    : list string :=
  match s with
  | EmptyString => [cur]
  | String c s' =>
      match skip with
      | S n => split_from r (S pos) s' n cur
      | O =>
          match match_at r pos s with
          | Some m =>
              if (pos <? m_end m)%nat
              then cur :: split_from r (S pos) s' (m_end m - pos - 1) EmptyString
              else split_from r (S pos) s' 0 (cur ++ String c EmptyString)
          | None => split_from r (S pos) s' 0 (cur ++ String c EmptyString)
          end
      end
  end.

Definition re_split (r : regex) (s : string) : list string := split_from r 0 s 0 EmptyString.

(** [re.sub(r, '', s)]: every match is deleted. *)
Fixpoint delete_from (r : regex) (pos : nat) (s : string) (skip : nat) : string :=
  match s with
  | EmptyString => EmptyString
  | String c s' =>
      match skip with
      | S n => delete_from r (S pos) s' n
      | O =>
          match match_at r pos s with
          | Some m =>
              if (pos <? m_end m)%nat
              then delete_from r (S pos) s' (m_end m - pos - 1)
              else String c (delete_from r (S pos) s' 0)
          | None => String c (delete_from r (S pos) s' 0)
          end
      end
  end.

Definition re_sub_empty (r : regex) (s : string) : string := delete_from r 0 s 0.

(** [len(s)] *)
Definition str_len (s : string) : Z := Z.of_nat (String.length s).

(** ** The chunking engine: [ChunkingService] *)

Module ChunkingService.

(** *** Line-based chunking: [_chunk_by_lines] *)

Definition max_chunk_size : Z := 1000.
Definition overlap_size : Z := 100.

(** The loop state of [_chunk_by_lines]. *)
Record lines_state := LinesState {
  ls_chunks : list chunk;
  ls_current_chunk : list string;
  ls_current_size : Z
}.

Definition line_chunk (metadata : dict) (current_chunk : list string)
    (start_line end_line : Z) : chunk :=
  Chunk (join nl current_chunk)
        (dict_update metadata
           [("start_line", VInt start_line);
            ("end_line", VInt end_line);
            ("chunk_type", VStr "line_based");
            ("line_count", VInt (len current_chunk))]).

(** One iteration of [for i, line in enumerate(lines)]. *)
Definition lines_step (metadata : dict) (chunk_size : Z)
    (st : lines_state) (il : nat * string) : lines_state :=
  let '(i, line) := il in
  let line_size := len (split_ws line) in
  let st1 :=
    if (ls_current_size st + line_size >? chunk_size)
       && negb (bool_decide (ls_current_chunk st = []))
    then
      LinesState
        (ls_chunks st ++
           [line_chunk metadata (ls_current_chunk st)
              (Z.of_nat i - len (ls_current_chunk st) + 1) (Z.of_nat i)])
        [] 0
    else st in
  LinesState (ls_chunks st1)
             (ls_current_chunk st1 ++ [line])
             (ls_current_size st1 + line_size).

Definition _chunk_by_lines (content : string) (metadata : dict)
    (chunk_size : option Z) (preserve_structure : bool) : list chunk :=
  let chunk_size := match chunk_size with Some n => n | None => max_chunk_size end in
  let lines := split_lines content in
  let st := foldl (lines_step metadata chunk_size) (LinesState [] [] 0) (enumerate lines) in
  if bool_decide (ls_current_chunk st = []) then ls_chunks st
  else
    ls_chunks st ++
      [line_chunk metadata (ls_current_chunk st)
         (len lines - len (ls_current_chunk st) + 1) (len lines)].

(** [chunk_generic] *)
Definition chunk_generic (content : string) (metadata : dict) : result (list chunk) :=
  mret (_chunk_by_lines content metadata None false).

(** [chunk_web] *)
Definition chunk_web (content : string) (metadata : dict) : result (list chunk) :=
  mret (_chunk_by_lines content metadata (Some 800) false).

(** [chunk_config] *)
Definition chunk_config (content : string) (metadata : dict) : result (list chunk) :=
  if str_len content <? 2000 then
    mret [Chunk content
            (dict_update metadata
               [("chunk_type", VStr "config_complete");
                ("start_line", VInt 1);
                ("end_line", VInt (len (split_lines content)))])]
  else
    mret (_chunk_by_lines content metadata (Some 800) false).

(** *** Paragraph chunking: [_chunk_by_paragraphs] *)

Definition blank_line_re : regex := (Chr newline · \s* · Chr newline)%re.

Definition paragraph_chunk (metadata : dict) (current_chunk : list string) : chunk :=
  Chunk (join (nl ++ nl) current_chunk)
        (dict_update metadata
           [("chunk_type", VStr "paragraph_group");
            ("paragraph_count", VInt (len current_chunk))]).

Definition paragraphs_step (metadata : dict) (st : lines_state) (para : string)
    : result lines_state :=
  let para_size := len (split_ws para) in
  st1 ←
    (if (ls_current_size st + para_size >? max_chunk_size)
        && negb (bool_decide (ls_current_chunk st = []))
     then
       let chunks := (ls_chunks st ++ [paragraph_chunk metadata (ls_current_chunk st)])%list in
       if (overlap_size >? 0) && negb (bool_decide (ls_current_chunk st = []))
       then
         let current_chunk := last_slice (ls_current_chunk st) in
         first ← index0 current_chunk;
         mret (LinesState chunks current_chunk (len (split_ws first)))
       else mret (LinesState chunks [] 0)
     else mret st);
  mret (LinesState (ls_chunks st1)
                   (ls_current_chunk st1 ++ [para])
                   (ls_current_size st1 + para_size)).

Definition _chunk_by_paragraphs (content : string) (metadata : dict) : result (list chunk) :=
  let paragraphs := re_split blank_line_re content in
  st ← for_each (paragraphs_step metadata) (LinesState [] [] 0) paragraphs;
  if bool_decide (ls_current_chunk st = []) then mret (ls_chunks st)
  else mret (ls_chunks st ++ [paragraph_chunk metadata (ls_current_chunk st)])%list.

(** *** Markdown chunking: [_chunk_markdown] *)

Definition hash_char (c : ascii) : bool := Ascii.eqb c "#".

(** [^#{1,6}\s+] *)
Definition header_re : regex := (Bol · Rep hash_char 1 (Some 6%nat) true · \s+)%re.

(** [^#+\s*] *)
Definition header_marker_re : regex := (Bol · Rep hash_char 1 None true · \s*)%re.

Definition header_indices (lines : list string) : list nat :=
  (filter (fun il => re_matches header_re il.2 = true) (enumerate lines)).*1.

(** The body of [for i, start in enumerate(header_indices)]. *)
Definition markdown_section (lines : list string) (header_indices : list nat)
    (metadata : dict) (i_start : nat * nat) : result chunk :=
  let '(i, start) := i_start in
  let end_ := match header_indices !! S i with
              | Some e => e
              | None => length lines
              end in
  let section_lines := slice lines start end_ in
  let section_content := join nl section_lines in
  header_line ← index0 section_lines;
  let section_title := re_sub_empty header_marker_re header_line in
  mret (Chunk section_content
          (dict_update metadata
             [("start_line", VInt (Z.of_nat start + 1));
              ("end_line", VInt (Z.of_nat end_));
              ("section_title", VStr section_title);
              ("chunk_type", VStr "markdown_section")])).

Definition _chunk_markdown (content : string) (metadata : dict) : result (list chunk) :=
  let lines := split_lines content in
  let header_indices := header_indices lines in
  if bool_decide (header_indices = []) then _chunk_by_paragraphs content metadata
  else mapM (markdown_section lines header_indices metadata) (enumerate header_indices).

(** [chunk_document_text] *)
Definition chunk_document_text (content : string) (metadata : dict) : result (list chunk) :=
  let file_type := dict_get metadata "file_type" (VStr ".txt") in
  if bool_decide (file_type = VStr ".md") then _chunk_markdown content metadata
  else _chunk_by_paragraphs content metadata.

(** *** SQL chunking: [chunk_sql] *)

(** [;\s*\n] *)
Definition statement_end_re : regex := (Chr ";" · \s* · Chr newline)%re.

Definition create_table_re : regex := icase (Bol · \s* · Lit "CREATE" · \s+ · Lit "TABLE")%re.
Definition create_index_re : regex := icase (Bol · \s* · Lit "CREATE" · \s+ · Lit "INDEX")%re.
Definition insert_re : regex := icase (Bol · \s* · Lit "INSERT")%re.
Definition select_re : regex := icase (Bol · \s* · Lit "SELECT")%re.

Definition statement_type (statement : string) : string :=
  if re_matches create_table_re statement then "CREATE_TABLE"
  else if re_matches create_index_re statement then "CREATE_INDEX"
  else if re_matches insert_re statement then "INSERT"
  else if re_matches select_re statement then "SELECT"
  else "UNKNOWN".

(** The chunk appended for the trimmed statement at index [i]. *)
Definition sql_chunk (metadata : dict) (i : nat) (statement : string) : chunk :=
  Chunk statement
        (dict_update metadata
           [("statement_type", VStr (statement_type statement));
            ("statement_index", VInt (Z.of_nat i + 1));
            ("chunk_type", VStr "sql_statement")]).

(** The body of [for i, statement in enumerate(statements)]: the chunks it
    appends. *)
Definition sql_statement (metadata : dict) (i_statement : nat * string) : list chunk :=
  let '(i, statement) := i_statement in
  let statement := strip statement in
  if bool_decide (statement = "") then []
  else [sql_chunk metadata i statement].

Definition chunk_sql (content : string) (metadata : dict) : result (list chunk) :=
  let statements := re_split statement_end_re content in
  mret (concat (map (sql_statement metadata) (enumerate statements))).

(** *** Code chunking: [chunk_code] and its tiers *)

(** [LANGUAGE_MAPPING] of [app/core/constants.py] *)
Definition LANGUAGE_MAPPING : gmap string string :=
  list_to_map
    [(".py", "python"); (".js", "javascript"); (".ts", "typescript");
     (".jsx", "javascript"); (".tsx", "typescript"); (".java", "java");
     (".cpp", "cpp"); (".c", "c"); (".h", "c"); (".go", "go"); (".rs", "rust");
     (".rb", "ruby"); (".php", "php"); (".swift", "swift"); (".kt", "kotlin");
     (".scala", "scala"); (".html", "html"); (".css", "css"); (".scss", "scss");
     (".sass", "sass"); (".sql", "sql"); (".json", "json"); (".yaml", "yaml");
     (".yml", "yaml"); (".toml", "toml"); (".xml", "xml"); (".md", "markdown");
     (".txt", "text"); (".sh", "bash"); (".bat", "batch"); (".ps1", "powershell")].

(** [LANGUAGE_MAPPING.get(file_type, 'text')] *)
Definition language_of (file_type : value) : string :=
  match file_type with
  | VStr ext => default "text" (LANGUAGE_MAPPING !! ext)
  | _ => "text"
  end.

(** The [patterns] table of [_chunk_with_regex]. *)
Definition patterns (language : string) : option (list regex) :=
  if String.eqb language "python" then
    Some [ (Bol · Grp (Lit "def" · \s+ · \w+ · .*? · Chr ":"))%re;
           (Bol · Grp (Lit "class" · \s+ · \w+ · .*? · Chr ":"))%re;
           (Bol · Grp (Lit "async" · \s+ · Lit "def" · \s+ · \w+ · .*? · Chr ":"))%re ]
  else if String.eqb language "javascript" then
    Some [ (Bol · Grp (Lit "function" · \s+ · \w+ · .*? · Chr "{"))%re;
           (Bol · Grp (Lit "const" · \s+ · \w+ · \s* · Chr "=" · \s* · .*? · Lit "=>"))%re;
           (Bol · Grp (Lit "class" · \s+ · \w+ · .*? · Chr "{"))%re ]
  else if String.eqb language "java" then
    Some [ (Bol · Grp (\s* · Lit "public" · \s+ · .*? · Chr "{"))%re;
           (Bol · Grp (\s* · Lit "private" · \s+ · .*? · Chr "{"))%re;
           (Bol · Grp (\s* · Lit "protected" · \s+ · .*? · Chr "{"))%re;
           (Bol · Grp (\s* · Lit "class" · \s+ · \w+ · .*? · Chr "{"))%re ]
  else None.

(** [re.search(r, line)] then [match.group(1)] *)
Definition search_group1 (r : regex) (line : string) : option string :=
  group1 <$> re_search r line.

(** [_extract_function_name] *)
Definition _extract_function_name (line language : string) : string :=
  if String.eqb language "python" then
    match search_group1 (Lit "def" · \s+ · Grp \w+)%re line with
    | Some name => name
    | None =>
        match search_group1 (Lit "class" · \s+ · Grp \w+)%re line with
        | Some name => name
        | None => ""
        end
    end
  else if String.eqb language "javascript" then
    match search_group1 (Lit "function" · \s+ · Grp \w+)%re line with
    | Some name => name
    | None =>
        match search_group1 (Lit "const" · \s+ · Grp \w+)%re line with
        | Some name => name
        | None => ""
        end
    end
  else if String.eqb language "java" then
    match search_group1 (Lit "class" · \s+ · Grp \w+)%re line with
    | Some name => name
    | None =>
        match search_group1 (\w+ · \s+ · Grp \w+ · \s* · Chr "(")%re line with
        | Some name => name
        | None => ""
        end
    end
  else "".

(** The line indices at which one of the language's patterns matches. *)
Definition boundaries_of (pats : list regex) (lines : list string) : list nat :=
  (filter (fun il => existsb (fun pat => re_matches pat (strip il.2)) pats = true)
          (enumerate lines)).*1.

(** The body of [for i, start in enumerate(boundaries)]. *)
Definition regex_section (lines : list string) (boundaries : list nat)
    (language : string) (metadata : dict) (i_start : nat * nat) : result chunk :=
  let '(i, start) := i_start in
  let end_ := match boundaries !! S i with
              | Some e => e
              | None => length lines
              end in
  let chunk_lines := slice lines start end_ in
  let chunk_content := join nl chunk_lines in
  line0 ← index0 chunk_lines;
  let first_line := strip line0 in
  let function_name := _extract_function_name first_line language in
  mret (Chunk chunk_content
          (dict_update metadata
             [("start_line", VInt (Z.of_nat start + 1));
              ("end_line", VInt (Z.of_nat end_));
              ("function_name", VStr function_name);
              ("chunk_type", VStr "regex_function")])).

Definition _chunk_with_regex (content language : string) (metadata : dict)
    : result (list chunk) :=
  let lines := split_lines content in
  match patterns language with
  | None => mret []
  | Some pats =>
      let boundaries := boundaries_of pats lines in
      if bool_decide (boundaries = []) then mret []
      else mapM (regex_section lines boundaries language metadata) (enumerate boundaries)
  end.

(** A syntax-tree node as [_chunk_with_ast] reads it: [node.type],
    [node.start_point], [node.end_point] (row, column) and
    [node.children]; of a child only its type and byte range are read. *)
Record ts_child := TsChild {
  child_type : string;
  start_byte : nat;
  end_byte : nat
}.

Record ts_node := TsNode {
  node_type : string;
  start_point : nat * nat;
  end_point : nat * nat;
  children : list ts_child
}.

(** [chunk['metadata'][key]] read as an integer. *)
Definition meta_int (c : chunk) (key : string) : result Z :=
  match metadata c !! key with
  | Some (VInt n) => Ok n
  | Some _ => Raise (TypeError "unsupported operand type(s)")
  | None => Raise (KeyError key)
  end.

Definition definition_node_types : list string :=
  ["function_definition"; "method_definition"; "class_definition";
   "function_declaration"; "method_declaration"].

(** The chunk appended for a definition node. *)
Definition ast_node_chunk (content : string) (lines : list string) (metadata : dict)
    (node : ts_node) : chunk :=
  let start_line := (start_point node).1 in
  let end_line := (end_point node).1 in
  let node_lines := slice lines start_line (end_line + 1) in
  let node_content := join nl node_lines in
  let name_node :=
    List.find (fun child => String.eqb (child_type child) "identifier") (children node) in
  let function_name :=
    match name_node with
    | Some n => String.substring (start_byte n) (end_byte n - start_byte n) content
    | None => ""
    end in
  Chunk node_content
        (dict_update metadata
           [("start_line", VInt (Z.of_nat start_line + 1));
            ("end_line", VInt (Z.of_nat end_line + 1));
            ("function_name", VStr function_name);
            ("node_type", VStr (node_type node));
            ("chunk_type", VStr "ast_function")]).

(** The body of [for chunk in chunks] that collects the lines outside
    every definition; the state is [(global_lines, current_line)]. *)
Definition global_step (lines : list string) (st : list string * Z) (c : chunk)
    : result (list string * Z) :=
  let '(global_lines, current_line) := st in
  start_line ← meta_int c "start_line";
  let start := start_line - 1 in
  let global_lines :=
    if current_line <? start
    then (global_lines ++ slice lines (Z.to_nat current_line) (Z.to_nat start))%list
    else global_lines in
  end_line ← meta_int c "end_line";
  mret (global_lines, end_line).

(** [_chunk_with_ast] after the tree has been parsed. *)
Definition ast_chunks_of (content : string) (metadata : dict) (nodes : list ts_node)
    : result (list chunk) :=
  let lines := split_lines content in
  let chunks :=
    map (ast_node_chunk content lines metadata)
        (List.filter (fun node => existsb (String.eqb (node_type node)) definition_node_types)
                     nodes) in
  if bool_decide (chunks = []) then mret chunks
  else
    '(global_lines, current_line) ← for_each (global_step lines) ([], 0) chunks;
    let global_lines :=
      if current_line <? len lines
      then (global_lines ++ drop (Z.to_nat current_line) lines)%list
      else global_lines in
    if bool_decide (global_lines = []) then mret chunks
    else
      let global_content := strip (join nl global_lines) in
      if bool_decide (global_content = "") then mret chunks
      else
        mret (Chunk global_content
                (dict_update metadata
                   [("chunk_type", VStr "ast_global");
                    ("start_line", VInt 1);
                    ("end_line", VInt (len lines))])
              :: chunks).

(** [if chunks: return chunks]: a non-empty tier result is returned, an
    empty one falls through. *)
Definition nonempty (chunks : list chunk) : option (list chunk) :=
  match chunks with
  | [] => None
  | _ => Some chunks
  end.

Section Dispatch.

(** The parser is the external package [tree_sitter_languages]:
    [tree_sitter language content] stands for the import,
    [get_parser(language)] and
    [parser.parse(bytes(content, 'utf8')).root_node.children].  It raises
    when the package is missing or parsing fails, and yields [None] when
    there is no parser for the language. *)
Variable tree_sitter : string -> string -> result (option (list ts_node)).

Definition _chunk_with_ast (content language : string) (metadata : dict)
    : result (list chunk) :=
  try_except
    (parsed ← tree_sitter language content;
     match parsed with
     | None => mret []
     | Some nodes => ast_chunks_of content metadata nodes
     end)
    (fun e =>
       match e with
       | ImportError _ => mret []
       | _ => mret []
       end).

Definition chunk_code (content : string) (metadata : dict) : result (list chunk) :=
  let file_type := dict_get metadata "file_type" (VStr ".py") in
  let language := language_of file_type in
  from_ast ←
    try_except
      (ast_chunks ← _chunk_with_ast content language metadata; mret (nonempty ast_chunks))
      (fun _ => mret None);
  match from_ast with
  | Some ast_chunks => mret ast_chunks
  | None =>
      from_regex ←
        try_except
          (regex_chunks ← _chunk_with_regex content language metadata;
           mret (nonempty regex_chunks))
          (fun _ => mret None);
      match from_regex with
      | Some regex_chunks => mret regex_chunks
      | None => mret (_chunk_by_lines content metadata None true)
      end
  end.

(** [self.chunk_csv]: the class has no such attribute. *)
Definition chunk_csv (content : string) (metadata : dict) : result (list chunk) :=
  Raise (AttributeError "'ChunkingService' object has no attribute 'chunk_csv'").

Definition code_types : list string :=
  [".py"; ".js"; ".ts"; ".jsx"; ".tsx"; ".java"; ".cpp"; ".c"; ".h";
   ".go"; ".rs"; ".rb"; ".php"; ".swift"; ".kt"; ".scala"].
Definition config_types : list string :=
  [".json"; ".yaml"; ".yml"; ".toml"; ".ini"; ".xml"; ".properties"].
Definition text_types : list string := [".md"; ".txt"; ".rst"].
Definition web_types : list string := [".html"; ".css"; ".scss"; ".sass"].

(** The [try] block of [chunk_document]. *)
Definition dispatch (content : string) (metadata : dict) : result (list chunk) :=
  let file_type := dict_get metadata "file_type" (VStr ".txt") in
  if value_in file_type code_types then chunk_code content metadata
  else if value_in file_type config_types then chunk_config content metadata
  else if value_in file_type text_types then chunk_document_text content metadata
  else if bool_decide (file_type = VStr ".sql") then chunk_sql content metadata
  else if value_in file_type web_types then chunk_web content metadata
  else if bool_decide (file_type = VStr ".csv") then chunk_csv content metadata
  else chunk_generic content metadata.

Definition chunk_document (content : string) (metadata : dict) : result (list chunk) :=
  try_except (dispatch content metadata)
             (fun e => chunk_generic content metadata).

End Dispatch.

End ChunkingService.

(** ** The ingestion orchestrator's CSV path: [RAGPipeline] *)

Module RAGPipeline.

(** [len(header.split(',')) if header else 0] *)
Definition column_count (header : string) : Z :=
  if bool_decide (header = "") then 0 else len (split_on "," header).

(** [lines[0] if lines else ""] *)
Definition header_of (lines : list string) : string :=
  match lines with
  | header :: _ => header
  | [] => ""
  end.

(** [_process_large_csv_content].  Its [try] block slices, splits and
    formats integers only, so its [except] branch (the
    [csv_large_fallback] chunk) is never entered. *)
Definition _process_large_csv_content (content : string) (metadata : dict) : list chunk :=
  let filename := str_of_value (dict_get metadata "file_name" (VStr "unknown.csv")) in
  let preview_content := str_prefix 1000 content in
  let lines := split_lines preview_content in
  if bool_decide (lines = []) then []
  else
    let header := header_of lines in
    let columns_str := header in
    let size := str_len content in
    let estimated_rows := size / 100 in
    let header_chunk :=
      Chunk ("Very Large CSV File: " ++ filename ++ nl ++ "Columns: " ++ header ++ nl
             ++ "Estimated Rows: ~" ++ format_comma estimated_rows ++ nl
             ++ "File Size: " ++ format_comma size ++ " bytes" ++ nl
             ++ "Note: This is a large dataset - only header and sample processed for performance.")
            (dict_update metadata
               [("chunk_type", VStr "csv_header_very_large");
                ("estimated_rows", VInt estimated_rows);
                ("columns_str", VStr columns_str);
                ("column_count", VInt (column_count header));
                ("file_size_bytes", VInt size);
                ("is_large_dataset", VBool true)]) in
    let sample_lines := if (1 <? length lines)%nat then slice lines 1 6 else [] in
    if bool_decide (sample_lines = []) then [header_chunk]
    else
      [header_chunk;
       Chunk ("Sample from large CSV " ++ filename ++ ":" ++ nl ++ header ++ nl
              ++ join nl sample_lines
              ++ nl ++ nl ++ "... (File contains ~" ++ format_comma estimated_rows
              ++ " total rows)")
             (dict_update metadata
                [("chunk_type", VStr "csv_sample_very_large");
                 ("sample_size", VInt (len sample_lines));
                 ("is_large_dataset", VBool true)])].

(** The header-summary chunk of both branches. *)
Definition csv_header_chunk (title chunk_type filename header : string)
    (lines : list string) (metadata : dict) : chunk :=
  Chunk (title ++ filename ++ nl ++ "Columns: " ++ header ++ nl
         ++ "Total Rows: " ++ str_of_int (len lines - 1))
        (dict_update metadata
           [("chunk_type", VStr chunk_type);
            ("row_count", VInt (len lines - 1));
            ("columns_str", VStr header);
            ("column_count", VInt (column_count header))]).

(** The sample chunk of both branches. *)
Definition csv_sample_chunk (intro chunk_type header : string)
    (sample_rows : list string) (metadata : dict) : chunk :=
  Chunk (intro ++ nl ++ header ++ nl ++ join nl sample_rows)
        (dict_update metadata
           [("chunk_type", VStr chunk_type);
            ("sample_size", VInt (len sample_rows))]).

(** The [try] block of [_process_csv_content]: the chunks appended before
    it ends, and how it ends. *)
Definition csv_try_block (filename : string) (lines : list string) (metadata : dict)
    : list chunk * result unit :=
  let header := header_of lines in
  if (length lines <=? 1000)%nat then
    let chunks :=
      [csv_header_chunk "CSV File: " "csv_header" filename header lines metadata] in
    let sample_rows := if (1 <? length lines)%nat then slice lines 1 11 else [] in
    if bool_decide (sample_rows = []) then (chunks, Ok ())
    else
      ((chunks ++
          [csv_sample_chunk ("Sample data from " ++ filename ++ ":") "csv_sample"
             header sample_rows metadata])%list,
       Ok ())
  else
    let chunks :=
      [csv_header_chunk "Large CSV File: " "csv_header_large" filename header lines metadata] in
    let sample_rows := if (1 <? length lines)%nat then slice lines 1 21 else [] in
    let chunks :=
      if bool_decide (sample_rows = []) then chunks
      else
        (chunks ++
           [csv_sample_chunk ("Sample from " ++ filename ++ " (first 20 rows):")
              "csv_sample_large" header sample_rows metadata])%list in
    match format_comma_value (dict_get metadata "file_size" (VInt 0)) with
    | Raise e => (chunks, Raise e)
    | Ok file_size =>
        let stats_content :=
          "Statistics for " ++ filename ++ ":" ++ nl
          ++ "- Total records: " ++ format_comma (len lines - 1) ++ nl
          ++ "- Columns: " ++ str_of_int (column_count header) ++ nl
          ++ "- File size: " ++ file_size ++ " bytes" ++ nl
          ++ "- Data type: Large dataset suitable for analysis" ++ nl in
        ((chunks ++
            [Chunk stats_content
               (dict_update metadata
                  [("chunk_type", VStr "csv_statistics");
                   ("is_large_dataset", VBool true)])])%list,
         Ok ())
    end.

(** [_process_csv_content] *)
Definition _process_csv_content (content : string) (metadata : dict) : list chunk :=
  if str_len content >? 10000000
  then _process_large_csv_content content metadata
  else
    let lines := split_lines (strip content) in
    if bool_decide (lines = []) then []
    else
      let filename := str_of_value (dict_get metadata "file_name" (VStr "unknown.csv")) in
      match csv_try_block filename lines metadata with
      | (chunks, Ok _) => chunks
      | (chunks, Raise e) =>
          (chunks ++
             [Chunk ("CSV File: " ++ filename ++ nl ++ "Content preview:" ++ nl
                     ++ str_prefix 1000 content ++ "...")
                (dict_update metadata
                   [("chunk_type", VStr "csv_fallback");
                    ("processing_error", VStr (exn_str e))])])%list
      end.

(** The chunks [add_document] goes on to embed and store (the first
    statement of its [try] block). *)
Definition add_document_chunks
    (tree_sitter : string -> string -> result (option (list ChunkingService.ts_node)))
    (content : string) (metadata : dict) : result (list chunk) :=
  if bool_decide (metadata !! "file_type" = Some (VStr ".csv"))
  then mret (_process_csv_content content metadata)
  else ChunkingService.chunk_document tree_sitter content metadata.

End RAGPipeline.

(** ** The query router: [should_use_rag] of [app/routers/chat.py] *)

Definition simple_patterns : list string :=
  ["hi"; "hello"; "hey"; "good morning"; "good afternoon"; "good evening";
   "how are you"; "what's up"; "thanks"; "thank you"; "bye"; "goodbye";
   "ok"; "okay"; "yes"; "no"; "sure"; "great"; "awesome"; "cool"].

Definition project_keywords : list string :=
  ["project"; "code"; "api"; "endpoint"; "backend"; "frontend"; "docker";
   "fastapi"; "streamlit"; "chromadb"; "groq"; "rag"; "database";
   "deployment"; "container"; "service"; "function"; "class"; "method";
   "error"; "bug"; "fix"; "implement"; "create"; "add"; "modify"; "update";
   "architecture"; "structure"; "design"; "pattern"; "configuration";
   "troubleshoot"; "debug"; "optimize"; "performance"].

Definition project_phrases : list string :=
  ["this project"; "my project"; "our project"; "this code"; "my code"].

(** [any(p in text for p in patterns)] *)
Definition any_in (patterns : list string) (text : string) : bool :=
  existsb (fun p => contains p text) patterns.

Definition should_use_rag (message : string) : bool :=
  let message_lower := strip (lower message) in
  if any_in simple_patterns message_lower && (length (split_ws message) <=? 3)%nat
  then false
  else if any_in project_keywords message_lower then true
  else if any_in project_phrases message_lower then true
  else false.

(** ** The hash-based fallback embedder: [EmbeddingService] *)

Module EmbeddingService.

(** The fields of the service object. *)
Record service := Service {
  embedding_provider : string;
  local_model_loaded : bool
}.

(** [range(stop)] *)
Definition py_range (stop : Z) : list Z := map Z.of_nat (seq 0 (Z.to_nat stop)).

(** [range(0, stop, step)] for a positive step. *)
Definition py_range_step (stop step : Z) : list Z :=
  map (fun k => Z.of_nat k * step) (seq 0 (Z.to_nat ((stop + step - 1) / step))).

(** [l[:n]] *)
Definition list_prefix {A} (n : Z) (l : list A) : list A :=
  if n <? 0 then take (length l - Z.to_nat (- n)) l else take (Z.to_nat n) l.

(** [s.encode()]: UTF-8, one byte below 128 and two bytes from 128 on. *)
Definition utf8_char (c : ascii) : list byte :=
  let n := code c in
  if (n <? 128)%N then [byte_of_ascii c]
  else
    match Byte.of_N (192 + n / 64)%N, Byte.of_N (128 + n mod 64)%N with
    | Some b1, Some b2 => [b1; b2]
    | _, _ => []
    end.

Definition encode (s : string) : list byte :=
  concat (map utf8_char (list_ascii_of_string s)).

(** [int.from_bytes(bs, 'big')] *)
Definition int_from_bytes_big (bs : list byte) : Z :=
  foldl (fun acc b => acc * 256 + Z.of_N (Byte.to_N b)) 0 bs.

(** [(byte_val / (2**32 - 1)) * 2 - 1] in binary64 arithmetic. *)
Definition float_val (byte_val : Z) : float :=
  (PrimFloat.of_uint63 (Uint63.of_Z byte_val)
   / PrimFloat.of_uint63 (Uint63.of_Z (2 ^ 32 - 1)) * 2 - 1)%float.

Section Hash.

(** [hashlib.sha256(data).digest()] *)
Variable sha256 : list byte -> list byte.

(** The body of [for j in range(0, min(32, dimension - i))]. *)
Definition hash_component (hash_bytes : list byte) (j : Z) : float :=
  if j * 4 + 3 <? len hash_bytes then
    let byte_val :=
      int_from_bytes_big (slice hash_bytes (Z.to_nat (j * 4)) (Z.to_nat ((j + 1) * 4))) in
    float_val byte_val
  else 0%float.

(** The body of [for i in range(0, dimension, 32)]: the values appended. *)
Definition hash_block (text : string) (dimension i : Z) : list float :=
  let hash_input := text ++ "_" ++ str_of_int i in
  let hash_bytes := sha256 (encode hash_input) in
  map (hash_component hash_bytes) (py_range (Z.min 32 (dimension - i))).

Definition _simple_hash_embedding (self : service) (text : string) (dimension : Z)
    : list float :=
  let embeddings := concat (map (hash_block text dimension) (py_range_step dimension 32)) in
  list_prefix dimension embeddings.

(** The default of the [dimension] parameter. *)
Definition default_dimension : Z := 384.

End Hash.

End EmbeddingService.

(** ** Vocabulary of the properties *)

(** The recorded [(start_line, end_line)] of a chunk, when present. *)
Definition chunk_range (c : chunk) : option (Z * Z) :=
  match metadata c !! "start_line", metadata c !! "end_line" with
  | Some (VInt s), Some (VInt e) => Some (s, e)
  | _, _ => None
  end.

(** [tiles lo hi rs]: the ranges [rs], in order, are non-empty, each starts
    right after the previous one ends, the first starts at [lo] and the
    last ends at [hi] (no range at all tiles the empty interval). *)
Inductive tiles : Z -> Z -> list (Z * Z) -> Prop :=
| tiles_nil lo : tiles lo (lo - 1) []
| tiles_cons lo e hi rs : lo <= e -> tiles (e + 1) hi rs -> tiles lo hi ((lo, e) :: rs).

(** Line number [k] lies in the range [r]. *)
Definition covers (k : Z) (r : Z * Z) : bool := (r.1 <=? k) && (k <=? r.2).

(** *** Leading keywords, in plain terms

    The classification of a statement as the specification words it: by
    the keyword the statement starts with, compared without regard to
    case, after any leading blanks; [CREATE] must be followed by at least
    one blank and then [TABLE] or [INDEX]. *)

(** [ci_prefix kw s]: what follows [kw] at the start of [s], when [s]
    starts with [kw] up to case. *)
Fixpoint ci_prefix (kw s : string) : option string :=
  match kw, s with
  | EmptyString, _ => Some s
  | String k kw', String c s' =>
      if Ascii.eqb (lower_char c) (lower_char k) then ci_prefix kw' s' else None
  | String _ _, EmptyString => None
  end.

Definition starts_blank (s : string) : bool :=
  match s with
  | String c _ => isspace c
  | EmptyString => false
  end.

Definition starts_with_keyword (kw s : string) : bool :=
  match ci_prefix kw (lstrip s) with
  | Some _ => true
  | None => false
  end.

Definition starts_with_keywords (kw1 kw2 s : string) : bool :=
  match ci_prefix kw1 (lstrip s) with
  | Some rest => starts_blank rest && starts_with_keyword kw2 rest
  | None => false
  end.

Definition leading_keyword (statement : string) : string :=
  if starts_with_keywords "CREATE" "TABLE" statement then "CREATE_TABLE"
  else if starts_with_keywords "CREATE" "INDEX" statement then "CREATE_INDEX"
  else if starts_with_keyword "INSERT" statement then "INSERT"
  else if starts_with_keyword "SELECT" statement then "SELECT"
  else "UNKNOWN".

(** [not statement] is false after trimming. *)
Definition nonblank (piece : string) : bool := negb (bool_decide (strip piece = "")).

(** The inputs of the specification's examples. *)
Definition sql_example : string :=
  "CREATE TABLE t (id INT);" ++ nl ++ "SELECT * FROM t;".

Definition markdown_example : string :=
  "# A" ++ nl ++ "text1" ++ nl ++ "## B" ++ nl ++ "text2".

(** An empty statement before a real one. *)
Definition sql_leading_empty : string := ";" ++ nl ++ "SELECT 1".

(** The sentence "the n-th emitted chunk has statement_index n", read
    literally. *)
Definition sql_index_is_chunk_ordinal : Prop :=
  forall (text : string) (md : dict) (chunks : list chunk),
    ChunkingService.chunk_sql text md = Ok chunks ->
    forall (n : nat) (c : chunk),
      chunks !! n = Some c ->
      metadata c !! "statement_index" = Some (VInt (Z.of_nat n + 1)).

(** The number of pieces among the first [i] that are dropped as empty. *)
Definition dropped_before (pieces : list string) (i : nat) : nat :=
  length (List.filter (fun piece => negb (nonblank piece)) (take i pieces)).

(** Chunk [c] is the statement cut from the piece [ip.2] at index [ip.1]
    of the split. *)
Definition sql_chunk_of_piece (c : chunk) (ip : nat * string) : Prop :=
  content c = strip ip.2
  /\ content c <> ""
  /\ metadata c !! "statement_type" = Some (VStr (leading_keyword (strip ip.2)))
  /\ metadata c !! "statement_index" = Some (VInt (Z.of_nat ip.1 + 1)).

(** The specification's example followed by a newline: the split leaves an
    empty last piece. *)
Definition sql_trailing_newline : string := sql_example ++ nl.

(** The router's first test: a casual entry occurs in the lowered, trimmed
    message and the message has at most three words. *)
Definition casual_and_short (message : string) : bool :=
  any_in simple_patterns (strip (lower message))
  && (length (split_ws message) <=? 3)%nat.

(** The last character of [p] exists and is not a blank. *)
Fixpoint ends_nonblank (p : string) : bool :=
  match p with
  | EmptyString => false
  | String c EmptyString => negb (isspace c)
  | String _ p' => ends_nonblank p'
  end.

(** The first character of [p] exists and is not a blank. *)
Definition starts_nonblank (p : string) : bool :=
  match p with
  | EmptyString => false
  | String c _ => negb (isspace c)
  end.

(** [ascending lo hi hs]: the indices [hs] increase strictly and lie in
    [lo .. hi - 1]. *)
Inductive ascending : nat -> nat -> list nat -> Prop :=
| ascending_nil lo hi : ascending lo hi []
| ascending_cons lo hi h hs :
    (lo <= h)%nat -> (h < hi)%nat -> ascending (S h) hi hs -> ascending lo hi (h :: hs).

(** The lines a recorded range [(start_line, end_line)] stands for. *)
Definition lines_of_range (lines : list string) (r : Z * Z) : list string :=
  slice lines (Z.to_nat (r.1 - 1)) (Z.to_nat r.2).

(** A text with one line before its first heading. *)
Definition markdown_with_preamble : string :=
  "intro" ++ nl ++ "# A" ++ nl ++ "text1".

(** The number of data rows of a CSV text: the lines after the header. *)
Definition data_row_count (text : string) : Z := len (split_lines (strip text)) - 1.

(** A CSV text with a header and [n] data rows. *)
Definition csv_with_rows (n : nat) : string :=
  "id,name" ++ String.concat "" (repeat (nl ++ "1,x") n).

(** [f"{metadata.get('file_size', 0):,}"] does not raise. *)
Definition file_size_formats (md : dict) : Prop :=
  exists shown, format_comma_value (dict_get md "file_size" (VInt 0)) = Ok shown.

(** The sentence "at most 1000 data rows give exactly two chunks, more than
    1000 give exactly three", read literally. *)
Definition csv_threshold_as_written : Prop :=
  forall (text : string) (md : dict),
    str_len text < 10000000 ->
    let chunks := RAGPipeline._process_csv_content text md in
    (data_row_count text <= 1000 ->
     exists h s,
       chunks = [h; s]
       /\ metadata h !! "row_count" = Some (VInt (data_row_count text)))
    /\ (data_row_count text > 1000 ->
        exists h s t,
          chunks = [h; s; t]
          /\ metadata t !! "chunk_type" = Some (VStr "csv_statistics")).

(** The [chunk_type] tags the chunking engine writes. *)
Definition engine_chunk_types : list string :=
  ["line_based"; "config_complete"; "paragraph_group"; "markdown_section";
   "sql_statement"; "regex_function"; "ast_function"; "ast_global"].

(** The [chunk_type] tags of the orchestrator's CSV path. *)
Definition csv_chunk_types : list string :=
  ["csv_header"; "csv_sample"; "csv_header_large"; "csv_sample_large";
   "csv_statistics"; "csv_fallback"; "csv_header_very_large";
   "csv_sample_very_large"; "csv_large_fallback"].

Definition chunk_type_in (types : list string) (c : chunk) : Prop :=
  exists ty, In ty types /\ metadata c !! "chunk_type" = Some (VStr ty).

Definition engine_chunk : chunk -> Prop := chunk_type_in engine_chunk_types.

(** A chunk cut by the line-based fallback. *)
Definition line_based (c : chunk) : Prop :=
  metadata c !! "chunk_type" = Some (VStr "line_based").

(** The metadata of a CSV document, reduced to its file type. *)
Definition csv_metadata : dict := {[ "file_type" := VStr ".csv" ]}.

(** A Python source with one function, and its metadata. *)
Definition python_example : string := "def f():" ++ nl ++ "    return 1".
Definition python_metadata : dict := {[ "file_type" := VStr ".py" ]}.

(** The sentence "a failure of the syntax-tree tier makes the call fall
    back to generic line-based chunking", read literally. *)
Definition ast_failure_gives_generic : Prop :=
  forall (tree_sitter : string -> string -> result (option (list ChunkingService.ts_node)))
         (text : string) (md : dict) (e : exn),
    value_in (dict_get md "file_type" (VStr ".txt")) ChunkingService.code_types = true ->
    tree_sitter (ChunkingService.language_of (dict_get md "file_type" (VStr ".py"))) text
    = Raise e ->
    ChunkingService.chunk_document tree_sitter text md
    = ChunkingService.chunk_generic text md.

(** A parser that is not installed. *)
Definition no_tree_sitter (language text : string)
    : result (option (list ChunkingService.ts_node)) :=
  Raise (ImportError "No module named 'tree_sitter_languages'").

(** A digest function used to run the embedder on an example: the first 32
    bytes of its input, padded with zeros. *)
Definition prefix_digest (data : list byte) : list byte :=
  take 32 (data ++ repeat x00 32).

(** What holds of the loop state of [_chunk_by_lines] before line [i] is
    read: the open chunk holds the last [k] lines read, and the chunks cut
    so far tile the lines before them. *)
Definition lines_inv (i : nat) (st : ChunkingService.lines_state) : Prop :=
  let k := len (ChunkingService.ls_current_chunk st) in
  k <= Z.of_nat i
  /\ ((0 < i)%nat -> 0 < k)
  /\ exists rs, map chunk_range (ChunkingService.ls_chunks st) = map Some rs
                /\ tiles 1 (Z.of_nat i - k) rs.

(** * Further parts of the backend, and the vocabulary of their properties *)

(** ** Line-based chunks, more closely *)

(** The words of a group of lines, counted as [_chunk_by_lines] counts
    them: [len(line.split())] summed over the lines. *)
Definition total_words (lines : list string) : Z :=
  foldr (fun line acc => len (split_ws line) + acc) 0 lines.

(** [len(content.split())] *)
Definition word_count (text : string) : Z := len (split_ws text).

(** What [_chunk_by_lines] records about a chunk with range [r]: the
    range itself, the lines of the range as content, their number, and a
    word count within the budget unless the chunk is a single line. *)
Definition line_chunk_ok (lines : list string) (size : Z) (c : chunk) (r : Z * Z) : Prop :=
  chunk_range c = Some r
  /\ content c = join nl (lines_of_range lines r)
  /\ metadata c !! "line_count" = Some (VInt (r.2 - r.1 + 1))
  /\ (total_words (lines_of_range lines r) <= size \/ r.1 = r.2).

(** A chunk was closed because the line after it did not fit. *)
Definition closed_by_overflow (lines : list string) (size : Z) (r : Z * Z) : Prop :=
  exists next,
    lines !! Z.to_nat r.2 = Some next
    /\ total_words (lines_of_range lines r) + word_count next > size.

(** The loop state of [_chunk_by_lines] before line [i] is read, in
    full: the open chunk is the last [k] lines read, its size is their
    word count, it is within the budget unless it is a single line, and
    the closed chunks tile the lines before it, each closed by
    overflow. *)
Definition lines_inv_full (lines : list string) (size : Z) (i : nat)
    (st : ChunkingService.lines_state) : Prop :=
  let cur := ChunkingService.ls_current_chunk st in
  let k := length cur in
  (k <= i)%nat
  /\ cur = slice lines (i - k) i
  /\ ChunkingService.ls_current_size st = total_words cur
  /\ (cur <> [] -> total_words cur <= size \/ k = 1%nat)
  /\ ((0 < i)%nat -> (0 < k)%nat)
  /\ exists rs,
       Forall2 (fun c r => line_chunk_ok lines size c r /\ closed_by_overflow lines size r)
               (ChunkingService.ls_chunks st) rs
       /\ tiles 1 (Z.of_nat i - Z.of_nat k) rs.

(** ** Pattern-based code sections, more closely *)

(** What one chunk of [_chunk_with_regex] is, given its range: it holds the
    lines of the range, the first of them has the property [Q], and the
    chunk's [function_name] is read from that line. *)
Definition regex_chunk_ok (lines : list string) (language : string)
    (Q : string -> Prop) (c : chunk) (r : Z * Z) : Prop :=
  exists first,
    lines !! Z.to_nat (r.1 - 1) = Some first
    /\ Q first
    /\ chunk_range c = Some r
    /\ content c = join nl (lines_of_range lines r)
    /\ metadata c !! "function_name"
       = Some (VStr (ChunkingService._extract_function_name (strip first) language)).

(** ** Paragraph groups with an overlap *)

(** The paragraphs a list of groups stands for when every group but the
    first repeats, in front, one paragraph of the group before it. *)
Definition overlapped (groups : list (list string)) : list string :=
  match groups with
  | [] => []
  | g :: rest => g ++ concat (map (drop 1) rest)
  end%list.

(** Each group begins with the paragraph the group before it ends with. *)
Definition chained (groups : list (list string)) : Prop :=
  forall n g g',
    groups !! n = Some g -> groups !! S n = Some g' ->
    exists p, last g = Some p /\ head g' = Some p.

(** What one chunk of [_chunk_by_paragraphs] is, given its paragraphs. *)
Definition paragraph_group_ok (c : chunk) (g : list string) : Prop :=
  g <> []
  /\ content c = join (nl ++ nl) g
  /\ metadata c !! "paragraph_count" = Some (VInt (len g)).

(** The loop invariant of [_chunk_by_paragraphs]: [seen] are the paragraphs
    consumed so far. *)
Definition paragraphs_inv (seen : list string) (st : ChunkingService.lines_state) : Prop :=
  exists gs,
    Forall2 paragraph_group_ok (ChunkingService.ls_chunks st) gs
    /\ overlapped (gs ++ [ChunkingService.ls_current_chunk st]) = seen
    /\ chained gs
    /\ (forall g0, last gs = Some g0 ->
          exists p, last g0 = Some p /\ head (ChunkingService.ls_current_chunk st) = Some p)
    /\ (seen <> [] -> ChunkingService.ls_current_chunk st <> []).


(** ** The embedding service's entry points: [EmbeddingService.embed_text] *)

Module EmbeddingCalls.

Import EmbeddingService.

Section Calls.

(** [hashlib.sha256(data).digest()] *)
Variable sha256 : list byte -> list byte.

(** The module-level flag set by [import sentence_transformers]. *)
Variable SENTENCE_TRANSFORMERS_AVAILABLE : bool.

(** [SentenceTransformer(settings.LOCAL_EMBEDDING_MODEL)]: the model is
    built, or the constructor raises. *)
Variable SentenceTransformer : result unit.

(** [loop.run_in_executor(None, self.local_model.encode, text)] followed by
    [tolist()]: the model's vector, or an exception. *)
Variable model_encode : string -> result (list float).

(** [self.local_model.get_sentence_embedding_dimension()] *)
Variable get_sentence_embedding_dimension : Z.

(** [_init_local_model]: sets [self.local_model]. *)
Definition _init_local_model (self : service) : service :=
  if negb SENTENCE_TRANSFORMERS_AVAILABLE then Service (embedding_provider self) false
  else
    match SentenceTransformer with
    | Ok _ => Service (embedding_provider self) true
    | Raise _ => Service (embedding_provider self) false
    end.

(** [__init__], given [settings.EMBEDDING_PROVIDER]. *)
Definition __init__ (EMBEDDING_PROVIDER : string) : service :=
  let self := Service EMBEDDING_PROVIDER false in
  if String.eqb (embedding_provider self) "local" then _init_local_model self else self.

(** [_embed_with_local]: the service object after the call, and the
    result. *)
Definition _embed_with_local (self : service) (text : string)
    : service * result (list float) :=
  let self1 :=
    if negb (local_model_loaded self) && SENTENCE_TRANSFORMERS_AVAILABLE
    then _init_local_model self else self in
  if local_model_loaded self1 then
    match model_encode text with
    | Ok embedding => (self1, Ok embedding)
    | Raise _ => (self1, Ok (_simple_hash_embedding sha256 self1 text default_dimension))
    end
  else (self1, Ok (_simple_hash_embedding sha256 self1 text default_dimension)).

(** [_embed_with_groq]: delegates, and raises again what it catches. *)
Definition _embed_with_groq (self : service) (text : string)
    : service * result (list float) :=
  match _embed_with_local self text with
  | (self1, Ok embedding) => (self1, Ok embedding)
  | (self1, Raise e) => (self1, Raise e)
  end.

(** [embed_text] *)
Definition embed_text (self : service) (text : string) : service * result (list float) :=
  let groq := String.eqb (embedding_provider self) "groq" in
  match (if groq then _embed_with_groq self text else _embed_with_local self text) with
  | (self1, Ok embedding) => (self1, Ok embedding)
  | (self1, Raise _) =>
      if String.eqb (embedding_provider self1) "groq"
      then _embed_with_local self1 text
      else _embed_with_groq self1 text
  end.

(** [embed_texts] *)
Fixpoint embed_texts (self : service) (texts : list string)
    : service * result (list (list float)) :=
  match texts with
  | [] => (self, Ok [])
  | text :: rest =>
      match embed_text self text with
      | (self1, Raise e) => (self1, Raise e)
      | (self1, Ok embedding) =>
          match embed_texts self1 rest with
          | (self2, Raise e) => (self2, Raise e)
          | (self2, Ok embeddings) => (self2, Ok (embedding :: embeddings))
          end
      end
  end.

(** [get_embedding_dimension] *)
Definition get_embedding_dimension (self : service) : service * Z :=
  if String.eqb (embedding_provider self) "groq" then (self, 384)
  else
    let self1 :=
      if negb (local_model_loaded self) && SENTENCE_TRANSFORMERS_AVAILABLE
      then _init_local_model self else self in
    if local_model_loaded self1 then (self1, get_sentence_embedding_dimension)
    else (self1, 384).

End Calls.

End EmbeddingCalls.

(** The four bytes of a digest that component [j] of a block is made of,
    and the component's value when the digest has 32 bytes. *)
Definition digest_component (digest : list byte) (j : nat) : float :=
  if (j <? 8)%nat then
    EmbeddingService.float_val
      (EmbeddingService.int_from_bytes_big (slice digest (4 * j) (4 * j + 4)))
  else 0%float.

(** The digest that position [p] of the vector is read from. *)
Definition block_digest (sha256 : list byte -> list byte) (text : string) (p : nat)
    : list byte :=
  sha256 (EmbeddingService.encode
            (text ++ "_" ++ str_of_int (Z.of_nat (32 * (p / 32))))).

(** ** Sessions and conversation histories: [SessionService] *)

Module SessionService.

(** One entry of a conversation history. *)
Record message := Message {
  role : string;
  content : string;
  timestamp : string
}.

(** The dictionary kept for a session; times are microseconds. *)
Record session_data := SessionData {
  session_id : string;
  created_at : Z;
  last_active : Z;
  mode : string
}.

(** The service object.  A history is a Python list, appended to in place
    and handed out by reference, so [conversation_histories] maps a session
    to the address of its list and [objects] holds the lists, an address
    being a position in it.  [ticks] and [uuids] count the calls made so
    far to [datetime.utcnow] and [uuid.uuid4]. *)
Record service := Service {
  sessions : gmap string session_data;
  conversation_histories : gmap string nat;
  objects : list (list message);
  ticks : nat;
  uuids : nat
}.

Definition set_sessions (self : service) (s : gmap string session_data) : service :=
  Service s (conversation_histories self) (objects self) (ticks self) (uuids self).

Definition set_histories (self : service) (h : gmap string nat) : service :=
  Service (sessions self) h (objects self) (ticks self) (uuids self).

Definition set_objects (self : service) (o : list (list message)) : service :=
  Service (sessions self) (conversation_histories self) o (ticks self) (uuids self).

(** A new list object. *)
Definition alloc (self : service) (l : list message) : service * nat :=
  (set_objects self (objects self ++ [l])%list, length (objects self)).

(** The list at an address. *)
Definition deref (self : service) (loc : nat) : list message :=
  default [] (objects self !! loc).

(** [l[-n:]] for [n > 0] *)
Definition last_n {A} (n : nat) (l : list A) : list A := drop (length l - n) l.

Section World.

(** [str(uuid.uuid4())] at its n-th call. *)
Variable uuid4 : nat -> string.

(** [datetime.utcnow()] at its n-th call. *)
Variable utcnow : nat -> Z.

(** [datetime.isoformat] *)
Variable isoformat : Z -> string.

Definition read_clock (self : service) : service * Z :=
  (Service (sessions self) (conversation_histories self) (objects self)
           (S (ticks self)) (uuids self),
   utcnow (ticks self)).

Definition read_uuid (self : service) : service * string :=
  (Service (sessions self) (conversation_histories self) (objects self)
           (ticks self) (S (uuids self)),
   uuid4 (uuids self)).

(** [__init__] *)
Definition __init__ : service := Service ∅ ∅ [] 0 0.

(** [create_session] *)
Definition create_session (self : service) (mode : string) : service * string :=
  let '(self, session_id) := read_uuid self in
  let '(self, created_at) := read_clock self in
  let '(self, last_active) := read_clock self in
  let self :=
    set_sessions self
      (<[session_id := SessionData session_id created_at last_active mode]> (sessions self)) in
  let '(self, l) := alloc self [] in
  let self := set_histories self (<[session_id := l]> (conversation_histories self)) in
  (self, session_id).

(** [get_session] *)
Definition get_session (self : service) (session_id : string) : option session_data :=
  sessions self !! session_id.

(** [update_session_activity] *)
Definition update_session_activity (self : service) (session_id : string) : service :=
  match sessions self !! session_id with
  | Some sd =>
      let '(self, now) := read_clock self in
      set_sessions self
        (<[session_id := SessionData (SessionService.session_id sd) (created_at sd) now
                           (SessionService.mode sd)]>
           (sessions self))
  | None => self
  end.

(** [add_message_to_history] *)
Definition add_message_to_history (self : service) (session_id role content : string)
    : service :=
  let '(self, l) :=
    match conversation_histories self !! session_id with
    | Some l => (self, l)
    | None =>
        let '(self, l) := alloc self [] in
        (set_histories self (<[session_id := l]> (conversation_histories self)), l)
    end in
  let '(self, now) := read_clock self in
  let message := Message role content (isoformat now) in
  let self := set_objects self (<[l := (deref self l ++ [message])%list]> (objects self)) in
  let self := update_session_activity self session_id in
  if len (deref self l) >? 50 then
    let '(self, l') := alloc self (last_n 50 (deref self l)) in
    set_histories self (<[session_id := l']> (conversation_histories self))
  else self.

(** [get_conversation_history]: the address of the stored list, or of a new
    empty list when the session has none. *)
Definition get_conversation_history (self : service) (session_id : string) : service * nat :=
  match conversation_histories self !! session_id with
  | Some l => (self, l)
  | None => alloc self []
  end.

(** [clear_conversation_history] *)
Definition clear_conversation_history (self : service) (session_id : string) : service * Z :=
  match conversation_histories self !! session_id with
  | Some l =>
      let message_count := len (deref self l) in
      let '(self, l') := alloc self [] in
      (set_histories self (<[session_id := l']> (conversation_histories self)), message_count)
  | None => (self, 0)
  end.

(** [timedelta(minutes=n)] in microseconds. *)
Definition minutes (n : Z) : Z := n * 60000000.

(** The body of [for session_id in expired_sessions]. *)
Definition remove_session (self : service) (session_id : string) : service :=
  let self := set_sessions self (delete session_id (sessions self)) in
  set_histories self (delete session_id (conversation_histories self)).

(** [cleanup_expired_sessions] *)
Definition cleanup_expired_sessions (self : service) (timeout_minutes : Z) : service * Z :=
  let '(self, now) := read_clock self in
  let cutoff_time := now - minutes timeout_minutes in
  let expired_sessions :=
    (filter (fun kv => last_active kv.2 < cutoff_time) (map_to_list (sessions self))).*1 in
  (foldl remove_session self expired_sessions, len expired_sessions).

(** [get_or_create_session] *)
Definition get_or_create_session (self : service) (session_id : option string)
    (mode : string) : service * string :=
  match session_id with
  | Some sid =>
      if negb (String.eqb sid "") && bool_decide (is_Some (sessions self !! sid))
      then (update_session_activity self sid, sid)
      else create_session self mode
  | None => create_session self mode
  end.

End World.

End SessionService.

(** ** Messages for the model: [LLMService.format_messages_for_general_chat] *)

Module LLMService.

(** A message as the chat API takes it. *)
Record chat_message := ChatMessage {
  role : string;
  content : string
}.

Definition system_message : chat_message :=
  ChatMessage "system"
    "You are a helpful AI assistant. Engage in natural conversation, answer questions accurately, and provide thoughtful responses. Be concise but thorough.".

(** [format_messages_for_general_chat] *)
Definition format_messages_for_general_chat (user_message : string)
    (conversation_history : option (list SessionService.message)) : list chat_message :=
  let messages := [system_message] in
  let messages :=
    match conversation_history with
    | Some (m :: ms) =>
        (messages ++ map (fun msg => ChatMessage (SessionService.role msg)
                                                (SessionService.content msg))
                         (SessionService.last_n 10 (m :: ms)))%list
    | _ => messages
    end in
  (messages ++ [ChatMessage "user" user_message])%list.

End LLMService.

(** ** The general chat endpoint up to the call of the model: [chat_general] *)

Section ChatGeneral.

Variable uuid4 : nat -> string.
Variable utcnow : nat -> Z.
Variable isoformat : Z -> string.

(** The statements of [chat_general] before the response is streamed: the
    service object afterwards, the session and the messages passed to
    [stream_chat_completion].  [conversation_history] is the list object
    itself, read when the messages are formatted. *)
Definition chat_general_messages (session_service : SessionService.service)
    (request_session_id : option string) (request_message : string)
    : SessionService.service * string * list LLMService.chat_message :=
  let '(session_service, session_id) :=
    SessionService.get_or_create_session uuid4 utcnow session_service
      request_session_id "general" in
  let '(session_service, conversation_history) :=
    SessionService.get_conversation_history session_service session_id in
  let session_service :=
    SessionService.add_message_to_history utcnow isoformat session_service
      session_id "user" request_message in
  let messages :=
    LLMService.format_messages_for_general_chat request_message
      (Some (SessionService.deref session_service conversation_history)) in
  (session_service, session_id, messages).

End ChatGeneral.

(** *** Well-formed service objects *)

(** Every session has a history; every history is an allocated list of its
    own, of at most 50 messages. *)
Definition sessions_wf (self : SessionService.service) : Prop :=
  (forall sid, is_Some (SessionService.sessions self !! sid) ->
               is_Some (SessionService.conversation_histories self !! sid))
  /\ (forall sid l, SessionService.conversation_histories self !! sid = Some l ->
                    (l < length (SessionService.objects self))%nat
                    /\ (length (SessionService.deref self l) <= 50)%nat)
  /\ (forall sid1 sid2 l,
        SessionService.conversation_histories self !! sid1 = Some l ->
        SessionService.conversation_histories self !! sid2 = Some l ->
        sid1 = sid2).

(** The stored history of a session, as [get_conversation_history] reads it. *)
Definition history_of (self : SessionService.service) (sid : string)
    : list SessionService.message :=
  match SessionService.conversation_histories self !! sid with
  | Some l => SessionService.deref self l
  | None => []
  end.

(** What [add_message_to_history] does once the session's list, at address
    [l], is known to exist. *)
Definition append_to_history (utcnow : nat -> Z) (isoformat : Z -> string)
    (self : SessionService.service) (l : nat) (session_id role content : string)
    : SessionService.service :=
  let '(self, now) := SessionService.read_clock utcnow self in
  let message := SessionService.Message role content (isoformat now) in
  let self :=
    SessionService.set_objects self
      (<[l := (SessionService.deref self l ++ [message])%list]> (SessionService.objects self)) in
  let self := SessionService.update_session_activity utcnow self session_id in
  if len (SessionService.deref self l) >? 50 then
    let '(self, l') :=
      SessionService.alloc self (SessionService.last_n 50 (SessionService.deref self l)) in
    SessionService.set_histories self
      (<[session_id := l']> (SessionService.conversation_histories self))
  else self.

(** The effect of [add_message_to_history] on a session [sid] that receives
    the message [m], from the state [self] to the state [self']. *)
Definition message_added (self self' : SessionService.service) (sid : string)
    (m : SessionService.message) : Prop :=
  sessions_wf self'
  /\ history_of self' sid = SessionService.last_n 50 (history_of self sid ++ [m])
  /\ (forall sid', sid' <> sid -> history_of self' sid' = history_of self sid')
  /\ (forall l, SessionService.conversation_histories self !! sid = Some l ->
                SessionService.deref self' l = (SessionService.deref self l ++ [m])%list)
  /\ (forall sid', is_Some (SessionService.sessions self' !! sid')
                   <-> is_Some (SessionService.sessions self !! sid')).

(** ** What a chunk's metadata owes to the document's *)

(** The keys the chunking engine writes into a chunk's metadata. *)
Definition engine_keys : list string :=
  ["start_line"; "end_line"; "chunk_type"; "line_count"; "paragraph_count";
   "section_title"; "statement_type"; "statement_index"; "function_name";
   "node_type"].

(** The keys the CSV path of the orchestrator writes. *)
Definition csv_keys : list string :=
  ["chunk_type"; "row_count"; "columns_str"; "column_count"; "sample_size";
   "is_large_dataset"; "processing_error"; "estimated_rows"; "file_size_bytes"].

(** The chunk's metadata is the document's, updated at some of [keys]. *)
Definition built_on (keys : list string) (md : dict) (c : chunk) : Prop :=
  exists kvs, metadata c = dict_update md kvs /\ Forall (fun kv => In kv.1 keys) kvs.

(** The chunk keeps every key of the document's metadata, and the value of
    every key outside [keys]. *)
Definition keeps_metadata (keys : list string) (md : dict) (c : chunk) : Prop :=
  (forall k, is_Some (md !! k) -> is_Some (metadata c !! k))
  /\ (forall k, ~ In k keys -> metadata c !! k = md !! k).

(** Solves [built_on keys md c] for a chunk built by [dict_update]. *)
Ltac built := eexists; split; [reflexivity | repeat constructor; simpl; tauto].


(** ** The vector store's [add_document]: [VectorStoreService] *)

Module VectorStoreService.

(** One entry of the collection, as [collection.add] receives it. *)
Record stored := Stored {
  stored_id : string;
  stored_content : string;
  stored_embedding : list float;
  stored_metadata : dict
}.

(** The service object: the entries added to its collection so far, and
    the number of calls made so far to [datetime.utcnow]. *)
Record service := Service {
  collection : list stored;
  clock : nat
}.

Section Collection.

(** [self.collection.add(...)] of ChromaDB, given the entries added so
    far: it takes the entry, or raises. *)
Variable collection_add : list stored -> stored -> result unit.

Variable utcnow : nat -> Z.
Variable isoformat : Z -> string.

(** [add_document] *)
Definition add_document (self : service) (doc_id content : string)
    (embedding : list float) (metadata : dict) : service * result string :=
  let metadata := <["added_at" := VStr (isoformat (utcnow (clock self)))]> metadata in
  let self := Service (collection self) (S (clock self)) in
  let entry := Stored doc_id content embedding metadata in
  match collection_add (collection self) entry with
  | Ok _ => (Service (collection self ++ [entry])%list (clock self), Ok doc_id)
  | Raise e => (self, Raise e)
  end.

End Collection.

End VectorStoreService.

(** ** Storing a document: [RAGPipeline.add_document] *)

(** [chunk.get('metadata', {})] *)
Definition chunk_get_metadata (c : chunk) : dict := metadata c.

Module DocumentStore.

(** The services of the pipeline object. *)
Record pipeline := Pipeline {
  embedding_service : EmbeddingService.service;
  vectorstore_service : VectorStoreService.service
}.

(** The dictionary [add_document] returns. *)
Definition report (status : string) (chunks_added : Z) (message : string) : dict :=
  dict_update ∅
    [("status", VStr status); ("chunks_added", VInt chunks_added);
     ("message", VStr message)].

(** [f"{doc_id}_chunk_{i}"] *)
Definition chunk_id (doc_id : string) (i : nat) : string :=
  doc_id ++ "_chunk_" ++ str_of_int (Z.of_nat i).

Section Pipeline.

Variable tree_sitter : string -> string -> result (option (list ChunkingService.ts_node)).
Variable sha256 : list byte -> list byte.
Variable SENTENCE_TRANSFORMERS_AVAILABLE : bool.
Variable SentenceTransformer : result unit.
Variable model_encode : string -> result (list float).
Variable collection_add :
  list VectorStoreService.stored -> VectorStoreService.stored -> result unit.
Variable utcnow : nat -> Z.
Variable isoformat : Z -> string.

(** [for i, chunk in enumerate(chunks)] of [add_document]; [chunks_added]
    is the counter. *)
Fixpoint store_chunks (self : pipeline) (doc_id : string) (metadata : dict)
    (chunks_added : Z) (chunks : list (nat * chunk)) : pipeline * result Z :=
  match chunks with
  | [] => (self, Ok chunks_added)
  | (i, c) :: rest =>
      match EmbeddingCalls.embed_text sha256 SENTENCE_TRANSFORMERS_AVAILABLE
              SentenceTransformer model_encode (embedding_service self) (content c) with
      | (es, Raise e) => (Pipeline es (vectorstore_service self), Raise e)
      | (es, Ok embedding) =>
          match VectorStoreService.add_document collection_add utcnow isoformat
                  (vectorstore_service self) (chunk_id doc_id i) (content c) embedding
                  (chunk_get_metadata c ∪ metadata) with
          | (vs, Raise e) => (Pipeline es vs, Raise e)
          | (vs, Ok _) =>
              store_chunks (Pipeline es vs) doc_id metadata (chunks_added + 1) rest
          end
      end
  end.

(** [add_document] *)
Definition add_document (self : pipeline) (doc_id content : string) (metadata : dict)
    : pipeline * dict :=
  match RAGPipeline.add_document_chunks tree_sitter content metadata with
  | Raise e => (self, report "error" 0 ("Error adding document: " ++ exn_str e))
  | Ok chunks =>
      if bool_decide (chunks = []) then
        (self, report "warning" 0 "No chunks generated from document")
      else
        match store_chunks self doc_id metadata 0 (enumerate chunks) with
        | (self, Ok chunks_added) =>
            (self, report "success" chunks_added
                     ("Successfully added " ++ str_of_int chunks_added ++ " chunks"))
        | (self, Raise e) =>
            (self, report "error" 0 ("Error adding document: " ++ exn_str e))
        end
  end.

End Pipeline.

End DocumentStore.

(** Entry [s] of the collection is chunk [c], stored as number [i] of
    document [doc_id]. *)
Definition stored_as (doc_id : string) (md : dict) (ic : nat * chunk)
    (s : VectorStoreService.stored) : Prop :=
  VectorStoreService.stored_id s = DocumentStore.chunk_id doc_id ic.1
  /\ VectorStoreService.stored_content s = content ic.2
  /\ exists ts,
       VectorStoreService.stored_metadata s
       = <["added_at" := VStr ts]> (metadata ic.2 ∪ md).

(** ** Choosing the prompt: [RAGPipeline._build_intelligent_prompt] and
    [build_code_generation_prompt] of [app/core/code_prompts.py] *)

Module Prompts.

Definition debugging_words : list string :=
  ["error"; "bug"; "issue"; "problem"; "fix"; "debug";
   "exception"; "traceback"; "fails"; "broken"; "not working"].

Definition architecture_words : list string :=
  ["architecture"; "design"; "pattern"; "structure"; "organize";
   "scalable"; "performance"; "optimize"; "refactor"; "improve"].

Definition review_words : list string :=
  ["review"; "check"; "validate"; "best practice"; "code quality";
   "security"; "vulnerability"; "clean up"].

(** The builder [_build_intelligent_prompt] calls. *)
Inductive builder :=
| Debugging
| Architecture
| CodeReview
| CodeGeneration.

(** The [if]/[elif] chain of [_build_intelligent_prompt]. *)
Definition chosen_builder (query : string) : builder :=
  let query_lower := lower query in
  if any_in debugging_words query_lower then Debugging
  else if any_in architecture_words query_lower then Architecture
  else if any_in review_words query_lower then CodeReview
  else CodeGeneration.

(** The value of [task_type] in [build_code_generation_prompt]. *)
Definition task_type (request : string) : string :=
  let request_lower := lower request in
  if any_in ["create"; "generate"; "write"; "implement"; "build"] request_lower
  then "generation"
  else if any_in ["fix"; "debug"; "error"; "bug"; "issue"; "problem"] request_lower
  then "debugging"
  else if any_in ["review"; "improve"; "optimize"; "refactor"] request_lower
  then "review"
  else if any_in ["explain"; "how"; "what"; "why"; "understand"] request_lower
  then "explanation"
  else "general".

Section Builders.

(** A conversation history, and the four prompt builders of
    [app/core/code_prompts.py], each taking the context, the query and the
    history. *)
Variable history : Type.
Variable build_debugging_prompt : string -> string -> history -> string.
Variable build_architecture_prompt : string -> string -> history -> string.
Variable build_code_review_prompt : string -> string -> history -> string.
Variable build_code_generation_prompt : string -> string -> history -> string.

(** [_build_intelligent_prompt] *)
Definition _build_intelligent_prompt (query context : string)
    (conversation_history : history) : string :=
  match chosen_builder query with
  | Debugging => build_debugging_prompt context query conversation_history
  | Architecture => build_architecture_prompt context query conversation_history
  | CodeReview => build_code_review_prompt context query conversation_history
  | CodeGeneration => build_code_generation_prompt context query conversation_history
  end.

End Builders.

End Prompts.

(** ** Proof automation *)

(** Solves [dict_update d kvs !! key = Some v] for literal keys. *)
Ltac dict_lookup :=
  unfold dict_update; simpl;
  repeat first [ rewrite lookup_insert_eq | rewrite lookup_insert_ne by done ];
  try reflexivity.

(** Solves [chunk_type_in types c] for a chunk built with tag [ty]. *)
Ltac chunk_tag ty :=
  exists ty; split; [simpl; tauto | simpl; dict_lookup].

(** * Properties *)

Local Open Scope list_scope.

(** ** Generalities *)

Lemma tiles_empty lo hi : hi = lo - 1 -> tiles lo hi [].
Proof. intros ->. apply tiles_nil. Qed.

Lemma tiles_snoc lo m e rs :
  tiles lo m rs -> m + 1 <= e -> tiles lo e (rs ++ [(m + 1, e)]).
Proof.
  induction 1 as [lo | lo e' hi rs Hle Ht IH]; intros He; simpl.
  - replace (lo - 1 + 1) with lo by lia.
    apply tiles_cons; [lia |]. apply tiles_empty. lia.
  - apply tiles_cons; auto.
Qed.

Lemma tiles_hi lo hi hi' rs : tiles lo hi rs -> hi = hi' -> tiles lo hi' rs.
Proof. intros H <-. exact H. Qed.

Lemma tiles_snoc_at lo m s e rs :
  tiles lo m rs -> s = m + 1 -> s <= e -> tiles lo e (rs ++ [(s, e)]).
Proof. intros H -> He. apply tiles_snoc; auto. Qed.

Lemma tiles_bounds lo hi rs : tiles lo hi rs -> lo - 1 <= hi.
Proof. induction 1; lia. Qed.

(** Every range of a tiling is non-empty and lies in the interval. *)
Lemma tiles_ranges lo hi rs :
  tiles lo hi rs -> Forall (fun r => lo <= r.1 /\ r.1 <= r.2 /\ r.2 <= hi) rs.
Proof.
  induction 1 as [lo | lo e hi rs Hle Ht IH]; constructor.
  - simpl. apply tiles_bounds in Ht. lia.
  - eapply Forall_impl; [exact IH |]. simpl. intros r. lia.
Qed.

(** A tiling covers every line of its interval exactly once and no line
    outside it. *)
Lemma tiles_count lo hi rs :
  tiles lo hi rs ->
  forall k, length (List.filter (covers k) rs)
            = if (lo <=? k) && (k <=? hi) then 1%nat else 0%nat.
Proof.
  induction 1 as [lo | lo e hi rs Hle Ht IH]; intros k; simpl.
  - destruct (Z.leb_spec lo k), (Z.leb_spec k (lo - 1)); simpl; auto; lia.
  - specialize (IH k). apply tiles_bounds in Ht.
    unfold covers at 1; simpl.
    destruct (Z.leb_spec lo k), (Z.leb_spec k e), (Z.leb_spec k hi),
      (Z.leb_spec (e + 1) k); simpl in *; try lia.
Qed.

Lemma split_on_nonempty sep s : split_on sep s <> [].
Proof.
  destruct s as [| c s]; simpl; [discriminate |].
  destruct (Ascii.eqb c sep); [discriminate |].
  destruct (split_on sep s); discriminate.
Qed.

Lemma enumerate_from_length {A} (l : list A) i : length (enumerate_from i l) = length l.
Proof. revert i; induction l; intros; simpl; auto. Qed.

Section LineChunks.

Import ChunkingService.

Lemma chunk_range_line_chunk md cur s e :
  chunk_range (line_chunk md cur s e) = Some (s, e).
Proof.
  unfold chunk_range, line_chunk, dict_update; simpl.
  rewrite !lookup_insert_ne by done. rewrite lookup_insert_eq.
  rewrite !lookup_insert_ne by done. rewrite lookup_insert_eq.
  reflexivity.
Qed.

Lemma lines_inv_init : lines_inv 0 (LinesState [] [] 0).
Proof.
  unfold lines_inv, len; simpl. split; [lia |]. split; [lia |].
  exists []. split; [reflexivity |]. apply tiles_empty. lia.
Qed.

Lemma lines_step_inv md size i st line :
  lines_inv i st -> lines_inv (S i) (lines_step md size st (i, line)).
Proof.
  intros (Hk & Hpos & rs & Hrs & Ht). unfold lines_step.
  destruct ((ls_current_size st + len (split_ws line) >? size)
            && negb (bool_decide (ls_current_chunk st = []))) eqn:Hflush.
  - apply andb_true_iff in Hflush as [_ Hne].
    apply negb_true_iff, bool_decide_eq_false in Hne.
    assert (0 < len (ls_current_chunk st)) as Hk0.
    { unfold len. destruct (ls_current_chunk st); [done | simpl; lia]. }
    unfold lines_inv, len in *; simpl.
    split; [lia |]. split; [lia |].
    exists (rs ++ [(Z.of_nat i - Z.of_nat (length (ls_current_chunk st)) + 1, Z.of_nat i)]).
    split.
    + rewrite !map_app, Hrs; simpl. rewrite chunk_range_line_chunk. reflexivity.
    + eapply tiles_hi; [eapply tiles_snoc_at; [exact Ht | reflexivity |] |]; lia.
  - unfold lines_inv, len in *; simpl. rewrite length_app; simpl.
    split; [lia |]. split; [lia |].
    exists rs. split; [exact Hrs |].
    eapply tiles_hi; [exact Ht | lia].
Qed.

Lemma lines_loop_inv md size lines : forall i st,
  lines_inv i st ->
  lines_inv (i + length lines) (foldl (lines_step md size) st (enumerate_from i lines)).
Proof.
  induction lines as [| line lines IH]; intros i st Hinv; simpl.
  - replace (i + 0)%nat with i by lia. exact Hinv.
  - replace (i + S (length lines))%nat with (S i + length lines)%nat by lia.
    apply IH, lines_step_inv, Hinv.
Qed.

(** The ranges recorded by [_chunk_by_lines] tile the lines [1..N]. *)
Lemma chunk_by_lines_tiles content md size ps :
  exists rs,
    map chunk_range (_chunk_by_lines content md size ps) = map Some rs
    /\ tiles 1 (len (split_lines content)) rs.
Proof.
  unfold _chunk_by_lines.
  set (n := match size with Some n => n | None => max_chunk_size end).
  set (lines := split_lines content).
  pose proof (lines_loop_inv md n lines 0 _ lines_inv_init) as Hinv.
  simpl in Hinv. fold (enumerate lines) in Hinv.
  destruct Hinv as (Hk & Hpos & rs & Hrs & Ht).
  assert (0 < length lines)%nat as Hn.
  { pose proof (split_on_nonempty newline content).
    unfold lines, split_lines. destruct (split_on newline content); [done | simpl; lia]. }
  specialize (Hpos Hn).
  destruct (bool_decide (ls_current_chunk _ = [])) eqn:Hb.
  - apply bool_decide_eq_true in Hb. rewrite Hb in Hpos. unfold len in Hpos; simpl in Hpos. lia.
  - match goal with
    | |- context [line_chunk _ _ ?s ?e] => exists (rs ++ [(s, e)])
    end.
    split.
    + rewrite !map_app, Hrs; simpl. rewrite chunk_range_line_chunk. reflexivity.
    + unfold len in *. eapply tiles_snoc_at; [exact Ht | |]; lia.
Qed.

Lemma split_lines_length text : 1 <= len (split_lines text).
Proof.
  unfold len, split_lines. pose proof (split_on_nonempty newline text).
  destruct (split_on newline text); [done | simpl; lia].
Qed.

(** [_chunk_by_lines] returns at least one chunk. *)
Lemma chunk_by_lines_nonempty text md size ps :
  _chunk_by_lines text md size ps <> [].
Proof.
  destruct (chunk_by_lines_tiles text md size ps) as (rs & Hrs & Ht).
  pose proof (split_lines_length text) as HN.
  intros Hnil. rewrite Hnil in Hrs. destruct rs; [| discriminate].
  inversion Ht. lia.
Qed.

End LineChunks.

(** ** Line-based fallback *)

(** C2: for every input text (so for every non-empty one) the line-based
    fallback [_chunk_by_lines] returns at least one chunk; every chunk
    records a [start_line] and an [end_line], counted from 1; and the
    recorded ranges, in order, partition the line numbers [1..N] of the
    input: the first starts at line 1, each next one starts right after
    the previous one ends, the last ends at line [N], so every line
    number of [1..N] lies in exactly one range and no other number lies in
    any. *)
Theorem chunk_by_lines_partitions_lines :
  forall (content : string) (metadata : dict) (chunk_size : option Z)
         (preserve_structure : bool),
    let chunks :=
      ChunkingService._chunk_by_lines content metadata chunk_size preserve_structure in
    let N := len (split_lines content) in
    chunks <> []
    /\ exists ranges,
         map chunk_range chunks = map Some ranges
         /\ tiles 1 N ranges
         /\ Forall (fun r => 1 <= r.1 /\ r.1 <= r.2 /\ r.2 <= N) ranges
         /\ forall k, length (List.filter (covers k) ranges)
                      = if (1 <=? k) && (k <=? N) then 1%nat else 0%nat.
Proof.
  intros content md size ps chunks N.
  destruct (chunk_by_lines_tiles content md size ps) as (rs & Hrs & Ht).
  fold chunks in Hrs. fold N in Ht.
  split.
  - apply chunk_by_lines_nonempty.
  - exists rs. split; [exact Hrs |]. split; [exact Ht |]. split.
    + apply tiles_ranges, Ht.
    + apply tiles_count, Ht.
Qed.

(** ** Markdown sections *)

(** C5: on ["# A\ntext1\n## B\ntext2"], [_chunk_markdown] yields exactly two
    chunks; their [section_title] is ["A"] and ["B"] (markers and blanks
    stripped); the first spans lines 1 to 2 and the second lines 3 to 4. *)
Theorem chunk_markdown_example :
  forall md : dict,
    exists c1 c2,
      ChunkingService._chunk_markdown markdown_example md = Ok [c1; c2]
      /\ metadata c1 !! "section_title" = Some (VStr "A")
      /\ metadata c2 !! "section_title" = Some (VStr "B")
      /\ chunk_range c1 = Some (1, 2)
      /\ chunk_range c2 = Some (3, 4)
      /\ content c1 = ("# A" ++ nl ++ "text1")%string
      /\ content c2 = ("## B" ++ nl ++ "text2")%string.
Proof.
  intros md. eexists _, _. split; [lazy -[dict_update]; reflexivity |].
  unfold chunk_range; simpl.
  repeat split; dict_lookup.
Qed.

(** ** Regular expressions against plain string functions *)

Lemma first_some_none {A R} (f : A -> option R) (l : list A) :
  (forall x, In x l -> f x = None) -> first_some f l = None.
Proof.
  induction l as [| x l IH]; intros H; simpl; [reflexivity |].
  rewrite (H x) by (left; reflexivity). apply IH. intros y Hy. apply H. right. exact Hy.
Qed.

Lemma drop_str_run_cons p s j :
  (j < run_length p s)%nat -> exists c rest, drop_str j s = String c rest /\ p c = true.
Proof.
  revert j. induction s as [| x s IH]; intros j Hj; simpl in Hj; [lia |].
  destruct (p x) eqn:Hx; [| lia].
  destruct j as [| j]; simpl; [eauto |]. apply IH. lia.
Qed.

Lemma drop_str_run_lstrip s : drop_str (run_length isspace s) s = lstrip s.
Proof.
  induction s as [| x s IH]; simpl; [reflexivity |].
  destruct (isspace x); [exact IH | reflexivity].
Qed.

Lemma starts_blank_run s : starts_blank s = (1 <=? run_length isspace s)%nat.
Proof. destruct s as [| c s]; simpl; [reflexivity |]. destruct (isspace c); reflexivity. Qed.

Lemma rmatch_cat {R} a b pos s caps (k : nat -> string -> list string -> option R) :
  rmatch (Cat a b) pos s caps k
  = rmatch a pos s caps (fun pos' s' caps' => rmatch b pos' s' caps' k).
Proof. reflexivity. Qed.

Lemma rmatch_bol {R} s caps (k : nat -> string -> list string -> option R) :
  rmatch Bol 0 s caps k = k 0%nat s caps.
Proof. reflexivity. Qed.

(** A greedy run of blanks, when what follows cannot start with a blank:
    the run is taken whole. *)
Lemma rmatch_blanks {R} lo pos s caps (k : nat -> string -> list string -> option R) :
  (forall p c rest, isspace c = true -> k p (String c rest) caps = None) ->
  rmatch (Rep isspace lo None true) pos s caps k
  = if (lo <=? run_length isspace s)%nat
    then k (pos + run_length isspace s)%nat (lstrip s) caps
    else None.
Proof.
  intros Hk. simpl. unfold rep_counts.
  set (run := run_length isspace s).
  destruct (Nat.leb_spec lo run) as [Hle | Hgt].
  - replace (S run - lo)%nat with ((run - lo) + 1)%nat by lia.
    rewrite seq_app, rev_app_distr. simpl.
    replace (lo + (run - lo))%nat with run by lia.
    replace (drop_str run s) with (lstrip s) by (symmetry; apply drop_str_run_lstrip).
    destruct (k (pos + run)%nat (lstrip s) caps); [reflexivity |].
    apply first_some_none. intros j Hj. apply in_rev, in_seq in Hj.
    destruct (drop_str_run_cons isspace s j) as (c & rest & -> & Hc); [fold run; lia |].
    apply Hk, Hc.
  - replace (S run - lo)%nat with 0%nat by lia. reflexivity.
Qed.

(** A keyword matched without regard to case. *)
Lemma rmatch_keyword {R} kw : forall pos s caps (k : nat -> string -> list string -> option R),
  rmatch (icase (Lit kw)) pos s caps k
  = match ci_prefix kw s with
    | Some rest => k (pos + String.length kw)%nat rest caps
    | None => None
    end.
Proof.
  induction kw as [| c kw IH]; intros pos s caps k.
  - simpl. rewrite Nat.add_0_r. reflexivity.
  - destruct kw as [| c' kw].
    + simpl. destruct s as [| x s]; [reflexivity |].
      destruct (Ascii.eqb (lower_char x) (lower_char c)); [| reflexivity].
      replace (pos + 1)%nat with (S pos) by lia. reflexivity.
    + change (icase (Lit (String c (String c' kw))))
        with (Cat (Cls (fun x => Ascii.eqb (lower_char x) (lower_char c)))
                  (icase (Lit (String c' kw)))).
      change (ci_prefix (String c (String c' kw)) s)
        with (match s with
              | String x s' =>
                  if Ascii.eqb (lower_char x) (lower_char c)
                  then ci_prefix (String c' kw) s' else None
              | EmptyString => None
              end).
      destruct s as [| x s]; [reflexivity |].
      simpl rmatch at 1.
      destruct (Ascii.eqb (lower_char x) (lower_char c)); [| reflexivity].
      rewrite IH.
      replace (S pos + String.length (String c' kw))%nat
        with (pos + String.length (String c (String c' kw)))%nat by (simpl; lia).
      reflexivity.
Qed.

(** A blank is no letter, so no keyword starts with one. *)
Lemma lower_char_blank c : isspace c = true -> lower_char c = c.
Proof.
  intros H. destruct c as [[] [] [] [] [] [] [] []]; try discriminate H; reflexivity.
Qed.

Lemma ci_prefix_blank k kw c rest :
  isspace (lower_char k) = false -> isspace c = true ->
  ci_prefix (String k kw) (String c rest) = None.
Proof.
  intros Hk Hc. simpl. rewrite (lower_char_blank c Hc).
  destruct (Ascii.eqb_spec c (lower_char k)) as [-> |]; [congruence | reflexivity].
Qed.

(** [^\s*KW] with [re.IGNORECASE] *)
Lemma re_matches_keyword k kw s :
  isspace (lower_char k) = false ->
  re_matches (icase (Bol · \s* · Lit (String k kw))%re) s
  = starts_with_keyword (String k kw) s.
Proof.
  intros Hk. unfold re_matches, re_match, match_at, starts_with_keyword.
  change (icase (Bol · \s* · Lit (String k kw))%re)
    with (Cat (Cat Bol (Rep isspace 0 None true)) (icase (Lit (String k kw)))).
  rewrite !rmatch_cat, rmatch_bol, rmatch_blanks.
  - cbn [Nat.leb]. rewrite rmatch_keyword.
    destruct (ci_prefix (String k kw) (lstrip s)); reflexivity.
  - intros p c rest Hc. rewrite rmatch_keyword, ci_prefix_blank by assumption.
    reflexivity.
Qed.

(** [^\s*KW1\s+KW2] with [re.IGNORECASE] *)
Lemma re_matches_keywords k1 kw1 k2 kw2 s :
  isspace (lower_char k1) = false ->
  isspace (lower_char k2) = false ->
  re_matches (icase (Bol · \s* · Lit (String k1 kw1) · \s+ · Lit (String k2 kw2))%re) s
  = starts_with_keywords (String k1 kw1) (String k2 kw2) s.
Proof.
  intros Hk1 Hk2. unfold re_matches, re_match, match_at, starts_with_keywords.
  change (icase (Bol · \s* · Lit (String k1 kw1) · \s+ · Lit (String k2 kw2))%re)
    with (Cat (Cat (Cat (Cat Bol (Rep isspace 0 None true)) (icase (Lit (String k1 kw1))))
                   (Rep isspace 1 None true))
              (icase (Lit (String k2 kw2)))).
  rewrite !rmatch_cat, rmatch_bol.
  assert (forall (p : nat) (t : string) (caps : list string),
             rmatch (Rep isspace 1 None true) p t caps
               (fun pos' s' caps' =>
                  rmatch (icase (Lit (String k2 kw2))) pos' s' caps'
                    (fun e _ g => Some (Match e g)))
             = if starts_blank t && starts_with_keyword (String k2 kw2) t
               then Some (Match (p + run_length isspace t + String.length (String k2 kw2))
                                caps)
               else None) as Htail.
  { intros p t caps. rewrite rmatch_blanks.
    - rewrite starts_blank_run. destruct (1 <=? run_length isspace t)%nat; [| reflexivity].
      rewrite rmatch_keyword. unfold starts_with_keyword.
      destruct (ci_prefix (String k2 kw2) (lstrip t)); reflexivity.
    - intros p' c rest Hc. rewrite rmatch_keyword, ci_prefix_blank by assumption.
      reflexivity. }
  rewrite rmatch_blanks.
  - cbn [Nat.leb]. rewrite rmatch_keyword.
    destruct (ci_prefix (String k1 kw1) (lstrip s)) as [rest |]; [| reflexivity].
    rewrite Htail. destruct (starts_blank rest && _); reflexivity.
  - intros p c rest Hc. rewrite rmatch_keyword, ci_prefix_blank by assumption.
    reflexivity.
Qed.

(** The classification by regular expressions is the classification by
    leading keyword. *)
Lemma statement_type_leading_keyword s :
  ChunkingService.statement_type s = leading_keyword s.
Proof.
  unfold ChunkingService.statement_type, leading_keyword,
    ChunkingService.create_table_re, ChunkingService.create_index_re,
    ChunkingService.insert_re, ChunkingService.select_re.
  rewrite !(re_matches_keywords "C" "REATE") by reflexivity.
  rewrite !re_matches_keyword by reflexivity.
  reflexivity.
Qed.

(** ** SQL statements *)

Section Sql.

Import ChunkingService.

Lemma sql_statement_cases md i piece :
  (nonblank piece = false /\ sql_statement md (i, piece) = [])
  \/ (nonblank piece = true /\ strip piece <> ""
      /\ sql_statement md (i, piece) = [sql_chunk md i (strip piece)]).
Proof.
  unfold sql_statement, nonblank.
  destruct (bool_decide (strip piece = "")) eqn:Hb; simpl; [left | right]; auto.
  apply bool_decide_eq_false in Hb. auto.
Qed.

Lemma enumerate_loop_cons {A B} (f : nat * A -> list B) k x l :
  concat (map f (enumerate_from k (x :: l)))
  = f (k, x) ++ concat (map f (enumerate_from (S k) l)).
Proof. reflexivity. Qed.

(** Every chunk of the loop comes from a non-blank piece, and the chunk at
    position [n] from a piece at index [n] or later. *)
Lemma sql_loop_lookup md pieces : forall k n c,
  concat (map (sql_statement md) (enumerate_from k pieces)) !! n = Some c ->
  exists i piece,
    pieces !! (i - k)%nat = Some piece /\ (n + k <= i)%nat
    /\ strip piece <> "" /\ c = sql_chunk md i (strip piece).
Proof.
  induction pieces as [| x pieces IH]; intros k n c Hc; [done |].
  rewrite enumerate_loop_cons in Hc.
  destruct (sql_statement_cases md k x) as [[_ Heq] | (_ & Hne & Heq)];
    rewrite Heq in Hc; simpl in Hc.
  - destruct (IH _ _ _ Hc) as (i & piece & Hi & Hle & Hs & ->).
    exists i, piece. repeat split; auto; [| lia].
    replace (i - k)%nat with (S (i - S k)) by lia. exact Hi.
  - destruct n as [| n]; simpl in Hc.
    + injection Hc as <-. exists k, x. repeat split; auto.
      replace (k - k)%nat with 0%nat by lia. reflexivity.
    + destruct (IH _ _ _ Hc) as (i & piece & Hi & Hle & Hs & ->).
      exists i, piece. repeat split; auto; [| lia].
      replace (i - k)%nat with (S (i - S k)) by lia. exact Hi.
Qed.

Lemma sql_loop_length md pieces : forall k,
  length (concat (map (sql_statement md) (enumerate_from k pieces)))
  = length (List.filter nonblank pieces).
Proof.
  induction pieces as [| x pieces IH]; intros k; [reflexivity |].
  rewrite enumerate_loop_cons, length_app, IH. simpl List.filter.
  destruct (sql_statement_cases md k x) as [[-> ->] | (-> & _ & ->)]; reflexivity.
Qed.

(** When no piece is blank the index is the chunk's own ordinal. *)
Lemma sql_loop_all_nonblank md pieces : forall k n c,
  forallb nonblank pieces = true ->
  concat (map (sql_statement md) (enumerate_from k pieces)) !! n = Some c ->
  metadata c !! "statement_index" = Some (VInt (Z.of_nat (n + k) + 1)).
Proof.
  induction pieces as [| x pieces IH]; intros k n c Hall Hc; [done |].
  rewrite enumerate_loop_cons in Hc. simpl in Hall.
  apply andb_true_iff in Hall as [Hx Hall].
  destruct (sql_statement_cases md k x) as [[Hb _] | (_ & _ & Heq)]; [congruence |].
  rewrite Heq in Hc. destruct n as [| n]; simpl in Hc.
  - injection Hc as <-. dict_lookup.
  - replace (S n + k)%nat with (n + S k)%nat by lia. eauto.
Qed.

End Sql.

(** The chunks of the loop are, in order, the chunks of the pieces that are
    not empty once trimmed, each with the index of its piece. *)
Lemma sql_loop_pieces md pieces : forall k,
  Forall2 (fun c ip => c = ChunkingService.sql_chunk md ip.1 (strip ip.2)
                       /\ strip ip.2 <> ""%string)
    (concat (map (ChunkingService.sql_statement md) (enumerate_from k pieces)))
    (List.filter (fun ip : nat * string => nonblank ip.2) (enumerate_from k pieces)).
Proof.
  induction pieces as [| x pieces IH]; intros k; [constructor |].
  rewrite enumerate_loop_cons.
  change (enumerate_from k (x :: pieces)) with ((k, x) :: enumerate_from (S k) pieces).
  cbn [List.filter snd].
  destruct (sql_statement_cases md k x) as [[-> ->] | (-> & Hne & ->)]; simpl.
  - apply IH.
  - constructor; [split; [reflexivity | exact Hne] | apply IH].
Qed.

(** The chunk at position [n] comes from the piece at index [i], where [i]
    is [n] plus the number of pieces dropped before it. *)
Lemma sql_loop_position md pieces : forall k n c,
  concat (map (ChunkingService.sql_statement md) (enumerate_from k pieces)) !! n = Some c ->
  exists i piece,
    pieces !! i = Some piece
    /\ nonblank piece = true
    /\ strip piece <> ""%string
    /\ i = (n + dropped_before pieces i)%nat
    /\ c = ChunkingService.sql_chunk md (k + i) (strip piece).
Proof.
  induction pieces as [| x pieces IH]; intros k n c Hc; [done |].
  rewrite enumerate_loop_cons in Hc.
  destruct (sql_statement_cases md k x) as [[Hb Heq] | (Hb & Hne & Heq)];
    rewrite Heq in Hc; simpl in Hc.
  - destruct (IH _ _ _ Hc) as (i & piece & Hi & Hnb & Hs & Hpos & ->).
    exists (S i), piece. split; [exact Hi |]. split; [exact Hnb |]. split; [exact Hs |].
    split; [| f_equal; lia].
    unfold dropped_before in *. cbn [take List.filter]. rewrite Hb. simpl. lia.
  - destruct n as [| n]; simpl in Hc.
    + injection Hc as <-. exists 0%nat, x.
      split; [reflexivity |]. split; [exact Hb |]. split; [exact Hne |].
      split; [reflexivity | f_equal; lia].
    + destruct (IH _ _ _ Hc) as (i & piece & Hi & Hnb & Hs & Hpos & ->).
      exists (S i), piece. split; [exact Hi |]. split; [exact Hnb |]. split; [exact Hs |].
      split; [| f_equal; lia].
      unfold dropped_before in *. cbn [take List.filter]. rewrite Hb. simpl. lia.
Qed.

Lemma dropped_before_none pieces i :
  forallb nonblank (take i pieces) = true -> dropped_before pieces i = 0%nat.
Proof.
  unfold dropped_before. induction (take i pieces) as [| x l IH]; simpl; [reflexivity |].
  intros H. apply andb_true_iff in H as [-> H]. simpl. apply IH, H.
Qed.

(** C4, as written, fails: with an empty statement in front, the first
    chunk emitted carries [statement_index] 2. *)
Lemma sql_index_is_not_chunk_ordinal : ~ sql_index_is_chunk_ordinal.
Proof.
  intros H.
  specialize (H sql_leading_empty ∅ _ eq_refl 0%nat _ eq_refl).
  vm_compute in H. discriminate H.
Qed.

(** C4 (amended): [chunk_sql] cuts the text at every [;] that is followed,
    after optional blanks, by a newline; a piece that is empty once trimmed
    yields no chunk; the other pieces yield, in their order and one chunk
    each, the chunks of the result: the content is the trimmed piece, the
    [statement_type] its classification by leading keyword
    ([CREATE TABLE], [CREATE INDEX], [INSERT], [SELECT], in any letter
    case, else [UNKNOWN]), and the [statement_index] the 1-based position
    of the piece among all pieces, dropped ones included.  So the chunk at
    position [n] (from 0) comes from the piece at index [n] plus the number
    of pieces dropped before it: its index is at least [n + 1], and exactly
    [n + 1] when no earlier piece was dropped.  On
    ["CREATE TABLE t (id INT);\nSELECT * FROM t;"] there are exactly two
    chunks, [CREATE_TABLE] with index 1 and [SELECT] with index 2. *)
Theorem chunk_sql_statement_index :
  (forall (text : string) (md : dict),
      let pieces := re_split ChunkingService.statement_end_re text in
      exists chunks,
        ChunkingService.chunk_sql text md = Ok chunks
        /\ length chunks = length (List.filter nonblank pieces)
        /\ Forall2 sql_chunk_of_piece chunks
             (List.filter (fun ip : nat * string => nonblank ip.2) (enumerate pieces))
        /\ (forall n c,
              chunks !! n = Some c ->
              exists i piece,
                pieces !! i = Some piece /\ (n <= i)%nat
                /\ content c = strip piece /\ content c <> ""%string
                /\ metadata c !! "statement_type"
                   = Some (VStr (leading_keyword (strip piece)))
                /\ metadata c !! "statement_index" = Some (VInt (Z.of_nat i + 1))
                /\ nonblank piece = true
                /\ i = (n + dropped_before pieces i)%nat
                /\ (forallb nonblank (take i pieces) = true ->
                    metadata c !! "statement_index" = Some (VInt (Z.of_nat n + 1))))
        /\ (forallb nonblank pieces = true ->
            forall n c,
              chunks !! n = Some c ->
              metadata c !! "statement_index" = Some (VInt (Z.of_nat n + 1))))
  /\ (forall md : dict,
        exists c1 c2,
          ChunkingService.chunk_sql sql_example md = Ok [c1; c2]
          /\ metadata c1 !! "statement_type" = Some (VStr "CREATE_TABLE")
          /\ metadata c2 !! "statement_type" = Some (VStr "SELECT")
          /\ metadata c1 !! "statement_index" = Some (VInt 1)
          /\ metadata c2 !! "statement_index" = Some (VInt 2)).
Proof.
  split.
  - intros text md pieces. eexists. split; [reflexivity |].
    fold pieces. unfold enumerate. split; [apply sql_loop_length |]. split; [| split].
    + eapply Forall2_impl; [apply sql_loop_pieces |].
      intros c [i piece] [-> Hne]. unfold sql_chunk_of_piece. cbn [fst snd].
      rewrite <- statement_type_leading_keyword.
      split; [reflexivity |]. split; [exact Hne |]. split; dict_lookup.
    + intros n c Hc.
      destruct (sql_loop_position _ _ _ _ _ Hc) as (i & piece & Hi & Hnb & Hs & Hpos & ->).
      exists i, piece. rewrite <- statement_type_leading_keyword.
      split; [exact Hi |]. split; [lia |]. split; [reflexivity |]. split; [exact Hs |].
      split; [dict_lookup |]. split; [dict_lookup |]. split; [exact Hnb |].
      split; [exact Hpos |].
      intros Hall. rewrite (dropped_before_none _ _ Hall), Nat.add_0_r in Hpos.
      subst i. dict_lookup.
    + intros Hall n c Hc.
      rewrite (sql_loop_all_nonblank _ _ _ _ _ Hall Hc).
      do 3 f_equal. lia.
  - intros md. eexists _, _. split; [lazy -[dict_update]; reflexivity |].
    repeat split; dict_lookup.
Qed.

Lemma chunk_sql_statement_index_witness :
  forallb nonblank (re_split ChunkingService.statement_end_re sql_trailing_newline) = false
  /\ exists chunks,
       ChunkingService.chunk_sql sql_trailing_newline ∅ = Ok chunks
       /\ length chunks = 2%nat
       /\ forall n c,
            chunks !! n = Some c ->
            metadata c !! "statement_index" = Some (VInt (Z.of_nat n + 1)).
Proof.
  split; [vm_compute; reflexivity |].
  destruct (proj1 chunk_sql_statement_index sql_trailing_newline ∅)
    as (chunks & Hchunks & Hlen & _ & Hpos & _).
  exists chunks. split; [exact Hchunks |]. split; [rewrite Hlen; vm_compute; reflexivity |].
  intros n c Hc.
  destruct (Hpos n c Hc) as (i & piece & Hi & _ & _ & _ & _ & _ & Hnb & _ & Hsame).
  apply Hsame.
  assert (re_split ChunkingService.statement_end_re sql_trailing_newline
          = ["CREATE TABLE t (id INT)"; "SELECT * FROM t"; ""]%string) as Hpieces
    by (vm_compute; reflexivity).
  rewrite Hpieces in Hi |- *.
  destruct i as [| [| [| i]]]; [reflexivity | reflexivity | | discriminate Hi].
  injection Hi as <-. vm_compute in Hnb. discriminate Hnb.
Defined.

(** ** Trimming keeps occurrences of words *)

Lemma prefix_cons_inv c p x s :
  String.prefix (String c p) (String x s) = true -> c = x /\ String.prefix p s = true.
Proof.
  simpl. destruct (ascii_dec c x) as [-> |]; [auto | discriminate].
Qed.

Lemma contains_empty p : p <> ""%string -> contains p "" = false.
Proof. destruct p; [done | reflexivity]. Qed.

Lemma contains_unfold p x s :
  contains p (String x s)
  = if String.prefix p (String x s) then true else contains p s.
Proof. reflexivity. Qed.

Lemma contains_cons p x s : contains p s = true -> contains p (String x s) = true.
Proof.
  intros H. rewrite contains_unfold, H.
  destruct (String.prefix p (String x s)); reflexivity.
Qed.

Lemma contains_of_prefix p s : String.prefix p s = true -> contains p s = true.
Proof.
  intros H. destruct s as [| x s].
  - unfold contains. rewrite H. reflexivity.
  - rewrite contains_unfold, H. reflexivity.
Qed.

Lemma contains_cases p x s :
  contains p (String x s) = true ->
  String.prefix p (String x s) = true \/ contains p s = true.
Proof. rewrite contains_unfold. destruct (String.prefix p (String x s)); auto. Qed.

Lemma contains_lstrip p s :
  starts_nonblank p = true -> contains p s = true -> contains p (lstrip s) = true.
Proof.
  destruct p as [| c p]; [discriminate |]. simpl. intros Hc.
  induction s as [| x s IH]; intros H; [exact H |].
  simpl lstrip. destruct (isspace x) eqn:Hx; [| exact H].
  apply contains_cases in H as [H | H]; [| auto].
  apply prefix_cons_inv in H as [-> _]. rewrite Hx in Hc. discriminate.
Qed.

Lemma prefix_rstrip p : forall s,
  ends_nonblank p = true -> String.prefix p s = true -> String.prefix p (rstrip s) = true.
Proof.
  induction p as [| c p IH]; intros s Hend Hpre; [discriminate |].
  destruct s as [| x s]; [discriminate |].
  apply prefix_cons_inv in Hpre as [-> Hpre].
  destruct p as [| c' p].
  - simpl in Hend. simpl rstrip.
    destruct (rstrip s); [rewrite (negb_true_iff _) in Hend; rewrite Hend |];
      simpl; destruct (ascii_dec x x); congruence.
  - assert (ends_nonblank (String c' p) = true) as Hend' by exact Hend.
    specialize (IH s Hend' Hpre). simpl rstrip.
    destruct (rstrip s) as [| y r]; [discriminate |].
    change (String.prefix (String x (String c' p)) (String x (String y r)) = true).
    simpl. destruct (ascii_dec x x); [exact IH | congruence].
Qed.

Lemma contains_rstrip p s :
  ends_nonblank p = true -> contains p s = true -> contains p (rstrip s) = true.
Proof.
  intros Hend. assert (p <> ""%string) as Hp by (destruct p; [discriminate | done]).
  induction s as [| x s IH]; intros H; [exact H |].
  apply contains_cases in H as [H | H].
  - apply contains_of_prefix, prefix_rstrip; auto.
  - specialize (IH H). simpl rstrip.
    destruct (rstrip s) as [| y r] eqn:Hr.
    + rewrite contains_empty in IH by exact Hp. discriminate.
    + apply contains_cons. exact IH.
Qed.

(** A word that neither starts nor ends with a blank occurs in the trimmed
    text as soon as it occurs in the text. *)
Lemma contains_strip p s :
  starts_nonblank p = true -> ends_nonblank p = true ->
  contains p s = true -> contains p (strip s) = true.
Proof.
  intros Hs He H. unfold strip. apply contains_rstrip, contains_lstrip; auto.
Qed.

Lemma any_in_intro patterns p s :
  In p patterns -> contains p s = true -> any_in patterns s = true.
Proof.
  intros Hin Hc. unfold any_in. apply existsb_exists. exists p. auto.
Qed.

(** ** Query router *)

(** C7: the router tests in order: a message of at most three words in which
    a casual entry occurs is answered [false]; a message that fails this
    first test and contains a project keyword is answered [true].  ["hi"]
    gives [false] and ["how do I fix this bug in my API"] gives [true]. *)
Theorem should_use_rag_order :
  (forall message : string,
      casual_and_short message = true -> should_use_rag message = false)
  /\ (forall message : string,
        casual_and_short message = false ->
        any_in project_keywords (strip (lower message)) = true ->
        should_use_rag message = true)
  /\ should_use_rag "hi" = false
  /\ should_use_rag "how do I fix this bug in my API" = true.
Proof.
  repeat split.
  - intros message H. unfold should_use_rag. unfold casual_and_short in H.
    rewrite H. reflexivity.
  - intros message H Hk. unfold should_use_rag. unfold casual_and_short in H.
    rewrite H, Hk. reflexivity.
Qed.

Lemma should_use_rag_order_witness :
  casual_and_short "hi" = true
  /\ should_use_rag "hi" = false
  /\ casual_and_short "update the docs please now" = false
  /\ any_in project_keywords (strip (lower "update the docs please now")) = true
  /\ should_use_rag "update the docs please now" = true.
Proof.
  destruct should_use_rag_order as (Hcasual & Hkeyword & _).
  split; [reflexivity |].
  split; [apply Hcasual; reflexivity |].
  split; [reflexivity |].
  split; [reflexivity |].
  apply Hkeyword; reflexivity.
Defined.

(** C9: a message of at most three words whose lowercased text contains a
    casual entry anywhere, also inside another word, is answered [false],
    whatever project keywords it contains; so ["fix this"] is answered
    [false] (["hi"] occurs in ["this"]) although it contains the keyword
    ["fix"], and so is ["broken code"] (["ok"] occurs in ["broken"]). *)
Theorem casual_substring_overrides_keywords :
  (forall (message entry : string),
      In entry simple_patterns ->
      contains entry (lower message) = true ->
      (length (split_ws message) <= 3)%nat ->
      should_use_rag message = false)
  /\ In "hi"%string simple_patterns
  /\ contains "hi" "this" = true
  /\ any_in project_keywords (strip (lower "fix this")) = true
  /\ should_use_rag "fix this" = false
  /\ In "ok"%string simple_patterns
  /\ contains "ok" "broken" = true
  /\ any_in project_keywords (strip (lower "broken code")) = true
  /\ should_use_rag "broken code" = false.
Proof.
  split; [| repeat split; [simpl; tauto | simpl; tauto]].
  intros message entry Hin Hc Hlen. unfold should_use_rag.
  assert (any_in simple_patterns (strip (lower message)) = true) as ->.
  { apply (any_in_intro _ entry); [exact Hin |].
    apply contains_strip; [| | exact Hc];
      simpl in Hin; repeat (destruct Hin as [<- | Hin]; [reflexivity |]); destruct Hin. }
  apply Nat.leb_le in Hlen. rewrite Hlen. reflexivity.
Qed.

Lemma casual_substring_overrides_keywords_witness :
  In "hi"%string simple_patterns
  /\ contains "hi" (lower "Fix THIS") = true
  /\ (length (split_ws "Fix THIS") <= 3)%nat
  /\ should_use_rag "Fix THIS" = false.
Proof.
  assert (In "hi"%string simple_patterns) as Hin by (simpl; tauto).
  assert (contains "hi" (lower "Fix THIS") = true) as Hc by reflexivity.
  assert (length (split_ws "Fix THIS") <= 3)%nat as Hlen by (simpl; lia).
  split; [exact Hin |]. split; [exact Hc |]. split; [exact Hlen |].
  exact (proj1 casual_substring_overrides_keywords "Fix THIS" "hi" Hin Hc Hlen).
Defined.

(** ** Markdown: what precedes the first heading *)

Lemma join_cons2 sep x y l : join sep (x :: y :: l) = (x ++ sep ++ join sep (y :: l))%string.
Proof. reflexivity. Qed.

Lemma str_app_assoc (a b c : string) : ((a ++ b) ++ c = a ++ (b ++ c))%string.
Proof.
  induction a as [| x a IH]; [reflexivity |].
  change (String x ((a ++ b) ++ c) = String x (a ++ (b ++ c)))%string.
  f_equal. exact IH.
Qed.

Lemma join_app sep l1 l2 :
  l1 <> [] -> l2 <> [] ->
  join sep (l1 ++ l2) = (join sep l1 ++ sep ++ join sep l2)%string.
Proof.
  intros H1 H2. destruct l2 as [| y l2]; [done |]. clear H2.
  destruct l1 as [| x l1]; [done |]. clear H1.
  revert x. induction l1 as [| z l1 IH]; intros x.
  - reflexivity.
  - change (join sep ((x :: z :: l1) ++ y :: l2))
      with (x ++ sep ++ join sep ((z :: l1) ++ y :: l2))%string.
    rewrite IH, join_cons2, !str_app_assoc. reflexivity.
Qed.

Lemma ascending_weaken lo lo' hi hs :
  (lo' <= lo)%nat -> ascending lo hi hs -> ascending lo' hi hs.
Proof. intros Hle H. destruct H; constructor; auto; lia. Qed.

(** The indices kept by a filter over [enumerate] ascend. *)
Lemma filter_enumerate_ascending {A} (P : nat * A -> Prop) `{!forall x, Decision (P x)}
    (l : list A) : forall k,
  ascending k (k + length l) (filter P (enumerate_from k l)).*1.
Proof.
  induction l as [| x l IH]; intros k; simpl; [constructor |].
  specialize (IH (S k)). replace (k + S (length l))%nat with (S k + length l)%nat by lia.
  rewrite filter_cons. destruct (decide (P (k, x))); simpl.
  - constructor; [lia | lia | exact IH].
  - eapply ascending_weaken; [| exact IH]. lia.
Qed.

Section Markdown.

Import ChunkingService.

Lemma header_indices_ascending lines :
  ascending 0 (length lines) (header_indices lines).
Proof. apply (filter_enumerate_ascending _ lines 0). Qed.

Lemma slice_nonempty {A} (l : list A) a b :
  (a < b)%nat -> (b <= length l)%nat -> exists x rest, slice l a b = x :: rest.
Proof.
  intros Hab Hb. unfold slice.
  destruct (take (b - a) (drop a l)) as [| x rest] eqn:E; [| eauto].
  apply (f_equal length) in E. rewrite length_take, length_drop in E. simpl in E. lia.
Qed.

Lemma slice_full {A} (l : list A) a : slice l a (length l) = drop a l.
Proof. unfold slice. apply take_ge. rewrite length_drop. lia. Qed.

Lemma slice_drop {A} (l : list A) a b :
  (a <= b)%nat -> drop a l = slice l a b ++ drop b l.
Proof.
  intros Hab. unfold slice.
  rewrite <- (take_drop (b - a) (drop a l)) at 1. f_equal.
  rewrite drop_drop. f_equal. lia.
Qed.

(** The section loop from position [k] of the heading list on: it never
    fails, its ranges tile the lines from the heading at [k] to the end,
    every chunk holds the lines of its range, and the contents joined
    give back the text from that heading on. *)
Lemma markdown_sections_loop lines md hs : forall todo k lo,
  drop k hs = todo ->
  ascending lo (length lines) todo ->
  exists chunks rs,
    mapM (markdown_section lines hs md) (enumerate_from k todo) = Ok chunks
    /\ map chunk_range chunks = map Some rs
    /\ Forall2 (fun c r => content c = join nl (lines_of_range lines r)) chunks rs
    /\ match todo with
       | [] => chunks = []
       | h :: _ =>
           tiles (Z.of_nat h + 1) (len lines) rs
           /\ chunks <> []
           /\ join nl (map content chunks) = join nl (drop h lines)
       end.
Proof.
  induction todo as [| h todo IH]; intros k lo Hdrop Hasc.
  - exists [], []. simpl. repeat split; constructor.
  - inversion Hasc as [| ? ? ? ? Hlo Hhi Hasc']; subst.
    assert (drop (S k) hs = todo) as Hdrop'.
    { replace (S k) with (k + 1)%nat by lia. rewrite <- drop_drop, Hdrop. reflexivity. }
    destruct (IH (S k) (S h) Hdrop' Hasc') as (chunks & rs & Hloop & Hrs & Hcont & Htail).
    assert (hs !! S k = head todo) as Hnext.
    { rewrite <- Hdrop'. rewrite <- (Nat.add_0_r (S k)) at 1.
      rewrite <- lookup_drop. destruct (drop (S k) hs); reflexivity. }
    set (e := match todo with h' :: _ => h' | [] => length lines end).
    assert (h < e /\ e <= length lines)%nat as [Hhe Hel].
    { unfold e. inversion Hasc'; subst; lia. }
    destruct (slice_nonempty lines h e Hhe Hel) as (x & rest & Hslice).
    set (c := Chunk (join nl (slice lines h e))
                (dict_update md
                   [("start_line", VInt (Z.of_nat h + 1));
                    ("end_line", VInt (Z.of_nat e));
                    ("section_title", VStr (re_sub_empty header_marker_re x));
                    ("chunk_type", VStr "markdown_section")])).
    assert (markdown_section lines hs md (k, h) = Ok c) as Hsec.
    { unfold markdown_section. rewrite Hnext.
      replace (match head todo with Some e0 => e0 | None => length lines end) with e
        by (unfold e; destruct todo; reflexivity).
      rewrite Hslice. simpl. unfold c. rewrite Hslice. reflexivity. }
    exists (c :: chunks), ((Z.of_nat h + 1, Z.of_nat e) :: rs).
    split; [| split; [| split]].
    + change (enumerate_from k (h :: todo)) with ((k, h) :: enumerate_from (S k) todo).
      change (mapM ?f (?a :: ?l)) with (y ← f a; r ← mapM f l; mret (y :: r)).
      rewrite Hsec, Hloop. reflexivity.
    + simpl. rewrite Hrs. f_equal. unfold chunk_range, c. simpl.
      rewrite !lookup_insert_ne by done. rewrite lookup_insert_eq.
      rewrite !lookup_insert_ne by done. rewrite lookup_insert_eq. reflexivity.
    + constructor; [| exact Hcont]. unfold lines_of_range. simpl.
      replace (Z.to_nat (Z.of_nat h + 1 - 1)) with h by lia.
      rewrite Nat2Z.id. reflexivity.
    + split; [| split; [discriminate |]].
      * destruct todo as [| h' todo].
        -- subst chunks. destruct rs; [| discriminate].
           apply tiles_cons; [unfold e; lia |]. apply tiles_empty. unfold e, len. lia.
        -- destruct Htail as (Ht & _ & _).
           apply tiles_cons; [unfold e in *; lia | exact Ht].
      * destruct todo as [| h' todo].
        -- subst chunks. simpl. unfold e. rewrite slice_full. reflexivity.
        -- destruct Htail as (_ & Hne & Hjoin).
           destruct chunks as [| c' chunks]; [done |].
           simpl map. rewrite join_cons2. simpl map in Hjoin. rewrite Hjoin.
           rewrite (slice_drop lines h h') by (unfold e in Hhe; lia).
           fold e. rewrite Hslice.
           symmetry. apply join_app; [discriminate |].
           intros E. apply (f_equal length) in E. rewrite length_drop in E.
           simpl in E. inversion Hasc'; subst. unfold e in E. lia.
Qed.

End Markdown.

(** C10: when the text has a heading line, with the first one at index [h0]
    (line [h0 + 1]), [_chunk_markdown] returns chunks whose recorded ranges
    tile the lines [h0 + 1 .. N] only; each chunk's content is exactly the
    lines of its range, and the contents joined by newlines are the text
    from the first heading on.  So none of the lines [1 .. h0] before the
    first heading lies in a range or reaches a chunk. *)
Theorem chunk_markdown_drops_preamble :
  forall (text : string) (md : dict) (h0 : nat) (hs : list nat),
    ChunkingService.header_indices (split_lines text) = h0 :: hs ->
    let lines := split_lines text in
    exists chunks ranges,
      ChunkingService._chunk_markdown text md = Ok chunks
      /\ chunks <> []
      /\ map chunk_range chunks = map Some ranges
      /\ tiles (Z.of_nat h0 + 1) (len lines) ranges
      /\ Forall2 (fun c r => content c = join nl (lines_of_range lines r)) chunks ranges
      /\ join nl (map content chunks) = join nl (drop h0 lines)
      /\ forall k, 1 <= k <= Z.of_nat h0 -> List.filter (covers k) ranges = [].
Proof.
  intros text md h0 hs Hh lines.
  pose proof (header_indices_ascending lines) as Hasc.
  fold lines in Hh. rewrite Hh in Hasc.
  destruct (markdown_sections_loop lines md (h0 :: hs) (h0 :: hs) 0 0
              eq_refl Hasc) as (chunks & rs & Hloop & Hrs & Hcont & Ht & Hne & Hjoin).
  exists chunks, rs. unfold ChunkingService._chunk_markdown. fold lines. rewrite Hh.
  simpl bool_decide. cbv iota. unfold enumerate.
  repeat split; auto.
  intros k Hk. pose proof (tiles_count _ _ _ Ht k) as Hcount.
  destruct (Z.leb_spec (Z.of_nat h0 + 1) k); [lia |]. simpl in Hcount.
  destruct (List.filter (covers k) rs); [reflexivity | discriminate].
Qed.

Lemma chunk_markdown_drops_preamble_witness :
  ChunkingService.header_indices (split_lines markdown_with_preamble) = [1%nat]
  /\ exists chunks ranges,
       ChunkingService._chunk_markdown markdown_with_preamble ∅ = Ok chunks
       /\ chunks <> []
       /\ map chunk_range chunks = map Some ranges
       /\ tiles 2 3 ranges
       /\ Forall2 (fun c r => content c
                              = join nl (lines_of_range (split_lines markdown_with_preamble) r))
                  chunks ranges
       /\ join nl (map content chunks)
          = join nl (drop 1 (split_lines markdown_with_preamble))
       /\ forall k, 1 <= k <= 1 -> List.filter (covers k) ranges = [].
Proof.
  split; [reflexivity |].
  exact (chunk_markdown_drops_preamble markdown_with_preamble ∅ 1 [] eq_refl).
Defined.

(** ** The CSV path of the ingestion orchestrator *)

Lemma slice_length {A} (l : list A) a b :
  length (slice l a b) = Nat.min (b - a) (length l - a).
Proof. unfold slice. rewrite length_take, length_drop. reflexivity. Qed.

Section Csv.

Import RAGPipeline.

Lemma csv_header_chunk_type title ty filename header lines md :
  metadata (csv_header_chunk title ty filename header lines md) !! "chunk_type"
  = Some (VStr ty).
Proof. unfold csv_header_chunk. simpl. dict_lookup. Qed.

Lemma csv_header_row_count title ty filename header lines md :
  metadata (csv_header_chunk title ty filename header lines md) !! "row_count"
  = Some (VInt (len lines - 1)).
Proof. unfold csv_header_chunk. simpl. dict_lookup. Qed.

Lemma csv_sample_chunk_type intro ty header rows md :
  metadata (csv_sample_chunk intro ty header rows md) !! "chunk_type" = Some (VStr ty).
Proof. unfold csv_sample_chunk. simpl. dict_lookup. Qed.

Lemma csv_sample_size intro ty header rows md :
  metadata (csv_sample_chunk intro ty header rows md) !! "sample_size"
  = Some (VInt (len rows)).
Proof. unfold csv_sample_chunk. simpl. dict_lookup. Qed.

(** The [try] block on a header-only text. *)
Lemma csv_try_block_header_only filename lines md :
  length lines = 1%nat ->
  csv_try_block filename lines md
  = ([csv_header_chunk "CSV File: " "csv_header" filename (header_of lines) lines md],
     Ok ()).
Proof.
  intros Hn. unfold csv_try_block. rewrite Hn. reflexivity.
Qed.

(** The [try] block below the threshold. *)
Lemma csv_try_block_small filename lines md :
  (2 <= length lines <= 1000)%nat ->
  csv_try_block filename lines md
  = ([csv_header_chunk "CSV File: " "csv_header" filename (header_of lines) lines md;
      csv_sample_chunk ("Sample data from " ++ filename ++ ":") "csv_sample"
        (header_of lines) (slice lines 1 11) md],
     Ok ()).
Proof.
  intros Hn. unfold csv_try_block.
  destruct (Nat.leb_spec (length lines) 1000); [| lia].
  destruct (Nat.ltb_spec 1 (length lines)); [| lia].
  destruct (slice_nonempty lines 1 (Nat.min 11 (length lines))) as (x & rest & Hs);
    [lia | lia |].
  assert (slice lines 1 11 = x :: rest) as ->.
  { rewrite <- Hs. unfold slice. apply list_eq. intros i.
    rewrite !lookup_take. repeat case_decide; try reflexivity; try lia.
    rewrite lookup_drop. apply lookup_ge_None. lia. }
  reflexivity.
Qed.

(** The [try] block from the threshold on. *)
Lemma csv_try_block_large filename lines md shown :
  (1000 < length lines)%nat ->
  format_comma_value (dict_get md "file_size" (VInt 0)) = Ok shown ->
  exists stats,
    csv_try_block filename lines md
    = ([csv_header_chunk "Large CSV File: " "csv_header_large" filename
          (header_of lines) lines md;
        csv_sample_chunk ("Sample from " ++ filename ++ " (first 20 rows):")
          "csv_sample_large" (header_of lines) (slice lines 1 21) md;
        stats],
       Ok ())
    /\ metadata stats !! "chunk_type" = Some (VStr "csv_statistics").
Proof.
  intros Hn Hfmt. unfold csv_try_block.
  destruct (Nat.leb_spec (length lines) 1000); [lia |].
  destruct (Nat.ltb_spec 1 (length lines)); [| lia].
  destruct (slice_nonempty lines 1 21) as (x & rest & Hs); [lia | lia |].
  rewrite Hs, Hfmt. simpl bool_decide. cbv iota.
  eexists. split; [reflexivity |]. simpl. dict_lookup.
Qed.

(** Every chunk of the CSV path carries one of the CSV tags. *)
Lemma process_csv_content_types text md :
  Forall (chunk_type_in csv_chunk_types) (_process_csv_content text md).
Proof.
  assert (forall title ty filename header lines,
             In ty csv_chunk_types ->
             chunk_type_in csv_chunk_types
               (csv_header_chunk title ty filename header lines md)) as Hheader.
  { intros. exists ty. split; [assumption | apply csv_header_chunk_type]. }
  assert (forall intro ty header rows,
             In ty csv_chunk_types ->
             chunk_type_in csv_chunk_types (csv_sample_chunk intro ty header rows md))
    as Hsample.
  { intros. exists ty. split; [assumption | apply csv_sample_chunk_type]. }
  unfold _process_csv_content. destruct (str_len text >? 10000000).
  - unfold _process_large_csv_content.
    destruct (bool_decide (split_lines _ = [])); [constructor |].
    destruct (bool_decide _).
    + constructor; [chunk_tag "csv_header_very_large"%string | constructor].
    + constructor; [chunk_tag "csv_header_very_large"%string |].
      constructor; [chunk_tag "csv_sample_very_large"%string | constructor].
  - destruct (bool_decide (split_lines _ = [])); [constructor |].
    set (lines := split_lines (strip text)).
    set (filename := str_of_value _).
    unfold csv_try_block.
    destruct (length lines <=? 1000)%nat.
    + destruct (bool_decide _).
      * constructor; [apply Hheader; simpl; tauto | constructor].
      * constructor; [apply Hheader; simpl; tauto |].
        constructor; [apply Hsample; simpl; tauto | constructor].
    + assert (Forall (chunk_type_in csv_chunk_types)
                (if bool_decide
                      ((if (1 <? length lines)%nat then slice lines 1 21 else []) = [])
                 then [csv_header_chunk "Large CSV File: " "csv_header_large" filename
                         (header_of lines) lines md]
                 else [csv_header_chunk "Large CSV File: " "csv_header_large" filename
                         (header_of lines) lines md] ++
                      [csv_sample_chunk
                         ("Sample from " ++ filename ++ " (first 20 rows):")
                         "csv_sample_large" (header_of lines)
                         (if (1 <? length lines)%nat then slice lines 1 21 else []) md]))
        as Hfirst.
      { destruct (bool_decide _).
        - constructor; [apply Hheader; simpl; tauto | constructor].
        - constructor; [apply Hheader; simpl; tauto |].
          constructor; [apply Hsample; simpl; tauto | constructor]. }
      destruct (format_comma_value _); apply Forall_app; (split; [exact Hfirst |]).
      * constructor; [chunk_tag "csv_statistics"%string | constructor].
      * constructor; [chunk_tag "csv_fallback"%string | constructor].
Qed.

End Csv.

(** C3, as written, fails: a header-only text gives one chunk, not two; a
    text with exactly 1000 data rows already gives three chunks; and when
    [file_size] is a string the third chunk of a long text is the fallback
    preview, not the statistics. *)
Lemma csv_threshold_not_as_written :
  (data_row_count "id,name" = 0
   /\ length (RAGPipeline._process_csv_content "id,name" ∅) = 1%nat)
  /\ (data_row_count (csv_with_rows 1000) = 1000
      /\ length (RAGPipeline._process_csv_content (csv_with_rows 1000) ∅) = 3%nat)
  /\ (map (fun c => metadata c !! "chunk_type")
          (RAGPipeline._process_csv_content (csv_with_rows 1001)
             {[ "file_size" := VStr "2 MB" ]})
      = [Some (VStr "csv_header_large"); Some (VStr "csv_sample_large");
         Some (VStr "csv_fallback")])
  /\ ~ csv_threshold_as_written.
Proof.
  split; [split; vm_compute; reflexivity |].
  split; [split; vm_compute; reflexivity |].
  split; [vm_compute; reflexivity |].
  intros H.
  destruct (H "id,name"%string ∅) as [Hsmall _]; [vm_compute; reflexivity |].
  destruct Hsmall as (h & s & Heq & _); [vm_compute; discriminate |].
  apply (f_equal length) in Heq. vm_compute in Heq. discriminate Heq.
Qed.

(** C3 (amended): for a CSV text of at most 10,000,000 characters whose
    [file_size] metadata, if any, is a number, let [n] be the number of
    lines after the header of the trimmed text.  If [n = 0] there is one
    chunk, the header summary with [row_count] 0.  If [1 <= n <= 999] there
    are exactly two chunks: the header summary with [row_count = n] and a
    sample made of the header and the first [min n 10] data rows.  If
    [n >= 1000] there are exactly three chunks: the header summary with
    [row_count = n], a sample of the first 20 data rows, and a statistics
    chunk.  So 500 data rows give [row_count] 500 and a 10-row sample, and
    5000 data rows give three chunks. *)
Theorem process_csv_content_by_row_count :
  forall (text : string) (md : dict),
    str_len text <= 10000000 ->
    file_size_formats md ->
    let lines := split_lines (strip text) in
    let n := data_row_count text in
    let header := RAGPipeline.header_of lines in
    let filename := str_of_value (dict_get md "file_name" (VStr "unknown.csv")) in
    let chunks := RAGPipeline._process_csv_content text md in
    (n = 0 ->
     exists h,
       chunks = [h]
       /\ metadata h !! "chunk_type" = Some (VStr "csv_header")
       /\ metadata h !! "row_count" = Some (VInt 0))
    /\ (1 <= n <= 999 ->
        exists h s,
          chunks = [h; s]
          /\ metadata h !! "chunk_type" = Some (VStr "csv_header")
          /\ metadata h !! "row_count" = Some (VInt n)
          /\ metadata s !! "chunk_type" = Some (VStr "csv_sample")
          /\ metadata s !! "sample_size" = Some (VInt (Z.min n 10))
          /\ content s
             = (("Sample data from " ++ filename ++ ":") ++ nl ++ header ++ nl
                ++ join nl (slice lines 1 11))%string)
    /\ (1000 <= n ->
        exists h s t,
          chunks = [h; s; t]
          /\ metadata h !! "chunk_type" = Some (VStr "csv_header_large")
          /\ metadata h !! "row_count" = Some (VInt n)
          /\ metadata s !! "chunk_type" = Some (VStr "csv_sample_large")
          /\ metadata s !! "sample_size" = Some (VInt 20)
          /\ content s
             = (("Sample from " ++ filename ++ " (first 20 rows):") ++ nl ++ header ++ nl
                ++ join nl (slice lines 1 21))%string
          /\ metadata t !! "chunk_type" = Some (VStr "csv_statistics"))
    /\ (n = 500 ->
        exists h s,
          chunks = [h; s]
          /\ metadata h !! "row_count" = Some (VInt 500)
          /\ metadata s !! "sample_size" = Some (VInt 10))
    /\ (n = 5000 -> length chunks = 3%nat).
Proof.
  intros text md Hsize [shown Hfmt] lines n header filename chunks.
  assert (chunks
          = match RAGPipeline.csv_try_block filename lines md with
            | (cs, Ok _) => cs
            | (cs, Raise e) =>
                cs ++ [Chunk ("CSV File: " ++ filename ++ nl ++ "Content preview:" ++ nl
                              ++ str_prefix 1000 text ++ "...")%string
                         (dict_update md
                            [("chunk_type", VStr "csv_fallback");
                             ("processing_error", VStr (exn_str e))])]
            end) as Hchunks.
  { unfold chunks, RAGPipeline._process_csv_content.
    destruct (Z.gtb_spec (str_len text) 10000000) as [Hgt |_]; [lia |].
    fold lines. fold filename.
    destruct (bool_decide (lines = [])) eqn:Hb; [| reflexivity].
    apply bool_decide_eq_true in Hb. exfalso.
    exact (split_on_nonempty newline (strip text) Hb). }
  assert (n = len lines - 1) as Hn by reflexivity.
  unfold len in Hn.
  assert (1 <= n <= 999 ->
          exists h s,
            chunks = [h; s]
            /\ metadata h !! "chunk_type" = Some (VStr "csv_header")
            /\ metadata h !! "row_count" = Some (VInt n)
            /\ metadata s !! "chunk_type" = Some (VStr "csv_sample")
            /\ metadata s !! "sample_size" = Some (VInt (Z.min n 10))
            /\ content s
               = (("Sample data from " ++ filename ++ ":") ++ nl ++ header ++ nl
                  ++ join nl (slice lines 1 11))%string) as Hsmall.
  { intros Hrange.
    rewrite (csv_try_block_small filename lines md) in Hchunks by lia.
    eexists _, _. split; [exact Hchunks |].
    rewrite !csv_header_chunk_type, csv_header_row_count,
      csv_sample_chunk_type, csv_sample_size.
    split; [reflexivity |].
    split; [unfold len; do 2 f_equal; lia |].
    split; [reflexivity |].
    split; [unfold len; rewrite slice_length; do 2 f_equal; lia |].
    reflexivity. }
  assert (1000 <= n ->
          exists h s t,
            chunks = [h; s; t]
            /\ metadata h !! "chunk_type" = Some (VStr "csv_header_large")
            /\ metadata h !! "row_count" = Some (VInt n)
            /\ metadata s !! "chunk_type" = Some (VStr "csv_sample_large")
            /\ metadata s !! "sample_size" = Some (VInt 20)
            /\ content s
               = (("Sample from " ++ filename ++ " (first 20 rows):") ++ nl ++ header ++ nl
                  ++ join nl (slice lines 1 21))%string
            /\ metadata t !! "chunk_type" = Some (VStr "csv_statistics")) as Hlarge.
  { intros Hrange.
    destruct (csv_try_block_large filename lines md shown) as (stats & Hblock & Hstats);
      [lia | exact Hfmt |].
    rewrite Hblock in Hchunks.
    eexists _, _, _. split; [exact Hchunks |].
    rewrite !csv_header_chunk_type, csv_header_row_count,
      csv_sample_chunk_type, csv_sample_size.
    split; [reflexivity |].
    split; [unfold len; do 2 f_equal; lia |].
    split; [reflexivity |].
    split; [unfold len; rewrite slice_length; do 2 f_equal; lia |].
    split; [reflexivity | exact Hstats]. }
  split; [| split; [exact Hsmall | split; [exact Hlarge | split]]].
  - intros Hzero.
    rewrite (csv_try_block_header_only filename lines md) in Hchunks by lia.
    eexists. split; [exact Hchunks |].
    rewrite csv_header_chunk_type, csv_header_row_count.
    split; [reflexivity |]. unfold len. do 2 f_equal. lia.
  - intros H500. destruct Hsmall as (h & s & Heq & _ & Hrows & _ & Hsample & _); [lia |].
    exists h, s. rewrite Hrows, Hsample, H500. auto.
  - intros H5000. destruct Hlarge as (h & s & t & -> & _); [lia |]. reflexivity.
Qed.

Lemma process_csv_content_by_row_count_witness :
  str_len (csv_with_rows 500) <= 10000000
  /\ file_size_formats {[ "file_size" := VInt 4007 ]}
  /\ data_row_count (csv_with_rows 500) = 500
  /\ exists h s,
       RAGPipeline._process_csv_content (csv_with_rows 500) {[ "file_size" := VInt 4007 ]}
       = [h; s]
       /\ metadata h !! "row_count" = Some (VInt 500)
       /\ metadata s !! "sample_size" = Some (VInt 10).
Proof.
  assert (str_len (csv_with_rows 500) <= 10000000) as Hsize by (vm_compute; discriminate).
  assert (file_size_formats {[ "file_size" := VInt 4007 ]}) as Hfmt
    by (eexists; vm_compute; reflexivity).
  assert (data_row_count (csv_with_rows 500) = 500) as Hrows by (vm_compute; reflexivity).
  split; [exact Hsize |]. split; [exact Hfmt |]. split; [exact Hrows |].
  exact (proj1 (proj2 (proj2 (proj2
           (process_csv_content_by_row_count (csv_with_rows 500)
              {[ "file_size" := VInt 4007 ]} Hsize Hfmt)))) Hrows).
Defined.

(** ** The dispatcher of the chunking engine *)

Section LineBased.

Import ChunkingService.

(** Every chunk that [_chunk_by_lines] cuts is a [line_based] chunk. *)
Lemma line_chunk_type md cur s e :
  metadata (line_chunk md cur s e) !! "chunk_type" = Some (VStr "line_based").
Proof. unfold line_chunk. simpl. dict_lookup. Qed.

Lemma lines_loop_line_based md size l : forall st,
  Forall line_based (ls_chunks st) ->
  Forall line_based (ls_chunks (foldl (lines_step md size) st l)).
Proof.
  induction l as [| [i line] l IH]; intros st Hst; simpl; [exact Hst |].
  apply IH. unfold lines_step.
  destruct ((ls_current_size st + len (split_ws line) >? size)
            && negb (bool_decide (ls_current_chunk st = []))); simpl; [| exact Hst].
  apply Forall_app. split; [exact Hst |].
  constructor; [apply line_chunk_type | constructor].
Qed.

Lemma chunk_by_lines_line_based text md size ps :
  Forall line_based (_chunk_by_lines text md size ps).
Proof.
  unfold _chunk_by_lines.
  match goal with
  | |- context [foldl ?f ?st ?l] =>
      pose proof (lines_loop_line_based md
                    (match size with Some n => n | None => max_chunk_size end)
                    l st ltac:(constructor)) as H
  end.
  destruct (bool_decide _); [exact H |].
  apply Forall_app. split; [exact H |].
  constructor; [apply line_chunk_type | constructor].
Qed.

(** [chunk_generic] returns, and returns at least one chunk. *)
Lemma chunk_generic_returns text md :
  exists chunks, chunk_generic text md = Ok chunks /\ chunks <> [].
Proof.
  eexists. split; [reflexivity |].
  apply chunk_by_lines_nonempty.
Qed.

End LineBased.

(** ** The strategies never raise on their own *)

Lemma mapM_result_ok {A B} (f : A -> result B) (Q : B -> Prop) (l : list A) :
  Forall (fun x => exists y, f x = Ok y /\ Q y) l ->
  exists ys, mapM f l = Ok ys /\ Forall Q ys.
Proof.
  induction 1 as [| x l (y & Hy & HQ) _ (ys & Hys & HQs)].
  - exists []. split; [reflexivity | constructor].
  - exists (y :: ys). split; [| constructor; assumption].
    change (mapM f (x :: l)) with (z ← f x; r ← mapM f l; mret (z :: r)).
    rewrite Hy, Hys. reflexivity.
Qed.

Lemma for_each_result_ok {S A} (body : S -> A -> result S) (I : S -> Prop)
    (P : A -> Prop) (l : list A) :
  (forall st x, I st -> P x -> exists st', body st x = Ok st' /\ I st') ->
  Forall P l ->
  forall st, I st -> exists st', for_each body st l = Ok st' /\ I st'.
Proof.
  intros Hbody. induction 1 as [| x l Hx _ IH]; intros st Hst; simpl.
  - eauto.
  - destruct (Hbody st x Hst Hx) as (st1 & Hst1 & HI1). rewrite Hst1. simpl.
    apply IH, HI1.
Qed.

(** Between an index of an ascending list and the next one (or the end)
    there is at least one line. *)
Lemma ascending_enumerate N hs : forall todo k lo,
  drop k hs = todo ->
  ascending lo N todo ->
  Forall (fun ih => (ih.2 < default N (hs !! S ih.1) <= N)%nat) (enumerate_from k todo).
Proof.
  induction todo as [| h todo IH]; intros k lo Hdrop Hasc; simpl; [constructor |].
  inversion Hasc as [| ? ? ? ? Hlo Hhi Hasc']; subst.
  assert (drop (S k) hs = todo) as Hdrop'.
  { replace (S k) with (k + 1)%nat by lia. rewrite <- drop_drop, Hdrop. reflexivity. }
  constructor; [| exact (IH _ _ Hdrop' Hasc')].
  simpl. replace (hs !! S k) with (head todo).
  - inversion Hasc'; subst; simpl; lia.
  - rewrite <- Hdrop'. rewrite <- (Nat.add_0_r (S k)) at 2.
    rewrite <- lookup_drop. destruct (drop (S k) hs); reflexivity.
Qed.

Lemma last_slice_nonempty {A} (l : list A) :
  l <> [] -> exists x, last_slice l = [x].
Proof.
  intros Hl. unfold last_slice.
  destruct (drop (length l - 1) l) as [| x [| y rest]] eqn:E; [| eauto |];
    apply (f_equal length) in E; rewrite length_drop in E; simpl in E;
    destruct l; simpl in *; [done | lia | done | lia].
Qed.

Section Strategies.

Import ChunkingService.

Lemma line_based_engine_chunk c : line_based c -> engine_chunk c.
Proof. intros H. exists "line_based"%string. split; [simpl; tauto | exact H]. Qed.

Lemma chunk_by_lines_engine text md size ps :
  Forall engine_chunk (_chunk_by_lines text md size ps).
Proof.
  eapply Forall_impl; [apply chunk_by_lines_line_based |].
  apply line_based_engine_chunk.
Qed.

Lemma chunk_config_engine text md :
  exists chunks, chunk_config text md = Ok chunks /\ Forall engine_chunk chunks.
Proof.
  unfold chunk_config. destruct (str_len text <? 2000).
  - eexists. split; [reflexivity |]. constructor; [| constructor].
    chunk_tag "config_complete"%string.
  - eexists. split; [reflexivity | apply chunk_by_lines_engine].
Qed.

Lemma paragraph_chunk_engine md cur : engine_chunk (paragraph_chunk md cur).
Proof. unfold paragraph_chunk. chunk_tag "paragraph_group"%string. Qed.

Lemma paragraphs_step_ok md st para :
  Forall engine_chunk (ls_chunks st) ->
  exists st', paragraphs_step md st para = Ok st' /\ Forall engine_chunk (ls_chunks st').
Proof.
  intros Hst. unfold paragraphs_step.
  destruct ((ls_current_size st + len (split_ws para) >? max_chunk_size)
            && negb (bool_decide (ls_current_chunk st = []))) eqn:Hflush.
  - apply andb_true_iff in Hflush as [_ Hne]. rewrite Hne.
    apply negb_true_iff, bool_decide_eq_false in Hne.
    destruct (last_slice_nonempty _ Hne) as (x & ->).
    eexists. split; [reflexivity |]. simpl.
    apply Forall_app. split; [exact Hst |].
    constructor; [apply paragraph_chunk_engine | constructor].
  - eexists. split; [reflexivity | exact Hst].
Qed.

Lemma chunk_by_paragraphs_engine text md :
  exists chunks, _chunk_by_paragraphs text md = Ok chunks /\ Forall engine_chunk chunks.
Proof.
  unfold _chunk_by_paragraphs.
  destruct (for_each_result_ok (paragraphs_step md)
              (fun st => Forall engine_chunk (ls_chunks st)) (fun _ => True)
              (re_split blank_line_re text)
              (fun st x Hst _ => paragraphs_step_ok md st x Hst)
              ltac:(apply Forall_forall; auto)
              (LinesState [] [] 0) ltac:(constructor)) as (st & -> & Hst).
  simpl. destruct (bool_decide (ls_current_chunk st = [])).
  - eauto.
  - eexists. split; [reflexivity |].
    apply Forall_app. split; [exact Hst |].
    constructor; [apply paragraph_chunk_engine | constructor].
Qed.

Lemma markdown_section_ok lines hs md i start :
  (start < default (length lines) (hs !! S i) <= length lines)%nat ->
  exists c, markdown_section lines hs md (i, start) = Ok c /\ engine_chunk c.
Proof.
  intros Hrange. unfold markdown_section.
  change (match hs !! S i with Some e => e | None => length lines end)
    with (default (length lines) (hs !! S i)).
  destruct (slice_nonempty lines start _ (proj1 Hrange) (proj2 Hrange))
    as (x & rest & ->).
  eexists. split; [reflexivity |]. chunk_tag "markdown_section"%string.
Qed.

Lemma chunk_markdown_engine text md :
  exists chunks, _chunk_markdown text md = Ok chunks /\ Forall engine_chunk chunks.
Proof.
  unfold _chunk_markdown. destruct (bool_decide _); [apply chunk_by_paragraphs_engine |].
  apply mapM_result_ok.
  eapply Forall_impl.
  - apply (ascending_enumerate (length (split_lines text)) _ _ 0 0 eq_refl).
    apply header_indices_ascending.
  - intros [i start] Hrange. apply markdown_section_ok, Hrange.
Qed.

Lemma chunk_document_text_engine text md :
  exists chunks, chunk_document_text text md = Ok chunks /\ Forall engine_chunk chunks.
Proof.
  unfold chunk_document_text.
  destruct (bool_decide _); [apply chunk_markdown_engine | apply chunk_by_paragraphs_engine].
Qed.

Lemma chunk_sql_engine text md :
  exists chunks, chunk_sql text md = Ok chunks /\ Forall engine_chunk chunks.
Proof.
  eexists. split; [reflexivity |].
  apply Forall_concat, Forall_map, Forall_forall. intros [i piece] _.
  destruct (sql_statement_cases md i piece) as [[_ ->] | (_ & _ & ->)]; [constructor |].
  constructor; [| constructor]. unfold sql_chunk. chunk_tag "sql_statement"%string.
Qed.

Lemma regex_section_ok lines bs language md i start :
  (start < default (length lines) (bs !! S i) <= length lines)%nat ->
  exists c, regex_section lines bs language md (i, start) = Ok c /\ engine_chunk c.
Proof.
  intros Hrange. unfold regex_section.
  change (match bs !! S i with Some e => e | None => length lines end)
    with (default (length lines) (bs !! S i)).
  destruct (slice_nonempty lines start _ (proj1 Hrange) (proj2 Hrange))
    as (x & rest & ->).
  eexists. split; [reflexivity |]. chunk_tag "regex_function"%string.
Qed.

Lemma chunk_with_regex_engine text language md :
  exists chunks,
    _chunk_with_regex text language md = Ok chunks /\ Forall engine_chunk chunks.
Proof.
  unfold _chunk_with_regex.
  destruct (patterns language) as [pats |]; [| exists []; split; [reflexivity | constructor]].
  destruct (bool_decide _); [exists []; split; [reflexivity | constructor] |].
  apply mapM_result_ok.
  eapply Forall_impl.
  - apply (ascending_enumerate (length (split_lines text)) _ _ 0 0 eq_refl).
    apply (filter_enumerate_ascending _ (split_lines text) 0).
  - intros [i start] Hrange. apply regex_section_ok, Hrange.
Qed.

Lemma ast_node_chunk_engine text lines md node :
  engine_chunk (ast_node_chunk text lines md node).
Proof. unfold ast_node_chunk. chunk_tag "ast_function"%string. Qed.

Lemma ast_node_chunk_lines text lines md node :
  exists s e,
    meta_int (ast_node_chunk text lines md node) "start_line" = Ok s
    /\ meta_int (ast_node_chunk text lines md node) "end_line" = Ok e.
Proof.
  unfold meta_int, ast_node_chunk. simpl. eexists _, _. split; dict_lookup.
Qed.

Lemma ast_chunks_of_engine text md nodes :
  exists chunks, ast_chunks_of text md nodes = Ok chunks /\ Forall engine_chunk chunks.
Proof.
  unfold ast_chunks_of.
  set (lines := split_lines text).
  set (found := List.filter _ nodes).
  assert (Forall engine_chunk (map (ast_node_chunk text lines md) found)) as Hfound.
  { apply Forall_map, Forall_forall. intros node _. apply ast_node_chunk_engine. }
  destruct (bool_decide (map _ found = [])); [eauto |].
  destruct (for_each_result_ok (global_step lines) (fun _ => True)
              (fun c => exists s e, meta_int c "start_line" = Ok s
                                    /\ meta_int c "end_line" = Ok e)
              (map (ast_node_chunk text lines md) found)) with (st := ([] : list string, 0))
    as ([global_lines current_line] & -> & _).
  - intros [gl cl] c _ (s0 & e0 & Hs & He). unfold global_step.
    rewrite Hs. simpl. rewrite He. simpl. eauto.
  - apply Forall_map, Forall_forall. intros node _. apply ast_node_chunk_lines.
  - exact I.
  - simpl. destruct (bool_decide _); [eauto |].
    destruct (bool_decide _); [eauto |].
    eexists. split; [reflexivity |].
    constructor; [chunk_tag "ast_global"%string | exact Hfound].
Qed.

End Strategies.

Section Cascade.

Import ChunkingService.

Variable tree_sitter : string -> string -> result (option (list ts_node)).

(** The syntax-tree tier absorbs every failure of the parser. *)
Lemma chunk_with_ast_returns text language md :
  exists chunks, _chunk_with_ast tree_sitter text language md = Ok chunks.
Proof.
  unfold _chunk_with_ast.
  destruct (tree_sitter language text) as [[nodes |] | e]; simpl.
  - destruct (ast_chunks_of text md nodes) as [chunks | e]; simpl; [eauto |].
    destruct e; eauto.
  - eauto.
  - destruct e; eauto.
Qed.

Lemma chunk_with_ast_parser_raises text language md e :
  tree_sitter language text = Raise e ->
  _chunk_with_ast tree_sitter text language md = Ok [].
Proof. intros H. unfold _chunk_with_ast. rewrite H. destruct e; reflexivity. Qed.

(** The cascade of [chunk_code]: a non-empty result of the syntax-tree
    tier, else a non-empty result of the pattern tier, else the line-based
    chunks; a tier that raises counts as empty. *)
Lemma chunk_code_cascade text md :
  let language := language_of (dict_get md "file_type" (VStr ".py")) in
  chunk_code tree_sitter text md
  = match _chunk_with_ast tree_sitter text language md with
    | Ok (c :: cs) => Ok (c :: cs)
    | _ =>
        match _chunk_with_regex text language md with
        | Ok (c :: cs) => Ok (c :: cs)
        | _ => chunk_generic text md
        end
    end.
Proof.
  intros language. unfold chunk_code. fold language.
  destruct (_chunk_with_ast tree_sitter text language md) as [[| c cs] | e]; simpl;
    try reflexivity;
    destruct (_chunk_with_regex text language md) as [[| c' cs'] | e']; reflexivity.
Qed.

Lemma chunk_code_returns text md :
  exists chunks, chunk_code tree_sitter text md = Ok chunks.
Proof.
  rewrite chunk_code_cascade.
  destruct (_chunk_with_ast _ _ _ _) as [[| c cs] | e]; eauto;
    destruct (_chunk_with_regex _ _ _) as [[| c' cs'] | e']; eauto;
    unfold chunk_generic; eauto.
Qed.

Lemma chunk_with_ast_engine text language md :
  exists chunks,
    _chunk_with_ast tree_sitter text language md = Ok chunks
    /\ Forall engine_chunk chunks.
Proof.
  unfold _chunk_with_ast.
  destruct (tree_sitter language text) as [[nodes |] | e]; simpl.
  - destruct (ast_chunks_of_engine text md nodes) as (chunks & -> & H). simpl. eauto.
  - exists []. split; [reflexivity | constructor].
  - exists []. split; [destruct e; reflexivity | constructor].
Qed.

Lemma chunk_code_engine text md :
  exists chunks, chunk_code tree_sitter text md = Ok chunks /\ Forall engine_chunk chunks.
Proof.
  rewrite chunk_code_cascade.
  destruct (chunk_with_ast_engine text
              (language_of (dict_get md "file_type" (VStr ".py"))) md)
    as ([| c cs] & -> & Hast); [| eauto].
  destruct (chunk_with_regex_engine text
              (language_of (dict_get md "file_type" (VStr ".py"))) md)
    as ([| c cs] & -> & Hre); [| eauto].
  eexists. split; [reflexivity | apply chunk_by_lines_engine].
Qed.

(** The dispatched strategy either returns engine chunks or is the [.csv]
    branch. *)
Lemma dispatch_cases text md :
  (exists chunks,
     dispatch tree_sitter text md = Ok chunks /\ Forall engine_chunk chunks)
  \/ (dict_get md "file_type" (VStr ".txt") = VStr ".csv"
      /\ dispatch tree_sitter text md = chunk_csv text md).
Proof.
  unfold dispatch.
  destruct (value_in _ code_types); [left; apply chunk_code_engine |].
  destruct (value_in _ config_types); [left; apply chunk_config_engine |].
  destruct (value_in _ text_types); [left; apply chunk_document_text_engine |].
  destruct (bool_decide (_ = VStr ".sql")); [left; apply chunk_sql_engine |].
  destruct (value_in _ web_types).
  { left. eexists. split; [reflexivity | apply chunk_by_lines_engine]. }
  destruct (bool_decide (_ = VStr ".csv")) eqn:Hcsv.
  { right. apply bool_decide_eq_true in Hcsv. auto. }
  left. eexists. split; [reflexivity | apply chunk_by_lines_engine].
Qed.

Lemma chunk_document_engine text md :
  exists chunks,
    chunk_document tree_sitter text md = Ok chunks /\ Forall engine_chunk chunks.
Proof.
  unfold chunk_document.
  destruct (dispatch_cases text md) as [(chunks & -> & H) | [_ ->]]; simpl; [eauto |].
  eexists. split; [reflexivity | apply chunk_by_lines_engine].
Qed.

Lemma engine_chunk_not_csv c :
  engine_chunk c -> ~ chunk_type_in csv_chunk_types c.
Proof.
  intros (ty & Hin & Hty) (ty' & Hin' & Hty').
  rewrite Hty in Hty'. injection Hty' as <-.
  simpl in Hin, Hin'.
  repeat (destruct Hin as [<- | Hin];
          [repeat (destruct Hin' as [Hin' | Hin']; [discriminate Hin' |]);
           exact Hin' |]).
  exact Hin.
Qed.

Lemma chunk_document_returns text md :
  exists chunks, chunk_document tree_sitter text md = Ok chunks.
Proof.
  unfold chunk_document.
  destruct (dispatch tree_sitter text md); simpl; [eauto |].
  unfold chunk_generic; eauto.
Qed.

Lemma chunk_document_handler text md e :
  dispatch tree_sitter text md = Raise e ->
  chunk_document tree_sitter text md = chunk_generic text md.
Proof. intros H. unfold chunk_document. rewrite H. reflexivity. Qed.

Lemma dispatch_csv text md :
  md !! "file_type" = Some (VStr ".csv") ->
  dispatch tree_sitter text md = chunk_csv text md.
Proof.
  intros H. unfold dispatch, dict_get. rewrite H. reflexivity.
Qed.

End Cascade.

(** C1, as written, fails in one clause: when the syntax-tree tier fails on
    a Python source that has a [def] line, the call does not fall back to
    generic line-based chunking; it returns the pattern tier's chunk. *)
Lemma ast_failure_does_not_give_generic :
  (exists c,
     ChunkingService.chunk_document no_tree_sitter python_example python_metadata = Ok [c]
     /\ metadata c !! "chunk_type" = Some (VStr "regex_function"))
  /\ (exists c,
        ChunkingService.chunk_generic python_example python_metadata = Ok [c]
        /\ metadata c !! "chunk_type" = Some (VStr "line_based"))
  /\ ~ ast_failure_gives_generic.
Proof.
  split; [eexists; split; vm_compute; reflexivity |].
  split; [eexists; split; vm_compute; reflexivity |].
  intros H.
  specialize (H no_tree_sitter python_example python_metadata _ eq_refl eq_refl).
  vm_compute in H. discriminate H.
Qed.

(** C1 (amended): for every text, every metadata mapping and whatever the
    external parser does, [chunk_document] returns a list of chunks and
    raises nothing.  An exception that leaves the dispatched strategy is
    caught and the result is that of generic line-based chunking; the only
    strategy that raises is the [.csv] branch, which always does.  Inside
    the code strategy a failure of the syntax-tree tier is caught and
    counts as no chunks, after which the strategy returns the pattern
    tier's chunks when there are some and the line-based chunks otherwise.
    The line-based fallback itself always returns, with at least one
    chunk. *)
Theorem chunk_document_never_raises :
  forall (tree_sitter : string -> string -> result (option (list ChunkingService.ts_node)))
         (text : string) (md : dict),
    (exists chunks, ChunkingService.chunk_document tree_sitter text md = Ok chunks)
    /\ (forall e,
          ChunkingService.dispatch tree_sitter text md = Raise e ->
          ChunkingService.chunk_document tree_sitter text md
          = ChunkingService.chunk_generic text md)
    /\ (forall e,
          ChunkingService.dispatch tree_sitter text md = Raise e ->
          dict_get md "file_type" (VStr ".txt") = VStr ".csv")
    /\ (md !! "file_type" = Some (VStr ".csv") ->
        (exists e, ChunkingService.dispatch tree_sitter text md = Raise e)
        /\ ChunkingService.chunk_document tree_sitter text md
           = ChunkingService.chunk_generic text md)
    /\ (exists chunks, ChunkingService.chunk_code tree_sitter text md = Ok chunks)
    /\ (forall language,
          exists chunks,
            ChunkingService._chunk_with_ast tree_sitter text language md = Ok chunks)
    /\ (forall language e,
          tree_sitter language text = Raise e ->
          ChunkingService._chunk_with_ast tree_sitter text language md = Ok [])
    /\ (forall language,
          exists chunks,
            ChunkingService._chunk_with_regex text language md = Ok chunks)
    /\ (let language :=
          ChunkingService.language_of (dict_get md "file_type" (VStr ".py")) in
        ChunkingService.chunk_code tree_sitter text md
        = match ChunkingService._chunk_with_ast tree_sitter text language md with
          | Ok (c :: cs) => Ok (c :: cs)
          | _ =>
              match ChunkingService._chunk_with_regex text language md with
              | Ok (c :: cs) => Ok (c :: cs)
              | _ => ChunkingService.chunk_generic text md
              end
          end)
    /\ (exists chunks,
          ChunkingService.chunk_generic text md = Ok chunks /\ chunks <> []).
Proof.
  intros tree_sitter text md.
  split; [apply chunk_document_returns |].
  split; [intros e; apply chunk_document_handler |].
  split.
  { intros e He.
    destruct (dispatch_cases tree_sitter text md) as [(chunks & Hok & _) | [Hcsv _]];
      [congruence | exact Hcsv]. }
  split.
  { intros Hcsv. pose proof (dispatch_csv tree_sitter text md Hcsv) as Hd. split.
    - eexists. rewrite Hd. reflexivity.
    - apply (chunk_document_handler _ _ _ _ Hd). }
  split; [apply chunk_code_returns |].
  split; [intros language; apply chunk_with_ast_returns |].
  split; [intros language e; apply chunk_with_ast_parser_raises |].
  split.
  { intros language.
    destruct (chunk_with_regex_engine text language md) as (chunks & H & _). eauto. }
  split; [apply chunk_code_cascade |].
  apply chunk_generic_returns.
Qed.

Lemma chunk_document_never_raises_witness :
  csv_metadata !! "file_type" = Some (VStr ".csv")
  /\ (exists e,
        ChunkingService.dispatch no_tree_sitter "id,name" csv_metadata = Raise e)
  /\ ChunkingService.chunk_document no_tree_sitter "id,name" csv_metadata
     = ChunkingService.chunk_generic "id,name" csv_metadata
  /\ no_tree_sitter "python" python_example
     = Raise (ImportError "No module named 'tree_sitter_languages'")
  /\ ChunkingService._chunk_with_ast no_tree_sitter python_example "python" python_metadata
     = Ok [].
Proof.
  assert (csv_metadata !! "file_type" = Some (VStr ".csv")) as Hcsv by reflexivity.
  pose proof (chunk_document_never_raises no_tree_sitter "id,name" csv_metadata)
    as (_ & _ & _ & Hbranch & _).
  pose proof (chunk_document_never_raises no_tree_sitter python_example python_metadata)
    as (_ & _ & _ & _ & _ & _ & Hast & _).
  split; [exact Hcsv |].
  split; [exact (proj1 (Hbranch Hcsv)) |].
  split; [exact (proj2 (Hbranch Hcsv)) |].
  split; [reflexivity |].
  exact (Hast "python"%string _ eq_refl).
Defined.

(** C8: when the metadata's [file_type] is ['.csv'], the dispatcher reaches
    the [chunk_csv] call, which raises [AttributeError] because the class
    has no such method, and [chunk_document] returns exactly what
    [chunk_generic] returns on the same input: [line_based] chunks, at
    least one.  Whatever its input, the chunking engine emits no chunk
    with one of the CSV tags; those come from [add_document], which sends a
    ['.csv'] document to [_process_csv_content], all of whose chunks carry
    a CSV tag. *)
Theorem chunk_document_csv_is_generic :
  forall (tree_sitter : string -> string -> result (option (list ChunkingService.ts_node)))
         (text : string) (md : dict),
    md !! "file_type" = Some (VStr ".csv") ->
    (exists msg,
       ChunkingService.dispatch tree_sitter text md = Raise (AttributeError msg))
    /\ ChunkingService.chunk_document tree_sitter text md
       = ChunkingService.chunk_generic text md
    /\ (exists chunks,
          ChunkingService.chunk_document tree_sitter text md = Ok chunks
          /\ chunks <> []
          /\ Forall line_based chunks)
    /\ (forall (text' : string) (md' : dict) (chunks : list chunk),
          ChunkingService.chunk_document tree_sitter text' md' = Ok chunks ->
          Forall (fun c => ~ chunk_type_in csv_chunk_types c) chunks)
    /\ RAGPipeline.add_document_chunks tree_sitter text md
       = Ok (RAGPipeline._process_csv_content text md)
    /\ Forall (chunk_type_in csv_chunk_types) (RAGPipeline._process_csv_content text md).
Proof.
  intros tree_sitter text md Hcsv.
  pose proof (dispatch_csv tree_sitter text md Hcsv) as Hd.
  assert (ChunkingService.chunk_document tree_sitter text md
          = ChunkingService.chunk_generic text md) as Heq
    by (apply (chunk_document_handler _ _ _ _ Hd)).
  split; [eexists; exact Hd |].
  split; [exact Heq |].
  split.
  { rewrite Heq. eexists. split; [reflexivity |].
    split; [apply chunk_by_lines_nonempty | apply chunk_by_lines_line_based]. }
  split.
  { intros text' md' chunks Hchunks.
    destruct (chunk_document_engine tree_sitter text' md') as (chunks' & Hok & Heng).
    rewrite Hok in Hchunks. injection Hchunks as <-.
    eapply Forall_impl; [exact Heng |]. apply engine_chunk_not_csv. }
  split; [| apply process_csv_content_types].
  unfold RAGPipeline.add_document_chunks. rewrite Hcsv.
  rewrite bool_decide_eq_true_2 by reflexivity. reflexivity.
Qed.

Lemma chunk_document_csv_is_generic_witness :
  csv_metadata !! "file_type" = Some (VStr ".csv")
  /\ ChunkingService.chunk_document no_tree_sitter (csv_with_rows 2) csv_metadata
     = ChunkingService.chunk_generic (csv_with_rows 2) csv_metadata.
Proof.
  assert (csv_metadata !! "file_type" = Some (VStr ".csv")) as Hcsv by reflexivity.
  split; [exact Hcsv |].
  exact (proj1 (proj2 (chunk_document_csv_is_generic no_tree_sitter (csv_with_rows 2)
                         csv_metadata Hcsv))).
Defined.

(** ** The hash-based embedder *)

Section Embedder.

Import EmbeddingService.

Variable sha256 : list byte -> list byte.

Lemma py_range_length n : length (py_range n) = Z.to_nat n.
Proof. unfold py_range. rewrite length_map, length_seq. reflexivity. Qed.

Lemma hash_block_length text d i :
  length (hash_block sha256 text d i) = Z.to_nat (Z.min 32 (d - i)).
Proof. unfold hash_block. rewrite length_map. apply py_range_length. Qed.

(** The blocks [k, k + 1, ..., k + m - 1] together hold what is left of
    the dimension after the first [k] blocks. *)
Lemma hash_blocks_length text d : forall m k,
  32 * (Z.of_nat m - 1) < d - 32 * Z.of_nat k <= 32 * Z.of_nat m ->
  length (concat (map (hash_block sha256 text d)
                      (map (fun j => Z.of_nat j * 32) (seq k m))))
  = Z.to_nat (d - 32 * Z.of_nat k).
Proof.
  induction m as [| m IH]; intros k Hk; simpl.
  - lia.
  - rewrite length_app, hash_block_length, IH by lia. lia.
Qed.

Lemma simple_hash_embedding_length self text d :
  0 <= d -> length (_simple_hash_embedding sha256 self text d) = Z.to_nat d.
Proof.
  intros Hd. unfold _simple_hash_embedding, list_prefix, py_range_step.
  destruct (Z.ltb_spec d 0); [lia |].
  rewrite length_take, (hash_blocks_length text d _ 0%nat).
  - lia.
  - rewrite Z2Nat.id by (apply Z.div_pos; lia).
    pose proof (Z.div_mod (d + 32 - 1) 32 ltac:(lia)).
    pose proof (Z.mod_pos_bound (d + 32 - 1) 32 ltac:(lia)). lia.
Qed.

End Embedder.

(** C6: the hash-based fallback embedder computes its vector from the text
    (and the dimension) alone: two calls on the same text give the same
    vector, whatever the state of the service object at each call, and the
    vector has exactly the requested dimension, 384 by default. *)
Theorem simple_hash_embedding_deterministic :
  forall (sha256 : list byte -> list byte)
         (self1 self2 : EmbeddingService.service) (text : string),
    EmbeddingService._simple_hash_embedding sha256 self1 text
      EmbeddingService.default_dimension
    = EmbeddingService._simple_hash_embedding sha256 self2 text
        EmbeddingService.default_dimension
    /\ length (EmbeddingService._simple_hash_embedding sha256 self1 text
                 EmbeddingService.default_dimension) = 384%nat
    /\ forall dimension : Z,
         0 <= dimension ->
         EmbeddingService._simple_hash_embedding sha256 self1 text dimension
         = EmbeddingService._simple_hash_embedding sha256 self2 text dimension
         /\ length (EmbeddingService._simple_hash_embedding sha256 self1 text dimension)
            = Z.to_nat dimension.
Proof.
  intros sha256 self1 self2 text.
  split; [reflexivity |].
  split; [apply (simple_hash_embedding_length sha256 self1 text 384); lia |].
  intros dimension Hd.
  split; [reflexivity | apply simple_hash_embedding_length, Hd].
Qed.

Lemma simple_hash_embedding_deterministic_witness :
  0 <= 40
  /\ EmbeddingService._simple_hash_embedding prefix_digest
       (EmbeddingService.Service "groq" false) "hello" 40
     = EmbeddingService._simple_hash_embedding prefix_digest
         (EmbeddingService.Service "local" true) "hello" 40
  /\ length (EmbeddingService._simple_hash_embedding prefix_digest
               (EmbeddingService.Service "groq" false) "hello" 40) = 40%nat.
Proof.
  assert (0 <= 40) as Hd by lia.
  split; [exact Hd |].
  exact (proj2 (proj2 (simple_hash_embedding_deterministic prefix_digest
                         (EmbeddingService.Service "groq" false)
                         (EmbeddingService.Service "local" true) "hello")) 40 Hd).
Defined.

(** * Further properties *)

(** ** Splitting and joining *)

Lemma join_cons_char sep c w ws :
  join sep (String c w :: ws) = String c (join sep (w :: ws)).
Proof. destruct ws; reflexivity. Qed.

(** Splitting at newlines and joining with newlines gives the text back. *)
Lemma join_split_lines text : join nl (split_lines text) = text.
Proof.
  unfold split_lines. induction text as [| c text IH]; [reflexivity |].
  simpl split_on. destruct (Ascii.eqb_spec c newline) as [-> | Hc].
  - pose proof (split_on_nonempty newline text) as Hne.
    destruct (split_on newline text) as [| w ws] eqn:E; [done |].
    rewrite join_cons2, IH. reflexivity.
  - destruct (split_on newline text) as [| w ws] eqn:E.
    + exfalso. exact (split_on_nonempty newline text E).
    + rewrite join_cons_char, IH. reflexivity.
Qed.

Lemma split_ws_aux_app_blank a b : forall cur,
  split_ws_aux (a ++ nl ++ b)%string cur = split_ws_aux a cur ++ split_ws_aux b None.
Proof.
  induction a as [| c a IH]; intros cur.
  - change (("" ++ nl ++ b)%string) with (String newline b). simpl.
    destruct cur; reflexivity.
  - change ((String c a ++ nl ++ b)%string) with (String c (a ++ nl ++ b)%string).
    simpl. destruct (isspace c), cur; rewrite IH; reflexivity.
Qed.

(** The words of lines joined by newlines are the words of the lines. *)
Lemma word_count_join lines : word_count (join nl lines) = total_words lines.
Proof.
  unfold word_count, len.
  induction lines as [| x [| y lines] IH].
  - reflexivity.
  - unfold total_words, foldr, len. simpl join. lia.
  - rewrite join_cons2. unfold split_ws at 1. rewrite split_ws_aux_app_blank.
    rewrite length_app, Nat2Z.inj_add.
    change (split_ws_aux (join nl (y :: lines)) None) with (split_ws (join nl (y :: lines))).
    rewrite IH. reflexivity.
Qed.

Lemma total_words_app a b : total_words (a ++ b) = total_words a + total_words b.
Proof. induction a as [| x a IH]; simpl; [reflexivity | rewrite IH; lia]. Qed.

Lemma slice_snoc {A} (l : list A) a i x :
  (a <= i)%nat -> l !! i = Some x -> slice l a (S i) = slice l a i ++ [x].
Proof.
  intros Hai Hx. unfold slice.
  replace (S i - a)%nat with (S (i - a)) by lia.
  assert (drop a l !! (i - a)%nat = Some x) as Hd.
  { rewrite lookup_drop. replace (a + (i - a))%nat with i by lia. exact Hx. }
  rewrite (take_S_r _ _ _ Hd). reflexivity.
Qed.

Lemma slice_empty {A} (l : list A) a : slice l a a = [].
Proof. unfold slice. rewrite Nat.sub_diag. reflexivity. Qed.

Lemma slice_app {A} (l : list A) a b c :
  (a <= b <= c)%nat -> slice l a c = slice l a b ++ slice l b c.
Proof.
  intros Habc. unfold slice.
  replace (c - a)%nat with ((b - a) + (c - b))%nat by lia.
  rewrite <- take_take_drop, drop_drop. do 3 f_equal. lia.
Qed.

(** The ranges of a tiling cut the lines they span into consecutive
    groups: joining the groups gives the lines from [lo] to [hi]. *)
Lemma tiles_join lines lo hi rs :
  tiles lo hi rs -> 1 <= lo -> hi <= len lines -> rs <> [] ->
  join nl (map (fun r => join nl (lines_of_range lines r)) rs)
  = join nl (slice lines (Z.to_nat (lo - 1)) (Z.to_nat hi)).
Proof.
  induction 1 as [lo | lo e hi rs Hle Ht IH]; intros Hlo Hhi Hne; [done |].
  destruct rs as [| r rs].
  - inversion Ht; subst. simpl. unfold lines_of_range. simpl.
    replace (e + 1 - 1) with e by lia. reflexivity.
  - pose proof (tiles_bounds _ _ _ Ht) as Hb.
    assert (e + 1 <= hi) as He.
    { pose proof (tiles_ranges _ _ _ Ht) as Hr. inversion Hr; subst. lia. }
    specialize (IH ltac:(lia) Hhi ltac:(discriminate)).
    simpl map in *. rewrite join_cons2, IH.
    unfold lines_of_range at 1. simpl fst. simpl snd.
    replace (Z.to_nat (e + 1 - 1)) with (Z.to_nat e) by lia.
    unfold len in Hhi.
    rewrite (slice_app lines (Z.to_nat (lo - 1)) (Z.to_nat e) (Z.to_nat hi)) by lia.
    symmetry. apply join_app.
    + intros E. apply (f_equal length) in E. rewrite slice_length in E. simpl in E. lia.
    + intros E. apply (f_equal length) in E. rewrite slice_length in E. simpl in E. lia.
Qed.
(** ** Line-based chunks: content, budget, greed *)

Section LineChunksFull.

Import ChunkingService.

Lemma line_chunk_line_count md cur s e :
  metadata (line_chunk md cur s e) !! "line_count" = Some (VInt (len cur)).
Proof. unfold line_chunk. simpl. dict_lookup. Qed.

Lemma lines_inv_full_init lines size : lines_inv_full lines size 0 (LinesState [] [] 0).
Proof.
  unfold lines_inv_full; simpl.
  split; [lia |]. split; [reflexivity |]. split; [reflexivity |].
  split; [done |]. split; [lia |].
  exists []. split; [constructor | apply tiles_empty; lia].
Qed.

Lemma lines_step_inv_full lines md size i st line :
  lines !! i = Some line ->
  lines_inv_full lines size i st ->
  lines_inv_full lines size (S i) (lines_step md size st (i, line)).
Proof.
  intros Hline (Hk & Hcur & Hsize & Hbudget & Hpos & rs & Hrs & Ht).
  unfold lines_step.
  set (cur := ls_current_chunk st) in *.
  set (k := length cur) in *.
  destruct ((ls_current_size st + len (split_ws line) >? size)
            && negb (bool_decide (cur = []))) eqn:Hflush.
  - apply andb_true_iff in Hflush as [Hover Hne].
    apply negb_true_iff, bool_decide_eq_false in Hne.
    apply Z.gtb_lt in Hover.
    assert (0 < k)%nat as Hk0 by (unfold k; destruct cur; [done | simpl; lia]).
    unfold lines_inv_full; simpl.
    split; [lia |].
    split; [rewrite Nat.sub_0_r, (slice_snoc lines i i line), slice_empty by (auto; lia);
            reflexivity |].
    split; [lia |].
    split; [right; reflexivity |].
    split; [lia |].
    exists (rs ++ [(Z.of_nat i - len cur + 1, Z.of_nat i)]).
    assert (lines_of_range lines (Z.of_nat i - len cur + 1, Z.of_nat i) = cur) as Hrange.
    { unfold lines_of_range, len. simpl. fold k.
      replace (Z.to_nat (Z.of_nat i - Z.of_nat k + 1 - 1)) with (i - k)%nat by lia.
      rewrite Nat2Z.id. symmetry. exact Hcur. }
    split.
    + apply Forall2_app; [exact Hrs |]. constructor; [| constructor].
      split.
      * unfold line_chunk_ok. rewrite Hrange, chunk_range_line_chunk, line_chunk_line_count.
        split; [reflexivity |]. split; [reflexivity |].
        split; [unfold len; fold k; simpl; do 2 f_equal; lia |].
        destruct (Hbudget Hne) as [Hle | Hone]; [left; exact Hle |].
        right. unfold len. fold k. simpl. lia.
      * exists line. rewrite Hrange. simpl. rewrite Nat2Z.id.
        split; [exact Hline |]. unfold word_count. lia.
    + eapply tiles_hi; [eapply tiles_snoc_at; [exact Ht | reflexivity |] |];
        unfold len; fold k; lia.
  - unfold lines_inv_full; simpl. fold cur. rewrite length_app. simpl. fold k.
    split; [lia |].
    split; [replace (S i - (k + 1))%nat with (i - k)%nat by lia;
            rewrite (slice_snoc lines (i - k) i line) by (auto; lia);
            rewrite <- Hcur; reflexivity |].
    split; [rewrite total_words_app, Hsize;
            change (total_words [line]) with (len (split_ws line) + 0); lia |].
    split.
    { intros _. destruct cur as [| x cur'] eqn:Ecur.
      - right. reflexivity.
      - left. rewrite andb_true_r, Z.gtb_ltb in Hflush.
        rewrite total_words_app. rewrite Hsize in Hflush.
        apply Z.ltb_ge in Hflush.
        change (total_words [line]) with (len (split_ws line) + 0). lia. }
    split; [lia |].
    exists rs. split; [exact Hrs |].
    eapply tiles_hi; [exact Ht | lia].
Qed.

Lemma lines_loop_inv_full lines md size : forall rest i st,
  drop i lines = rest ->
  lines_inv_full lines size i st ->
  lines_inv_full lines size (i + length rest)
    (foldl (lines_step md size) st (enumerate_from i rest)).
Proof.
  induction rest as [| line rest IH]; intros i st Hdrop Hinv; simpl.
  - replace (i + 0)%nat with i by lia. exact Hinv.
  - replace (i + S (length rest))%nat with (S i + length rest)%nat by lia.
    assert (lines !! i = Some line) as Hline.
    { rewrite <- (Nat.add_0_r i), <- lookup_drop, Hdrop. reflexivity. }
    apply IH.
    + replace (S i) with (i + 1)%nat by lia. rewrite <- drop_drop, Hdrop. reflexivity.
    + apply lines_step_inv_full; assumption.
Qed.

(** Everything [_chunk_by_lines] guarantees about its chunks, in one
    statement over the recorded ranges. *)
Lemma chunk_by_lines_full text md size ps :
  let lines := split_lines text in
  let budget := match size with Some n => n | None => max_chunk_size end in
  exists rs closed,
    Forall2 (line_chunk_ok lines budget) (_chunk_by_lines text md size ps) rs
    /\ tiles 1 (len lines) rs
    /\ rs <> []
    /\ closed = removelast rs
    /\ Forall (closed_by_overflow lines budget) closed.
Proof.
  intros lines budget. unfold _chunk_by_lines. fold lines. fold budget.
  pose proof (lines_loop_inv_full lines md budget lines 0 _ eq_refl
                (lines_inv_full_init lines budget)) as Hinv.
  simpl in Hinv. fold (enumerate lines) in Hinv.
  destruct Hinv as (Hk & Hcur & Hsize & Hbudget & Hpos & rs & Hrs & Ht).
  pose proof (split_lines_length text) as HN. fold lines in HN. unfold len in HN.
  set (st := foldl _ _ _) in *.
  set (cur := ls_current_chunk st) in *.
  assert (cur <> []) as Hne.
  { intros E. rewrite E in Hpos. simpl in Hpos. lia. }
  rewrite bool_decide_eq_false_2 by exact Hne.
  exists (rs ++ [(len lines - len cur + 1, len lines)]), rs.
  assert (lines_of_range lines (len lines - len cur + 1, len lines) = cur) as Hrange.
  { unfold lines_of_range, len. simpl.
    replace (Z.to_nat (Z.of_nat (length lines) - Z.of_nat (length cur) + 1 - 1))
      with (length lines - length cur)%nat by lia.
    rewrite Nat2Z.id. symmetry. exact Hcur. }
  split; [| split; [| split; [| split]]].
  - apply Forall2_app.
    + eapply Forall2_impl; [exact Hrs |]. intros c r [H _]. exact H.
    + constructor; [| constructor].
      unfold line_chunk_ok. rewrite Hrange, chunk_range_line_chunk, line_chunk_line_count.
      split; [reflexivity |]. split; [reflexivity |].
      split; [unfold len; simpl; do 2 f_equal; lia |].
      destruct (Hbudget Hne) as [Hle | Hone]; [left; exact Hle |].
      right. unfold len. simpl. lia.
  - eapply tiles_snoc_at; [exact Ht | |]; unfold len; simpl in *;
      destruct cur; [done | simpl; lia | done | simpl; lia].
  - destruct rs; discriminate.
  - rewrite removelast_last. reflexivity.
  - clear -Hrs. induction Hrs as [| c r cs rs [_ H] _ IH]; constructor; assumption.
Qed.

End LineChunksFull.

(** X1: line-based chunking loses nothing: every chunk's content is exactly
    the lines of its recorded range, its [line_count] is the length of the
    range, and the contents joined by newlines are the input text. *)
Theorem chunk_by_lines_lossless :
  forall (text : string) (md : dict) (chunk_size : option Z) (preserve_structure : bool),
    let chunks :=
      ChunkingService._chunk_by_lines text md chunk_size preserve_structure in
    join nl (map content chunks) = text
    /\ Forall (fun c =>
                 exists r,
                   chunk_range c = Some r
                   /\ content c = join nl (lines_of_range (split_lines text) r)
                   /\ metadata c !! "line_count" = Some (VInt (r.2 - r.1 + 1)))
              chunks.
Proof.
  intros text md size ps chunks.
  destruct (chunk_by_lines_full text md size ps) as (rs & closed & Hrs & Ht & Hne & _).
  fold chunks in Hrs. split.
  - transitivity (join nl (split_lines text)); [| apply join_split_lines].
    transitivity (join nl (slice (split_lines text) (Z.to_nat (1 - 1))
                                 (Z.to_nat (len (split_lines text)))));
      [| unfold len; rewrite Nat2Z.id, slice_full; reflexivity].
    rewrite <- (tiles_join (split_lines text) 1 _ rs Ht) by (auto; lia).
    f_equal. clear -Hrs.
    induction Hrs as [| c r cs rs (_ & Hc & _) _ IH]; simpl; [reflexivity |].
    rewrite Hc, IH. reflexivity.
  - clear -Hrs. induction Hrs as [| c r cs rs (Hr & Hc & Hn & _) _ IH]; constructor; eauto.
Qed.

(** X2: the word budget of line-based chunking is soft in one way only: a
    chunk holds at most [chunk_size] whitespace-separated words unless it
    consists of a single line. *)
Theorem chunk_by_lines_budget :
  forall (text : string) (md : dict) (chunk_size : option Z) (preserve_structure : bool),
    let budget :=
      match chunk_size with Some n => n | None => ChunkingService.max_chunk_size end in
    Forall (fun c =>
              word_count (content c) <= budget
              \/ metadata c !! "line_count" = Some (VInt 1))
           (ChunkingService._chunk_by_lines text md chunk_size preserve_structure).
Proof.
  intros text md size ps budget.
  destruct (chunk_by_lines_full text md size ps) as (rs & closed & Hrs & _).
  fold budget in Hrs.
  induction Hrs as [| c r cs rs (Hr & Hc & Hn & Hb) _ IH]; constructor; [| exact IH].
  rewrite Hc, word_count_join, Hn.
  destruct Hb as [Hle | Heq]; [left; exact Hle |].
  right. do 2 f_equal. lia.
Qed.

(** X3: line-based chunking is greedy: a chunk other than the last one was
    closed only because the next line would have taken it over the budget:
    its words plus the words of the line that follows its [end_line]
    exceed [chunk_size]. *)
Theorem chunk_by_lines_greedy :
  forall (text : string) (md : dict) (chunk_size : option Z) (preserve_structure : bool)
         (n : nat) (c c' : chunk),
    let chunks :=
      ChunkingService._chunk_by_lines text md chunk_size preserve_structure in
    let budget :=
      match chunk_size with Some n => n | None => ChunkingService.max_chunk_size end in
    chunks !! n = Some c ->
    chunks !! S n = Some c' ->
    exists r next,
      chunk_range c = Some r
      /\ split_lines text !! Z.to_nat r.2 = Some next
      /\ word_count (content c) + word_count next > budget.
Proof.
  intros text md size ps n c c' chunks budget Hc Hc'.
  destruct (chunk_by_lines_full text md size ps)
    as (rs & closed & Hrs & _ & _ & -> & Hclosed).
  fold chunks in Hrs. fold budget in Hrs, Hclosed.
  destruct (Forall2_lookup_l _ _ _ _ _ Hrs Hc) as (r & Hr & Hok & Hcontent & _).
  assert (removelast rs !! n = Some r) as Hrl.
  { pose proof (Forall2_length _ _ _ Hrs) as Hlen.
    apply lookup_lt_Some in Hc'.
    destruct (exists_last (l := rs)) as (rs' & rlast & ->).
    { intros ->. simpl in Hlen. lia. }
    rewrite removelast_last. rewrite length_app in Hlen. simpl in Hlen.
    rewrite lookup_app_l in Hr by lia. exact Hr. }
  rewrite Forall_lookup in Hclosed.
  destruct (Hclosed n r Hrl) as (next & Hnext & Hover).
  exists r, next. rewrite Hcontent, word_count_join. auto.
Qed.

Lemma chunk_by_lines_greedy_witness :
  exists c c' r next,
    ChunkingService._chunk_by_lines ("a b" ++ nl ++ "c d e" ++ nl ++ "f")%string ∅
      (Some 3) false !! 0%nat = Some c
    /\ ChunkingService._chunk_by_lines ("a b" ++ nl ++ "c d e" ++ nl ++ "f")%string ∅
         (Some 3) false !! 1%nat = Some c'
    /\ chunk_range c = Some r
    /\ split_lines ("a b" ++ nl ++ "c d e" ++ nl ++ "f")%string !! Z.to_nat r.2 = Some next
    /\ word_count (content c) + word_count next > 3.
Proof.
  eexists _, _.
  assert (ChunkingService._chunk_by_lines ("a b" ++ nl ++ "c d e" ++ nl ++ "f")%string ∅
            (Some 3) false !! 0%nat = Some _) as H0 by (vm_compute; reflexivity).
  assert (ChunkingService._chunk_by_lines ("a b" ++ nl ++ "c d e" ++ nl ++ "f")%string ∅
            (Some 3) false !! 1%nat = Some _) as H1 by (vm_compute; reflexivity).
  destruct (chunk_by_lines_greedy _ _ _ _ _ _ _ H0 H1) as (r & next & Hr & Hn & Hw).
  exists r, next. split; [exact H0 |]. split; [exact H1 |]. auto.
Defined.

(** ** Configuration files: [chunk_config] *)

Lemma chunk_by_lines_contents text md size ps :
  join nl (map content (ChunkingService._chunk_by_lines text md size ps)) = text.
Proof.
  destruct (chunk_by_lines_full text md size ps) as (rs & closed & Hrs & Ht & Hne & _).
  transitivity (join nl (split_lines text)); [| apply join_split_lines].
  transitivity (join nl (slice (split_lines text) (Z.to_nat (1 - 1))
                               (Z.to_nat (len (split_lines text)))));
    [| unfold len; rewrite Nat2Z.id, slice_full; reflexivity].
  rewrite <- (tiles_join (split_lines text) 1 _ rs Ht) by (auto; lia).
  f_equal. clear -Hrs.
  induction Hrs as [| c r cs rs' (_ & Hc & _) _ IH]; simpl; [reflexivity |].
  rewrite Hc, IH. reflexivity.
Qed.

Lemma chunk_by_lines_ranges text md size ps :
  exists rs,
    map chunk_range (ChunkingService._chunk_by_lines text md size ps) = map Some rs
    /\ tiles 1 (len (split_lines text)) rs.
Proof.
  destruct (chunk_by_lines_full text md size ps) as (rs & closed & Hrs & Ht & _).
  exists rs. split; [| exact Ht].
  clear -Hrs. induction Hrs as [| c r cs rs' (Hr & _) _ IH]; simpl; [reflexivity |].
  rewrite Hr, IH. reflexivity.
Qed.

(** X4: [chunk_config] never raises and loses nothing on either path: a
    file of fewer than 2000 characters comes back as one chunk, a larger one
    as several, and in both cases the chunks' line ranges tile lines
    [1 .. N] of the file and their contents, joined by newlines, are the
    file. *)
Theorem chunk_config_lossless :
  forall (text : string) (md : dict),
    exists chunks rs,
      ChunkingService.chunk_config text md = Ok chunks
      /\ map chunk_range chunks = map Some rs
      /\ tiles 1 (len (split_lines text)) rs
      /\ join nl (map content chunks) = text
      /\ (str_len text < 2000 -> length chunks = 1%nat).
Proof.
  intros text md. unfold ChunkingService.chunk_config.
  destruct (str_len text <? 2000) eqn:Hsmall.
  - eexists _, [(1, len (split_lines text))].
    split; [reflexivity |].
    split; [unfold chunk_range; simpl; dict_lookup |].
    split; [| split; [reflexivity | reflexivity]].
    pose proof (split_lines_length text).
    apply tiles_cons; [lia | apply tiles_empty; lia].
  - destruct (chunk_by_lines_ranges text md (Some 800) false) as (rs & Hr & Ht).
    eexists _, rs. split; [reflexivity |].
    split; [exact Hr |]. split; [exact Ht |].
    split; [apply chunk_by_lines_contents |].
    apply Z.ltb_ge in Hsmall. lia.
Qed.

(** ** Pattern-based code sections: [_chunk_with_regex] *)

Section RegexSections.

Import ChunkingService.

Lemma slice_head {A} (l : list A) a b x rest :
  slice l a b = x :: rest -> l !! a = Some x.
Proof.
  unfold slice. intros E.
  assert (take (b - a) (drop a l) !! 0%nat = Some x) as H by (rewrite E; reflexivity).
  apply lookup_take_Some in H as [H _].
  rewrite lookup_drop, Nat.add_0_r in H. exact H.
Qed.

Lemma enumerate_from_lookup {A} (l : list A) : forall k i x,
  (i, x) ∈ enumerate_from k l -> (k <= i)%nat /\ l !! (i - k)%nat = Some x.
Proof.
  induction l as [| y l IH]; intros k i x Hin; simpl in Hin.
  - apply elem_of_nil in Hin. contradiction.
  - apply elem_of_cons in Hin as [E | Hin].
    + inversion E; subst. rewrite Nat.sub_diag. split; [lia | reflexivity].
    + destruct (IH _ _ _ Hin) as [Hle Hl]. split; [lia |].
      replace (i - k)%nat with (S (i - S k)) by lia. exact Hl.
Qed.

Lemma boundaries_of_match pats lines :
  Forall (fun h => forall x, lines !! h = Some x ->
                             existsb (fun pat => re_matches pat (strip x)) pats = true)
         (boundaries_of pats lines).
Proof.
  apply Forall_forall. intros h Hh x Hx. unfold boundaries_of in Hh.
  apply list_elem_of_fmap in Hh as ([i y] & -> & Hin).
  apply list_elem_of_filter in Hin as [Hmatch Hin].
  apply enumerate_from_lookup in Hin as [_ Hy].
  cbn [fst snd] in *. rewrite Nat.sub_0_r in Hy.
  assert (x = y) as -> by congruence. exact Hmatch.
Qed.

Lemma regex_sections_loop lines language md (Q : string -> Prop) bs : forall todo k lo,
  drop k bs = todo ->
  ascending lo (length lines) todo ->
  Forall (fun h => forall x, lines !! h = Some x -> Q x) todo ->
  exists chunks rs,
    mapM (regex_section lines bs language md) (enumerate_from k todo) = Ok chunks
    /\ Forall2 (regex_chunk_ok lines language Q) chunks rs
    /\ length chunks = length todo
    /\ match todo with
       | [] => True
       | h :: _ =>
           tiles (Z.of_nat h + 1) (len lines) rs
           /\ join nl (map content chunks) = join nl (drop h lines)
       end.
Proof.
  induction todo as [| h todo IH]; intros k lo Hdrop Hasc HQ.
  - exists [], []. simpl. repeat split; constructor.
  - inversion Hasc as [| ? ? ? ? Hlo Hhi Hasc']; subst.
    inversion HQ as [| ? ? HQh HQ']; subst.
    assert (drop (S k) bs = todo) as Hdrop'.
    { replace (S k) with (k + 1)%nat by lia. rewrite <- drop_drop, Hdrop. reflexivity. }
    destruct (IH (S k) (S h) Hdrop' Hasc' HQ') as (chunks & rs & Hloop & Hok & Hlen & Htail).
    assert (bs !! S k = head todo) as Hnext.
    { rewrite <- Hdrop'. rewrite <- (Nat.add_0_r (S k)) at 1.
      rewrite <- lookup_drop. destruct (drop (S k) bs); reflexivity. }
    set (e := match todo with h' :: _ => h' | [] => length lines end).
    assert (h < e /\ e <= length lines)%nat as [Hhe Hel].
    { unfold e. inversion Hasc'; subst; lia. }
    destruct (slice_nonempty lines h e Hhe Hel) as (x & rest & Hslice).
    pose proof (slice_head _ _ _ _ _ Hslice) as Hx.
    set (c := Chunk (join nl (slice lines h e))
                (dict_update md
                   [("start_line", VInt (Z.of_nat h + 1));
                    ("end_line", VInt (Z.of_nat e));
                    ("function_name", VStr (_extract_function_name (strip x) language));
                    ("chunk_type", VStr "regex_function")])).
    assert (regex_section lines bs language md (k, h) = Ok c) as Hsec.
    { unfold regex_section. rewrite Hnext.
      replace (match head todo with Some e0 => e0 | None => length lines end) with e
        by (unfold e; destruct todo; reflexivity).
      rewrite Hslice. simpl. unfold c. rewrite Hslice. reflexivity. }
    exists (c :: chunks), ((Z.of_nat h + 1, Z.of_nat e) :: rs).
    split; [| split; [| split]].
    + change (enumerate_from k (h :: todo)) with ((k, h) :: enumerate_from (S k) todo).
      change (mapM ?f (?a :: ?l)) with (y ← f a; r ← mapM f l; mret (y :: r)).
      rewrite Hsec, Hloop. reflexivity.
    + constructor; [| exact Hok]. exists x. simpl.
      replace (Z.to_nat (Z.of_nat h + 1 - 1)) with h by lia.
      split; [exact Hx |]. split; [exact (HQh x Hx) |].
      split; [unfold chunk_range, c; simpl; dict_lookup |].
      split; [unfold lines_of_range; simpl;
              replace (Z.to_nat (Z.of_nat h + 1 - 1)) with h by lia;
              rewrite Nat2Z.id; reflexivity |].
      unfold c. simpl. dict_lookup.
    + simpl. rewrite Hlen. reflexivity.
    + split.
      * destruct todo as [| h' todo].
        -- destruct chunks; [| discriminate]. inversion Hok; subst.
           apply tiles_cons; [unfold e; lia |]. apply tiles_empty. unfold e, len. lia.
        -- destruct Htail as (Ht & _).
           apply tiles_cons; [unfold e in *; lia | exact Ht].
      * destruct todo as [| h' todo].
        -- destruct chunks; [| discriminate]. simpl. unfold e. rewrite slice_full.
           reflexivity.
        -- destruct Htail as (_ & Hjoin).
           destruct chunks as [| c' chunks]; [discriminate |].
           simpl map. rewrite join_cons2. simpl map in Hjoin. rewrite Hjoin.
           rewrite (slice_drop lines h h') by (unfold e in Hhe; lia).
           fold e. rewrite Hslice.
           symmetry. apply join_app; [discriminate |].
           intros E. apply (f_equal length) in E. rewrite length_drop in E.
           simpl in E. inversion Hasc'; subst. unfold e in E. lia.
Qed.

End RegexSections.

(** X5: when a pattern of the language matches some line, with the first
    such line at index [b0], [_chunk_with_regex] returns one chunk per
    matching line; the chunks' ranges tile the lines [b0 + 1 .. N] only, so
    whatever precedes the first match (imports, comments) is in no chunk;
    every chunk holds exactly the lines of its range, begins with a line
    that, once stripped, matches a pattern, and takes its [function_name]
    from that line. *)
Theorem chunk_with_regex_sections :
  forall (text language : string) (md : dict) (pats : list regex) (b0 : nat) (bs : list nat),
    ChunkingService.patterns language = Some pats ->
    ChunkingService.boundaries_of pats (split_lines text) = b0 :: bs ->
    let lines := split_lines text in
    exists chunks ranges,
      ChunkingService._chunk_with_regex text language md = Ok chunks
      /\ length chunks = S (length bs)
      /\ tiles (Z.of_nat b0 + 1) (len lines) ranges
      /\ join nl (map content chunks) = join nl (drop b0 lines)
      /\ Forall2
           (fun c r =>
              exists first,
                lines !! Z.to_nat (r.1 - 1) = Some first
                /\ existsb (fun pat => re_matches pat (strip first)) pats = true
                /\ chunk_range c = Some r
                /\ content c = join nl (lines_of_range lines r)
                /\ metadata c !! "function_name"
                   = Some (VStr (ChunkingService._extract_function_name
                                   (strip first) language)))
           chunks ranges.
Proof.
  intros text language md pats b0 bs Hpats Hbs lines. fold lines in Hbs.
  pose proof (filter_enumerate_ascending
                (fun il => existsb (fun pat => re_matches pat (strip il.2)) pats = true)
                lines 0) as Hasc.
  pose proof (boundaries_of_match pats lines) as HQ.
  change ((filter _ (enumerate_from 0 lines)).*1)
    with (ChunkingService.boundaries_of pats lines) in Hasc.
  rewrite Hbs in Hasc, HQ.
  destruct (regex_sections_loop lines language md _ (b0 :: bs) (b0 :: bs) 0 0
              eq_refl Hasc HQ) as (chunks & rs & Hloop & Hok & Hlen & Ht & Hjoin).
  exists chunks, rs. unfold ChunkingService._chunk_with_regex. fold lines.
  rewrite Hpats, Hbs. simpl bool_decide. cbv iota. unfold enumerate.
  split; [exact Hloop |]. split; [exact Hlen |]. split; [exact Ht |].
  split; [exact Hjoin |]. exact Hok.
Qed.

Lemma chunk_with_regex_sections_witness :
  ChunkingService.patterns "python" = Some (default [] (ChunkingService.patterns "python"))
  /\ ChunkingService.boundaries_of (default [] (ChunkingService.patterns "python"))
       (split_lines ("import os" ++ nl ++ "def f():" ++ nl ++ "  pass")%string) = [1%nat]
  /\ exists chunks ranges,
       ChunkingService._chunk_with_regex
         ("import os" ++ nl ++ "def f():" ++ nl ++ "  pass")%string "python" ∅ = Ok chunks
       /\ length chunks = 1%nat
       /\ tiles 2 3 ranges
       /\ join nl (map content chunks) = ("def f():" ++ nl ++ "  pass")%string.
Proof.
  split; [reflexivity |]. split; [vm_compute; reflexivity |].
  destruct (chunk_with_regex_sections
              ("import os" ++ nl ++ "def f():" ++ nl ++ "  pass")%string "python" ∅
              (default [] (ChunkingService.patterns "python")) 1 []
              eq_refl ltac:(vm_compute; reflexivity))
    as (chunks & ranges & H1 & H2 & H3 & H4 & _).
  exists chunks, ranges. auto.
Defined.

(** ** Paragraph groups: [_chunk_by_paragraphs] *)

Section ParagraphGroups.

Import ChunkingService.

Lemma overlapped_snoc gs g :
  gs <> [] -> overlapped (gs ++ [g]) = overlapped gs ++ drop 1 g.
Proof.
  destruct gs as [| g0 gs]; [done |]. intros _. simpl.
  rewrite map_app, concat_app. simpl. rewrite app_nil_r, app_assoc. reflexivity.
Qed.

Lemma chained_snoc gs g :
  chained gs ->
  (forall g0, last gs = Some g0 -> exists p, last g0 = Some p /\ head g = Some p) ->
  chained (gs ++ [g]).
Proof.
  intros Hch Hlink n a b Ha Hb.
  destruct (decide (S n < length gs)%nat) as [Hlt | Hge].
  - rewrite lookup_app_l in Ha, Hb by lia. eauto.
  - assert (S n = length gs) as Hn.
    { apply lookup_lt_Some in Hb. rewrite length_app in Hb. simpl in Hb. lia. }
    rewrite lookup_app_l in Ha by lia.
    rewrite lookup_app_r, Hn, Nat.sub_diag in Hb by lia. inversion Hb; subst b.
    apply Hlink. rewrite last_lookup.
    replace (Init.Nat.pred (length gs)) with n by lia. exact Ha.
Qed.

Lemma last_slice_last {A} (l : list A) x : last_slice l = [x] -> last l = Some x.
Proof.
  unfold last_slice. intros E. rewrite last_lookup.
  assert (drop (length l - 1) l !! 0%nat = Some x) as H by (rewrite E; reflexivity).
  rewrite lookup_drop, Nat.add_0_r in H.
  replace (Init.Nat.pred (length l)) with (length l - 1)%nat by lia. exact H.
Qed.

Lemma paragraph_chunk_ok md g : g <> [] -> paragraph_group_ok (paragraph_chunk md g) g.
Proof.
  intros Hg. split; [exact Hg |]. split; [reflexivity |].
  unfold paragraph_chunk. simpl. dict_lookup.
Qed.

Lemma paragraphs_step_inv md seen st para :
  paragraphs_inv seen st ->
  exists st', paragraphs_step md st para = Ok st' /\ paragraphs_inv (seen ++ [para]) st'.
Proof.
  intros (gs & Hgs & Hseen & Hch & Hlink & Hne). unfold paragraphs_step.
  destruct ((ls_current_size st + len (split_ws para) >? max_chunk_size)
            && negb (bool_decide (ls_current_chunk st = []))) eqn:Hflush.
  - apply andb_true_iff in Hflush as [_ Hcur]. rewrite Hcur.
    apply negb_true_iff, bool_decide_eq_false in Hcur.
    destruct (last_slice_nonempty _ Hcur) as (x & Hx). rewrite Hx.
    eexists. split; [reflexivity |]. simpl.
    exists (gs ++ [ls_current_chunk st]).
    split; [apply Forall2_app; [exact Hgs |];
            constructor; [apply paragraph_chunk_ok, Hcur | constructor] |].
    split; [rewrite overlapped_snoc, Hseen by (destruct gs; discriminate); reflexivity |].
    split; [apply chained_snoc; assumption |].
    split; [| discriminate].
    intros g0 Hg0. rewrite last_snoc in Hg0. inversion Hg0; subst g0.
    exists x. split; [apply last_slice_last, Hx | reflexivity].
  - eexists. split; [reflexivity |]. simpl.
    exists gs. split; [exact Hgs |].
    split; [| split; [exact Hch | split]].
    + destruct gs as [| g0 gs'].
      * simpl in *. rewrite app_nil_r in *. rewrite Hseen. reflexivity.
      * rewrite overlapped_snoc in * by discriminate.
        destruct (last (g0 :: gs')) as [g |] eqn:E;
          [| apply last_None in E; discriminate].
        destruct (Hlink g eq_refl) as (p & _ & Hp).
        destruct (ls_current_chunk st) as [| c0 cur]; [discriminate |].
        cbn [ls_current_chunk]. rewrite <- Hseen.
        change (drop 1 ((c0 :: cur) ++ [para])) with (drop 1 (c0 :: cur) ++ [para]).
        rewrite app_assoc. reflexivity.
    + intros g0 Hg0. destruct (Hlink g0 Hg0) as (p & Hl & Hh).
      exists p. split; [exact Hl |].
      destruct (ls_current_chunk st); [discriminate | exact Hh].
    + intros _. destruct (ls_current_chunk st); discriminate.
Qed.

Lemma paragraphs_loop_inv md : forall paras seen st,
  paragraphs_inv seen st ->
  exists st', for_each (paragraphs_step md) st paras = Ok st'
              /\ paragraphs_inv (seen ++ paras) st'.
Proof.
  induction paras as [| para paras IH]; intros seen st Hinv; simpl.
  - rewrite app_nil_r. eauto.
  - destruct (paragraphs_step_inv md seen st para Hinv) as (st1 & -> & Hinv1). simpl.
    destruct (IH _ _ Hinv1) as (st' & Hloop & Hinv').
    exists st'. split; [exact Hloop |].
    rewrite <- app_assoc in Hinv'. exact Hinv'.
Qed.

Lemma split_from_nonempty r s : forall pos skip cur, split_from r pos s skip cur <> [].
Proof.
  induction s as [| c s IH]; intros pos skip cur; simpl; [discriminate |].
  destruct skip; [| apply IH].
  destruct (match_at r pos (String c s)) as [m |]; [| apply IH].
  destruct (pos <? m_end m)%nat; [discriminate | apply IH].
Qed.

Lemma re_split_nonempty r s : re_split r s <> [].
Proof. apply split_from_nonempty. Qed.

End ParagraphGroups.

(** X6: [_chunk_by_paragraphs] never raises and returns at least one chunk;
    each chunk is a non-empty
    group of paragraphs joined by a blank line, with the group's length as
    [paragraph_count]; each group begins with the paragraph the group
    before it ends with (the one-paragraph overlap); and once that repeated
    paragraph is taken off every group but the first, the groups are
    exactly the paragraphs of the text, in order: none is lost, none occurs
    more than twice. *)
Theorem chunk_by_paragraphs_overlap :
  forall (text : string) (md : dict),
    exists chunks groups,
      ChunkingService._chunk_by_paragraphs text md = Ok chunks
      /\ chunks <> []
      /\ Forall2 paragraph_group_ok chunks groups
      /\ chained groups
      /\ overlapped groups = re_split ChunkingService.blank_line_re text.
Proof.
  intros text md. unfold ChunkingService._chunk_by_paragraphs.
  destruct (paragraphs_loop_inv md (re_split ChunkingService.blank_line_re text) []
              (ChunkingService.LinesState [] [] 0))
    as (st & -> & gs & Hgs & Hseen & Hch & Hlink & Hne).
  { exists []. simpl. split; [constructor |]. split; [reflexivity |].
    split; [intros n g g' H; rewrite lookup_nil in H; discriminate |].
    split; [discriminate | done]. }
  simpl in Hseen, Hne |- *.
  destruct (bool_decide (ChunkingService.ls_current_chunk st = [])) eqn:Hcur.
  - apply bool_decide_eq_true in Hcur.
    exfalso.
    destruct (re_split ChunkingService.blank_line_re text) eqn:E;
      [exact (re_split_nonempty _ _ E) | apply Hne; [discriminate | exact Hcur]].
  - apply bool_decide_eq_false in Hcur.
    eexists _, (gs ++ [ChunkingService.ls_current_chunk st]).
    split; [reflexivity |].
    split; [destruct (ChunkingService.ls_chunks st); discriminate |].
    split; [apply Forall2_app; [exact Hgs |];
            constructor; [apply paragraph_chunk_ok, Hcur | constructor] |].
    split; [apply chained_snoc; assumption | exact Hseen].
Qed.

(** ** The query router: its third rule *)

Lemma prefix_trans q : forall p s,
  String.prefix q p = true -> String.prefix p s = true -> String.prefix q s = true.
Proof.
  induction q as [| c q IH]; intros p s Hqp Hps; [destruct s; reflexivity |].
  destruct p as [| x p]; [discriminate |].
  destruct s as [| y s]; [discriminate |].
  apply prefix_cons_inv in Hqp as [-> Hqp].
  apply prefix_cons_inv in Hps as [-> Hps].
  simpl. destruct (ascii_dec y y); [| done]. eapply IH; eassumption.
Qed.

Lemma contains_prefix_trans q : forall p s,
  contains q p = true -> String.prefix p s = true -> contains q s = true.
Proof.
  induction p as [| x p IH]; intros s Hqp Hps.
  - apply contains_of_prefix. eapply prefix_trans; [| exact Hps].
    unfold contains in Hqp. destruct (String.prefix q ""); [reflexivity | discriminate].
  - destruct (contains_cases _ _ _ Hqp) as [Hpre | Hin].
    + apply contains_of_prefix. eapply prefix_trans; eassumption.
    + destruct s as [| y s]; [discriminate |].
      apply prefix_cons_inv in Hps as [-> Hps].
      apply contains_cons. apply IH; assumption.
Qed.

Lemma contains_trans q p s :
  contains q p = true -> contains p s = true -> contains q s = true.
Proof.
  intros Hqp. induction s as [| x s IH]; intros Hps.
  - eapply contains_prefix_trans; [exact Hqp |].
    unfold contains in Hps. destruct (String.prefix p ""); [reflexivity | discriminate].
  - destruct (contains_cases _ _ _ Hps) as [Hpre | Hin].
    + eapply contains_prefix_trans; eassumption.
    + apply contains_cons. apply IH, Hin.
Qed.

Lemma project_phrases_covered text :
  any_in project_phrases text = true -> any_in project_keywords text = true.
Proof.
  unfold any_in at 1. intros H. apply existsb_exists in H as (p & Hin & Hp).
  assert (exists k, In k project_keywords /\ contains k p = true) as (k & Hk & Hkp).
  { unfold project_phrases in Hin. simpl in Hin.
    destruct Hin as [<- | [<- | [<- | [<- | [<- | []]]]]];
      first [ exists "project"%string; split; [simpl; tauto | reflexivity]
            | exists "code"%string; split; [simpl; tauto | reflexivity] ]. }
  eapply any_in_intro; [exact Hk |]. eapply contains_trans; eassumption.
Qed.

(** X7: the router's third rule (a project phrase such as ["my code"]) never
    decides anything: every phrase contains one of the keywords of the
    second rule, so for every message the answer is: not (casual and at
    most three words), and some project keyword occurs in the lowercased
    message. *)
Theorem should_use_rag_phrases_redundant :
  forall message : string,
    should_use_rag message
    = negb (casual_and_short message)
      && any_in project_keywords (strip (lower message)).
Proof.
  intros message. unfold should_use_rag, casual_and_short.
  destruct (any_in simple_patterns (strip (lower message))
            && (length (split_ws message) <=? 3)%nat); [reflexivity |].
  simpl negb. rewrite andb_true_l.
  destruct (any_in project_keywords (strip (lower message))) eqn:Hk; [reflexivity |].
  destruct (any_in project_phrases (strip (lower message))) eqn:Hp; [| reflexivity].
  apply project_phrases_covered in Hp. congruence.
Qed.

(** ** The embedder: components, fallbacks, dimension *)

Section EmbedderComponents.

Import EmbeddingService.

Variable sha256 : list byte -> list byte.

Lemma py_range_lookup n (j : nat) : (j < Z.to_nat n)%nat -> py_range n !! j = Some (Z.of_nat j).
Proof.
  intros Hj. unfold py_range. rewrite list_lookup_fmap, lookup_seq_lt by exact Hj.
  reflexivity.
Qed.

Lemma hash_block_lookup text d i (j : nat) :
  (j < Z.to_nat (Z.min 32 (d - i)))%nat ->
  hash_block sha256 text d i !! j
  = Some (hash_component (sha256 (encode (text ++ "_" ++ str_of_int i))) (Z.of_nat j)).
Proof.
  intros Hj. unfold hash_block. rewrite list_lookup_fmap, py_range_lookup by exact Hj.
  reflexivity.
Qed.

Lemma hash_blocks_lookup text d : forall m k p,
  32 * (Z.of_nat m - 1) < d - 32 * Z.of_nat k <= 32 * Z.of_nat m ->
  Z.of_nat p < d - 32 * Z.of_nat k ->
  concat (map (hash_block sha256 text d) (map (fun j => Z.of_nat j * 32) (seq k m))) !! p
  = Some (hash_component
            (sha256 (encode (text ++ "_" ++ str_of_int (Z.of_nat (k + p / 32) * 32))))
            (Z.of_nat (p mod 32))).
Proof.
  induction m as [| m IH]; intros k p Hk Hp; cbn [seq map concat].
  - lia.
  - destruct (decide (p < 32)%nat) as [Hlt | Hge].
    + rewrite lookup_app_l by (rewrite hash_block_length; lia).
      rewrite hash_block_lookup by lia.
      rewrite Nat.div_small, Nat.mod_small, Nat.add_0_r by lia. reflexivity.
    + rewrite lookup_app_r by (rewrite hash_block_length; lia).
      rewrite hash_block_length.
      replace (Z.to_nat (Z.min 32 (d - Z.of_nat k * 32))) with 32%nat by lia.
      rewrite IH by lia.
      replace p with ((p - 32) + 1 * 32)%nat at 3 4 by lia.
      rewrite Nat.div_add, Nat.Div0.mod_add by lia.
      replace (S k + (p - 32) / 32)%nat with (k + ((p - 32) / 32 + 1))%nat by lia.
      reflexivity.
Qed.

Lemma hash_component_digest digest (j : nat) :
  length digest = 32%nat ->
  (j < 32)%nat ->
  hash_component digest (Z.of_nat j) = digest_component digest j.
Proof.
  intros Hlen Hj. unfold hash_component, digest_component, len. rewrite Hlen.
  destruct (Nat.ltb_spec j 8).
  - destruct (Z.ltb_spec (Z.of_nat j * 4 + 3) (Z.of_nat 32)); [| lia].
    do 3 f_equal; lia.
  - destruct (Z.ltb_spec (Z.of_nat j * 4 + 3) (Z.of_nat 32)); [lia | reflexivity].
Qed.

End EmbedderComponents.

(** X8: with a digest of 32 bytes (what SHA-256 gives), position [p] of the
    fallback vector is read from the digest of [text_i], where [i] is [p]
    rounded down to a multiple of 32; the first 8 positions of each block
    of 32 are the digest's bytes, four at a time, scaled into [-1, 1], and
    the other 24 positions of the block are exactly [0.0]. *)
Theorem simple_hash_embedding_components :
  forall (sha256 : list byte -> list byte) (self : EmbeddingService.service)
         (text : string) (dimension : Z) (p : nat),
    (forall data, length (sha256 data) = 32%nat) ->
    Z.of_nat p < dimension ->
    EmbeddingService._simple_hash_embedding sha256 self text dimension !! p
    = Some (digest_component (block_digest sha256 text p) (p mod 32))
    /\ ((8 <= p mod 32)%nat ->
        EmbeddingService._simple_hash_embedding sha256 self text dimension !! p
        = Some 0%float).
Proof.
  intros sha256 self text d p Hsha Hp.
  assert (EmbeddingService._simple_hash_embedding sha256 self text d !! p
          = Some (digest_component (block_digest sha256 text p) (p mod 32))) as H.
  { unfold EmbeddingService._simple_hash_embedding, EmbeddingService.list_prefix,
      EmbeddingService.py_range_step.
    destruct (Z.ltb_spec d 0); [lia |].
    rewrite lookup_take_lt by lia.
    rewrite (hash_blocks_lookup sha256 text d _ 0%nat).
    - rewrite hash_component_digest
        by (auto; apply Nat.mod_upper_bound; lia).
      unfold block_digest.
      replace (Z.of_nat (0 + p / 32) * 32) with (Z.of_nat (32 * (p / 32))) by lia.
      reflexivity.
    - rewrite Z2Nat.id by (apply Z.div_pos; lia).
      pose proof (Z.div_mod (d + 32 - 1) 32 ltac:(lia)).
      pose proof (Z.mod_pos_bound (d + 32 - 1) 32 ltac:(lia)). lia.
    - lia. }
  split; [exact H |].
  intros H8. rewrite H. unfold digest_component.
  destruct (Nat.ltb_spec (p mod 32) 8); [lia | reflexivity].
Qed.

Lemma simple_hash_embedding_components_witness :
  EmbeddingService._simple_hash_embedding prefix_digest
    (EmbeddingService.Service "groq" false) "hello" 384 !! 40%nat
  = Some 0%float.
Proof.
  refine (proj2 (simple_hash_embedding_components prefix_digest
                   (EmbeddingService.Service "groq" false) "hello" 384 40 _ _) _).
  - intros data. unfold prefix_digest. rewrite length_take, length_app, repeat_length. lia.
  - lia.
  - vm_compute. lia.
Defined.

Section EmbedText.

Import EmbeddingService EmbeddingCalls.

Variable sha256 : list byte -> list byte.
Variable available : bool.
Variable load : result unit.
Variable model_encode : string -> result (list float).
Variable model_dimension : Z.

(** [_embed_with_local] always returns a vector. *)
Lemma embed_with_local_returns self text :
  exists self' v,
    _embed_with_local sha256 available load model_encode self text = (self', Ok v)
    /\ embedding_provider self' = embedding_provider self.
Proof.
  unfold _embed_with_local.
  set (self1 := if negb (local_model_loaded self) && available
                then _init_local_model available load self else self).
  assert (embedding_provider self1 = embedding_provider self) as Hp.
  { unfold self1, _init_local_model.
    destruct (negb (local_model_loaded self) && available); [| reflexivity].
    destruct (negb available); [reflexivity |]. destruct load; reflexivity. }
  destruct (local_model_loaded self1); [destruct (model_encode text) |]; eauto.
Qed.

(** [embed_text] is [_embed_with_local], whatever the provider. *)
Lemma embed_text_local self text :
  embed_text sha256 available load model_encode self text
  = _embed_with_local sha256 available load model_encode self text.
Proof.
  unfold embed_text, _embed_with_groq.
  destruct (embed_with_local_returns self text) as (self' & v & E & _).
  rewrite E. destruct (String.eqb (embedding_provider self) "groq"); reflexivity.
Qed.

Lemma init_local_model_provider p1 p2 m :
  local_model_loaded (_init_local_model available load (Service p1 m))
  = local_model_loaded (_init_local_model available load (Service p2 m)).
Proof.
  unfold _init_local_model. destruct (negb available); [reflexivity |].
  destruct load; reflexivity.
Qed.

End EmbedText.

(** X9: [embed_text] never raises, and the configured provider decides
    nothing: with ["groq"], ["local"] or any other setting the call returns
    the same vector and leaves the model loaded or not loaded alike, for the
    ["groq"] path only delegates to the local one. *)
Theorem embed_text_provider_irrelevant :
  forall (sha256 : list byte -> list byte) (available : bool) (load : result unit)
         (model_encode : string -> result (list float))
         (provider1 provider2 : string) (loaded : bool) (text : string),
    exists self1 self2 v,
      EmbeddingCalls.embed_text sha256 available load model_encode
        (EmbeddingService.Service provider1 loaded) text = (self1, Ok v)
      /\ EmbeddingCalls.embed_text sha256 available load model_encode
           (EmbeddingService.Service provider2 loaded) text = (self2, Ok v)
      /\ EmbeddingService.local_model_loaded self1
         = EmbeddingService.local_model_loaded self2.
Proof.
  intros sha256 available load model_encode p1 p2 loaded text.
  rewrite !embed_text_local. unfold EmbeddingCalls._embed_with_local.
  cbn [EmbeddingService.local_model_loaded].
  destruct (negb loaded && available) eqn:Hinit.
  - pose proof (init_local_model_provider available load p1 p2 loaded) as Hsame.
    rewrite <- Hsame.
    destruct (EmbeddingService.local_model_loaded
                (EmbeddingCalls._init_local_model available load
                   (EmbeddingService.Service p1 loaded))) eqn:Hl;
      [destruct (model_encode text) |]; eauto 7.
  - cbn [EmbeddingService.local_model_loaded].
    destruct loaded; [destruct (model_encode text) |]; eauto 7.
Qed.

(** X10: whenever no model answers (the package is missing or the model
    fails to load while none is loaded yet, or the model's [encode]
    raises), [embed_text] returns the hash-based vector of the text, which
    has 384 components. *)
Theorem embed_text_falls_back_to_hash :
  forall (sha256 : list byte -> list byte) (available : bool) (load : result unit)
         (model_encode : string -> result (list float))
         (self : EmbeddingService.service) (text : string),
    (EmbeddingService.local_model_loaded self = false
     /\ (available = false \/ exists e, load = Raise e))
    \/ (exists e, model_encode text = Raise e) ->
    exists self' v,
      EmbeddingCalls.embed_text sha256 available load model_encode self text
      = (self', Ok v)
      /\ v = EmbeddingService._simple_hash_embedding sha256 self' text 384
      /\ length v = 384%nat.
Proof.
  intros sha256 available load model_encode self text H.
  rewrite embed_text_local. unfold EmbeddingCalls._embed_with_local.
  set (self1 := if negb (EmbeddingService.local_model_loaded self) && available
                then EmbeddingCalls._init_local_model available load self else self).
  assert (forall s, length (EmbeddingService._simple_hash_embedding sha256 s text 384)
                    = 384%nat) as Hlen
    by (intros s; apply (simple_hash_embedding_length sha256 s text 384); lia).
  destruct H as [[Hnone Hmissing] | [e He]].
  - assert (EmbeddingService.local_model_loaded self1 = false) as ->.
    { unfold self1, EmbeddingCalls._init_local_model. rewrite Hnone.
      destruct Hmissing as [-> | [e ->]]; [exact Hnone |].
      destruct available; [reflexivity | exact Hnone]. }
    eexists _, _. split; [reflexivity |]. split; [reflexivity | apply Hlen].
  - rewrite He.
    destruct (EmbeddingService.local_model_loaded self1);
      (eexists _, _; split; [reflexivity |]; split; [reflexivity | apply Hlen]).
Qed.

Lemma embed_text_falls_back_to_hash_witness :
  exists self' v,
    EmbeddingCalls.embed_text prefix_digest false (Ok tt) (fun _ => Ok [])
      (EmbeddingService.Service "local" false) "hello" = (self', Ok v)
    /\ v = EmbeddingService._simple_hash_embedding prefix_digest self' "hello" 384
    /\ length v = 384%nat.
Proof.
  apply (embed_text_falls_back_to_hash prefix_digest false (Ok tt) (fun _ => Ok [])
           (EmbeddingService.Service "local" false) "hello").
  left. split; [reflexivity | left; reflexivity].
Defined.

(** X11: the reported dimension and the vectors can disagree: with the
    provider set to ["groq"] and a local model loaded, [embed_text] returns
    the model's vector as it is, while [get_embedding_dimension] answers 384
    without asking the model; with no model available both agree on 384. *)
Theorem embedding_dimension_vs_vector :
  forall (sha256 : list byte -> list byte) (available : bool) (load : result unit)
         (model_encode : string -> result (list float)) (model_dimension : Z)
         (self : EmbeddingService.service) (text : string),
    (forall v,
        EmbeddingService.embedding_provider self = "groq"%string ->
        EmbeddingService.local_model_loaded self = true ->
        model_encode text = Ok v ->
        EmbeddingCalls.embed_text sha256 available load model_encode self text
        = (self, Ok v)
        /\ EmbeddingCalls.get_embedding_dimension available load model_dimension self
           = (self, 384))
    /\ (available = false ->
        EmbeddingService.local_model_loaded self = false ->
        exists v,
          EmbeddingCalls.embed_text sha256 available load model_encode self text
          = (self, Ok v)
          /\ EmbeddingCalls.get_embedding_dimension available load model_dimension self
             = (self, len v)).
Proof.
  intros sha256 available load model_encode model_dimension self text. split.
  - intros v Hp Hl Hv. rewrite embed_text_local.
    unfold EmbeddingCalls._embed_with_local, EmbeddingCalls.get_embedding_dimension.
    rewrite Hp, Hl, Hv. simpl. rewrite Hl. split; reflexivity.
  - intros -> Hl. rewrite embed_text_local.
    unfold EmbeddingCalls._embed_with_local, EmbeddingCalls.get_embedding_dimension.
    rewrite Hl. rewrite andb_false_r. rewrite Hl.
    eexists. split; [reflexivity |].
    unfold len, EmbeddingService.default_dimension.
    rewrite (simple_hash_embedding_length sha256 self text 384) by lia.
    destruct (String.eqb _ _); reflexivity.
Qed.

Lemma embedding_dimension_vs_vector_witness :
  EmbeddingCalls.embed_text prefix_digest true (Ok tt) (fun _ => Ok [1%float])
    (EmbeddingService.Service "groq" true) "hello"
  = (EmbeddingService.Service "groq" true, Ok [1%float])
  /\ EmbeddingCalls.get_embedding_dimension true (Ok tt) 1
       (EmbeddingService.Service "groq" true)
     = (EmbeddingService.Service "groq" true, 384).
Proof.
  exact (proj1 (embedding_dimension_vs_vector prefix_digest true (Ok tt)
                  (fun _ => Ok [1%float]) 1 (EmbeddingService.Service "groq" true) "hello")
           [1%float] eq_refl eq_refl eq_refl).
Defined.

(** ** Sessions and histories *)

Section Sessions.

Import SessionService.

Variable uuid4 : nat -> string.
Variable utcnow : nat -> Z.
Variable isoformat : Z -> string.

Lemma deref_alloc_old self v l :
  (l < length (objects self))%nat -> deref (alloc self v).1 l = deref self l.
Proof. intros Hl. unfold deref, alloc. simpl. rewrite lookup_app_l by exact Hl. reflexivity. Qed.

Lemma deref_alloc_new self v : deref (alloc self v).1 (alloc self v).2 = v.
Proof.
  unfold deref, alloc. simpl. rewrite lookup_app_r, Nat.sub_diag by lia. reflexivity.
Qed.

Lemma update_session_activity_histories self sid :
  conversation_histories (update_session_activity utcnow self sid) = conversation_histories self
  /\ objects (update_session_activity utcnow self sid) = objects self.
Proof. unfold update_session_activity. destruct (sessions self !! sid); auto. Qed.

Lemma update_session_activity_sessions self sid sid' :
  is_Some (sessions (update_session_activity utcnow self sid) !! sid')
  <-> is_Some (sessions self !! sid').
Proof.
  unfold update_session_activity. destruct (sessions self !! sid) eqn:E; [| reflexivity].
  simpl. destruct (decide (sid = sid')) as [<- |].
  - rewrite lookup_insert_eq, E. split; eauto.
  - rewrite lookup_insert_ne by done. reflexivity.
Qed.

Lemma last_n_length {A} n (l : list A) : (length (last_n n l) <= n)%nat.
Proof. unfold last_n. rewrite length_drop. lia. Qed.

Lemma last_n_short {A} n (l : list A) : (length l <= n)%nat -> last_n n l = l.
Proof. intros H. unfold last_n. replace (length l - n)%nat with 0%nat by lia. reflexivity. Qed.

(** Binding a fresh list to [sid] keeps a service object well formed. *)
Lemma sessions_wf_rebind self sid v :
  sessions_wf self ->
  (length v <= 50)%nat ->
  sessions_wf (set_histories (alloc self v).1
                 (<[sid := (alloc self v).2]> (conversation_histories self))).
Proof.
  intros (Hdom & Hloc & Hinj) Hv. unfold alloc. simpl.
  split; [| split].
  - intros sid' Hs. simpl in *. destruct (decide (sid = sid')) as [<- |].
    + rewrite lookup_insert_eq. eauto.
    + rewrite lookup_insert_ne by done. auto.
  - intros sid' l. simpl. destruct (decide (sid = sid')) as [<- |].
    + rewrite lookup_insert_eq. intros [= <-]. rewrite length_app. simpl.
      split; [lia |]. unfold deref. simpl.
      rewrite lookup_app_r, Nat.sub_diag by lia. exact Hv.
    + rewrite lookup_insert_ne by done. intros Hl.
      destruct (Hloc _ _ Hl) as [Hlt Hlen]. rewrite length_app. split; [lia |].
      unfold deref in *. simpl. rewrite lookup_app_l by exact Hlt. exact Hlen.
  - intros sid1 sid2 l. simpl.
    destruct (decide (sid = sid1)) as [<- |], (decide (sid = sid2)) as [<- |];
      rewrite ?lookup_insert_eq, ?lookup_insert_ne by done; auto.
    + intros [= <-] H2. apply Hloc in H2. lia.
    + intros H1 [= <-]. apply Hloc in H1. lia.
    + apply Hinj.
Qed.

(** Changing sessions that have a history, the clock and the counters
    keeps a service object well formed. *)
Lemma sessions_wf_sessions self s t u :
  sessions_wf self ->
  (forall sid, is_Some (s !! sid) ->
               is_Some (conversation_histories self !! sid)) ->
  sessions_wf (Service s (conversation_histories self) (objects self) t u).
Proof. intros (Hdom & Hloc & Hinj) Hs. split; [exact Hs | split; assumption]. Qed.

Lemma read_clock_wf self : sessions_wf self -> sessions_wf (read_clock utcnow self).1.
Proof. intros H. apply sessions_wf_sessions; [exact H | apply H]. Qed.

Lemma update_session_activity_wf self sid :
  sessions_wf self -> sessions_wf (update_session_activity utcnow self sid).
Proof.
  intros H. unfold update_session_activity.
  destruct (sessions self !! sid) eqn:E; [| exact H].
  apply sessions_wf_sessions; [exact H |].
  intros sid'. simpl. destruct (decide (sid = sid')) as [<- |].
  - intros _. apply H. rewrite E. eauto.
  - rewrite lookup_insert_ne by done. apply H.
Qed.

Lemma create_session_wf self mode :
  sessions_wf self -> sessions_wf (create_session uuid4 utcnow self mode).1.
Proof.
  intros H. unfold create_session. simpl.
  set (sid := uuid4 (uuids self)).
  destruct H as (Hdom & Hloc & Hinj).
  split; [| split].
  - intros sid'. simpl. destruct (decide (sid = sid')) as [<- |].
    + rewrite !lookup_insert_eq. eauto.
    + rewrite !lookup_insert_ne by done. apply Hdom.
  - intros sid' l. simpl. destruct (decide (sid = sid')) as [<- |].
    + rewrite lookup_insert_eq. intros [= <-]. rewrite length_app. simpl.
      split; [lia |]. unfold deref. simpl.
      rewrite lookup_app_r, Nat.sub_diag by lia. simpl. lia.
    + rewrite lookup_insert_ne by done. intros Hl.
      destruct (Hloc _ _ Hl) as [Hlt Hlen]. rewrite length_app. split; [lia |].
      unfold deref in *. simpl. rewrite lookup_app_l by exact Hlt. exact Hlen.
  - intros sid1 sid2 l. simpl.
    destruct (decide (sid = sid1)) as [<- |], (decide (sid = sid2)) as [<- |];
      rewrite ?lookup_insert_eq, ?lookup_insert_ne by done; auto.
    + intros [= <-] H2. apply Hloc in H2. lia.
    + intros H1 [= <-]. apply Hloc in H1. lia.
    + apply Hinj.
Qed.

Lemma append_to_history_spec self l sid role content :
  sessions_wf self ->
  conversation_histories self !! sid = Some l ->
  message_added self (append_to_history utcnow isoformat self l sid role content) sid
    (Message role content (isoformat (utcnow (ticks self)))).
Proof.
  intros (Hdom & Hloc & Hinj) Hl. unfold append_to_history.
  set (m := Message role content (isoformat (utcnow (ticks self)))).
  cbn [read_clock]. fold m.
  set (self1 := Service (sessions self) (conversation_histories self) (objects self)
                        (S (ticks self)) (uuids self)).
  set (self2 := update_session_activity utcnow
                  (set_objects self1 (<[l := deref self1 l ++ [m]]> (objects self1))) sid).
  destruct (Hloc _ _ Hl) as [Hlt Hlen].
  assert (conversation_histories self2 = conversation_histories self
          /\ objects self2 = <[l := deref self l ++ [m]]> (objects self)) as [Hh2 Ho2].
  { unfold self2.
    destruct (update_session_activity_histories
                (set_objects self1 (<[l := deref self1 l ++ [m]]> (objects self1))) sid)
      as [-> ->]. split; reflexivity. }
  assert (forall sid', is_Some (sessions self2 !! sid') <-> is_Some (sessions self !! sid'))
    as Hs2.
  { intros sid'. unfold self2. rewrite update_session_activity_sessions. reflexivity. }
  assert (deref self2 l = deref self l ++ [m]) as Hd2.
  { unfold deref at 1. rewrite Ho2, list_lookup_insert_eq by exact Hlt. reflexivity. }
  assert (forall l', l' <> l -> deref self2 l' = deref self l') as Hother.
  { intros l' Hne. unfold deref. rewrite Ho2, list_lookup_insert_ne by auto. reflexivity. }
  assert (length (objects self2) = length (objects self)) as Hlen2.
  { rewrite Ho2, length_insert. reflexivity. }
  assert (forall sid' l', sid' <> sid -> conversation_histories self !! sid' = Some l' ->
                          l' <> l) as Hfresh.
  { intros sid' l' Hne Hl' ->. apply Hne. eapply Hinj; eassumption. }
  rewrite Hd2. unfold len. rewrite length_app. simpl length.
  destruct (Z.gtb_spec (Z.of_nat (length (deref self l) + 1)) 50) as [Hbig | Hsmall].
  - cbn [alloc fst snd]. unfold message_added, history_of, set_histories, set_objects.
    cbn [sessions conversation_histories objects].
    rewrite Hh2.
    split; [| split; [| split; [| split]]].
    + split; [| split]; cbn [sessions conversation_histories objects].
      * intros sid' Hs. apply Hs2, Hdom in Hs.
        destruct (decide (sid = sid')) as [<- |];
          rewrite ?lookup_insert_eq, ?lookup_insert_ne by done; eauto.
      * intros sid' l'. rewrite length_app, Hlen2. simpl length.
        unfold deref. cbn [objects].
        destruct (decide (sid = sid')) as [<- |];
          rewrite ?lookup_insert_eq, ?lookup_insert_ne by done.
        -- intros [= <-]. split; [lia |].
           rewrite lookup_app_r by lia. rewrite Hlen2, Nat.sub_diag. simpl.
           apply last_n_length.
        -- intros Hl'. destruct (Hloc _ _ Hl') as [Hlt' Hlen'].
           split; [lia |]. rewrite lookup_app_l by lia.
           fold (deref self2 l'). rewrite Hother by eauto. exact Hlen'.
      * intros sid1 sid2 l'.
        destruct (decide (sid = sid1)) as [<- |], (decide (sid = sid2)) as [<- |];
          rewrite ?lookup_insert_eq, ?lookup_insert_ne by done; auto.
        -- intros [= <-] H2. apply Hloc in H2. lia.
        -- intros H1 [= <-]. apply Hloc in H1. lia.
        -- apply Hinj.
    + rewrite lookup_insert_eq, Hl. unfold deref at 1. cbn [objects].
      rewrite lookup_app_r, Nat.sub_diag by lia. reflexivity.
    + intros sid' Hne. rewrite lookup_insert_ne by done.
      destruct (conversation_histories self !! sid') as [l' |] eqn:Hl'; [| reflexivity].
      destruct (Hloc _ _ Hl') as [Hlt' _].
      unfold deref at 1. cbn [objects]. rewrite lookup_app_l by lia.
      fold (deref self2 l'). apply Hother. eauto.
    + intros l0 Hl0. assert (l0 = l) as -> by congruence.
      unfold deref at 1. cbn [objects]. rewrite lookup_app_l by lia.
      fold (deref self2 l). exact Hd2.
    + exact Hs2.
  - unfold message_added, history_of. rewrite Hh2, Hl, Hd2.
    split; [| split; [| split; [| split]]].
    + split; [| split].
      * intros sid' Hs. rewrite Hh2. apply Hdom, Hs2, Hs.
      * intros sid' l'. rewrite Hh2, Hlen2. intros Hl'.
        destruct (Hloc _ _ Hl') as [Hlt' Hlen']. split; [exact Hlt' |].
        destruct (decide (l' = l)) as [-> | Hne].
        -- rewrite Hd2, length_app. simpl. lia.
        -- rewrite Hother by exact Hne. exact Hlen'.
      * rewrite Hh2. exact Hinj.
    + rewrite last_n_short; [reflexivity |]. rewrite length_app. simpl. lia.
    + intros sid' Hne.
      destruct (conversation_histories self !! sid') as [l' |] eqn:Hl'; [| reflexivity].
      apply Hother. eauto.
    + intros l0 Hl0. assert (l0 = l) as -> by congruence. exact Hd2.
    + exact Hs2.
Qed.

Lemma add_message_to_history_spec self sid role content :
  sessions_wf self ->
  message_added self (add_message_to_history utcnow isoformat self sid role content) sid
    (Message role content (isoformat (utcnow (ticks self)))).
Proof.
  intros Hwf.
  change (add_message_to_history utcnow isoformat self sid role content)
    with (let '(self0, l) :=
            match conversation_histories self !! sid with
            | Some l => (self, l)
            | None =>
                let '(self0, l) := alloc self [] in
                (set_histories self0 (<[sid := l]> (conversation_histories self0)), l)
            end in
          append_to_history utcnow isoformat self0 l sid role content).
  destruct (conversation_histories self !! sid) as [l |] eqn:Hl.
  - apply append_to_history_spec; assumption.
  - cbn [alloc]. cbn beta iota zeta.
    set (self0 := set_histories _ _).
    assert (sessions_wf self0) as Hwf0
      by (apply (sessions_wf_rebind self sid []); [exact Hwf | simpl; lia]).
    assert (conversation_histories self0 !! sid = Some (length (objects self))) as Hl0
      by (unfold self0; simpl; apply lookup_insert_eq).
    destruct (append_to_history_spec self0 _ sid role content Hwf0 Hl0)
      as (Hwf' & Hsid & Hothers & _ & Hsess).
    assert (history_of self0 sid = []) as Hnil.
    { unfold history_of. rewrite Hl0. unfold self0, deref. simpl.
      rewrite lookup_app_r, Nat.sub_diag by lia. reflexivity. }
    change (ticks self0) with (ticks self) in *.
    split; [exact Hwf' |].
    split; [rewrite Hsid, Hnil; unfold history_of; rewrite Hl; reflexivity |].
    split; [| split; [intros l0; congruence | exact Hsess]].
    intros sid' Hne. rewrite Hothers by exact Hne.
    unfold history_of, self0. simpl. rewrite lookup_insert_ne by auto.
    destruct (conversation_histories self !! sid') as [l' |] eqn:Hl'; [| reflexivity].
    destruct Hwf as (_ & Hloc & _). destruct (Hloc _ _ Hl') as [Hlt _].
    unfold deref. simpl. rewrite lookup_app_l by exact Hlt. reflexivity.
Qed.

End Sessions.

Section SessionCleanup.

Import SessionService.

Lemma remove_sessions_lookup ks : forall self k,
  sessions (foldl remove_session self ks) !! k
  = (if decide (k ∈ ks) then None else sessions self !! k)
  /\ conversation_histories (foldl remove_session self ks) !! k
     = (if decide (k ∈ ks) then None else conversation_histories self !! k)
  /\ objects (foldl remove_session self ks) = objects self.
Proof.
  induction ks as [| x ks IH]; intros self k; simpl.
  - destruct (decide (k ∈ [])) as [H |]; [apply elem_of_nil in H; done | auto].
  - destruct (IH (remove_session self x) k) as (-> & -> & ->). simpl.
    destruct (decide (k ∈ ks)) as [Hin | Hnin].
    + rewrite !decide_True by (right; exact Hin). auto.
    + destruct (decide (k = x)) as [-> | Hne].
      * rewrite !decide_True by left. rewrite !lookup_delete_eq. auto.
      * rewrite !decide_False by (rewrite elem_of_cons; tauto).
        rewrite !lookup_delete_ne by auto. auto.
Qed.




End SessionCleanup.

Section SessionInvariant.

Import SessionService.

Variable uuid4 : nat -> string.
Variable utcnow : nat -> Z.
Variable isoformat : Z -> string.

Lemma init_wf : sessions_wf __init__.
Proof.
  split; [| split]; simpl.
  - intros sid [sd H]. rewrite lookup_empty in H. discriminate.
  - intros sid l H. rewrite lookup_empty in H. discriminate.
  - intros sid1 sid2 l H. rewrite lookup_empty in H. discriminate.
Qed.

Lemma alloc_wf self v : sessions_wf self -> sessions_wf (alloc self v).1.
Proof.
  intros (Hdom & Hloc & Hinj). split; [exact Hdom | split; [| exact Hinj]].
  intros sid l Hl. destruct (Hloc _ _ Hl) as [Hlt Hlen].
  rewrite deref_alloc_old by exact Hlt. simpl. rewrite length_app. split; [lia | exact Hlen].
Qed.

Lemma get_conversation_history_wf self sid :
  sessions_wf self -> sessions_wf (get_conversation_history self sid).1.
Proof.
  intros H. unfold get_conversation_history.
  destruct (conversation_histories self !! sid); [exact H | apply alloc_wf, H].
Qed.

Lemma clear_conversation_history_wf self sid :
  sessions_wf self -> sessions_wf (clear_conversation_history self sid).1.
Proof.
  intros H. unfold clear_conversation_history.
  destruct (conversation_histories self !! sid); [| exact H].
  apply (sessions_wf_rebind self sid []); [exact H | simpl; lia].
Qed.

Lemma remove_sessions_wf ks self :
  sessions_wf self -> sessions_wf (foldl remove_session self ks).
Proof.
  intros (Hdom & Hloc & Hinj).
  assert (forall k, conversation_histories (foldl remove_session self ks) !! k
                    = if decide (k ∈ ks) then None else conversation_histories self !! k)
    as Hh by (intros k; apply remove_sessions_lookup).
  assert (forall k, sessions (foldl remove_session self ks) !! k
                    = if decide (k ∈ ks) then None else sessions self !! k)
    as Hs by (intros k; apply remove_sessions_lookup).
  assert (objects (foldl remove_session self ks) = objects self) as Ho
    by (apply (remove_sessions_lookup ks self ""%string)).
  split; [| split].
  - intros sid. rewrite Hs, Hh. destruct (decide (sid ∈ ks)); [intros [? ?]; done | apply Hdom].
  - intros sid l. rewrite Hh, Ho. unfold deref. rewrite Ho.
    destruct (decide (sid ∈ ks)); [done | apply Hloc].
  - intros sid1 sid2 l. rewrite !Hh.
    destruct (decide (sid1 ∈ ks)); [done |]. destruct (decide (sid2 ∈ ks)); [done |].
    apply Hinj.
Qed.

Lemma cleanup_expired_sessions_wf self timeout :
  sessions_wf self -> sessions_wf (cleanup_expired_sessions utcnow self timeout).1.
Proof.
  intros H. unfold cleanup_expired_sessions. simpl.
  apply remove_sessions_wf. apply (read_clock_wf utcnow self H).
Qed.

Lemma get_or_create_session_wf self sid mode :
  sessions_wf self -> sessions_wf (get_or_create_session uuid4 utcnow self sid mode).1.
Proof.
  intros H. unfold get_or_create_session.
  destruct sid as [sid |]; [| apply create_session_wf, H].
  destruct (negb (String.eqb sid "") && bool_decide (is_Some (sessions self !! sid)));
    [apply update_session_activity_wf, H | apply create_session_wf, H].
Qed.

End SessionInvariant.

(** X12: [add_message_to_history] appends the message and keeps the last 50:
    afterwards the session's history is the last 50 entries of the old
    history followed by the new message, so it never holds more than 50
    and always ends with the message just added; no other session's
    history changes. *)
Theorem add_message_to_history_keeps_last_50 :
  forall (utcnow : nat -> Z) (isoformat : Z -> string)
         (self : SessionService.service) (sid role text : string),
    sessions_wf self ->
    let self' := SessionService.add_message_to_history utcnow isoformat self sid role text in
    let m := SessionService.Message role text
               (isoformat (utcnow (SessionService.ticks self))) in
    history_of self' sid = SessionService.last_n 50 (history_of self sid ++ [m])
    /\ (length (history_of self' sid) <= 50)%nat
    /\ last (history_of self' sid) = Some m
    /\ forall sid', sid' <> sid -> history_of self' sid' = history_of self sid'.
Proof.
  intros utcnow isoformat self sid role text Hwf self' m.
  destruct (add_message_to_history_spec utcnow isoformat self sid role text Hwf)
    as (_ & Hsid & Hothers & _).
  fold self' m in Hsid, Hothers.
  split; [exact Hsid |]. rewrite Hsid.
  split; [apply last_n_length |]. split; [| exact Hothers].
  unfold SessionService.last_n. rewrite last_lookup, length_drop, lookup_drop, length_app.
  simpl length.
  replace (length (history_of self sid) + 1 - 50
           + Init.Nat.pred (length (history_of self sid) + 1
                            - (length (history_of self sid) + 1 - 50)))%nat
    with (length (history_of self sid)) by lia.
  rewrite lookup_app_r, Nat.sub_diag by lia. reflexivity.
Qed.

Lemma add_message_to_history_keeps_last_50_witness :
  history_of
    (SessionService.add_message_to_history (fun n => Z.of_nat n) (fun _ => "t")
       SessionService.__init__ "s" "user" "hello") "s"
  = [SessionService.Message "user" "hello" "t"].
Proof.
  exact (proj1 (add_message_to_history_keeps_last_50 (fun n => Z.of_nat n) (fun _ => "t")
                  SessionService.__init__ "s" "user" "hello" init_wf)).
Defined.

(** X13: the service keeps its store well formed: the empty store is, and
    every method leaves it so: every session has a history, no two sessions
    share a list, and no stored history has more than 50 messages. *)
Theorem session_service_invariant :
  forall (uuid4 : nat -> string) (utcnow : nat -> Z) (isoformat : Z -> string),
    sessions_wf SessionService.__init__
    /\ forall self : SessionService.service,
         sessions_wf self ->
         (forall mode, sessions_wf (SessionService.create_session uuid4 utcnow self mode).1)
         /\ (forall sid, sessions_wf (SessionService.update_session_activity utcnow self sid))
         /\ (forall sid role text,
               sessions_wf (SessionService.add_message_to_history utcnow isoformat
                              self sid role text))
         /\ (forall sid, sessions_wf (SessionService.get_conversation_history self sid).1)
         /\ (forall sid, sessions_wf (SessionService.clear_conversation_history self sid).1)
         /\ (forall timeout,
               sessions_wf (SessionService.cleanup_expired_sessions utcnow self timeout).1)
         /\ (forall sid mode,
               sessions_wf (SessionService.get_or_create_session uuid4 utcnow
                              self sid mode).1).
Proof.
  intros uuid4 utcnow isoformat. split; [apply init_wf |].
  intros self Hwf.
  split; [intros; apply create_session_wf, Hwf |].
  split; [intros; apply update_session_activity_wf, Hwf |].
  split; [intros; apply add_message_to_history_spec, Hwf |].
  split; [intros; apply get_conversation_history_wf, Hwf |].
  split; [intros; apply clear_conversation_history_wf, Hwf |].
  split; [intros; apply cleanup_expired_sessions_wf, Hwf |].
  intros; apply get_or_create_session_wf, Hwf.
Qed.

Lemma session_service_invariant_witness :
  sessions_wf
    (SessionService.create_session (fun _ => "id") (fun n => Z.of_nat n)
       SessionService.__init__ "general").1.
Proof.
  pose proof (session_service_invariant (fun _ => "id") (fun n => Z.of_nat n) (fun _ => "t"))
    as [Hinit Hstep].
  exact (proj1 (Hstep SessionService.__init__ Hinit) "general").
Defined.

(** X14: [clear_conversation_history] returns the number of messages the
    session had and leaves it with an empty history; it does so by binding
    a new list, so a list handed out earlier by [get_conversation_history]
    still holds the old messages; other sessions are untouched, and for a
    session without history the call returns 0 and changes nothing. *)
Theorem clear_conversation_history_count :
  forall (self : SessionService.service) (sid : string),
    sessions_wf self ->
    let '(self', n) := SessionService.clear_conversation_history self sid in
    n = len (history_of self sid)
    /\ history_of self' sid = []
    /\ (forall l, SessionService.conversation_histories self !! sid = Some l ->
                  SessionService.deref self' l = SessionService.deref self l)
    /\ (forall sid', sid' <> sid -> history_of self' sid' = history_of self sid')
    /\ (SessionService.conversation_histories self !! sid = None -> self' = self).
Proof.
  intros self sid (Hdom & Hloc & Hinj).
  unfold SessionService.clear_conversation_history, history_of.
  destruct (SessionService.conversation_histories self !! sid) as [l |] eqn:Hl.
  - cbn [SessionService.alloc]. cbn beta iota zeta.
    unfold SessionService.set_histories, SessionService.set_objects.
    cbn [SessionService.conversation_histories SessionService.objects].
    split; [reflexivity |].
    split; [rewrite lookup_insert_eq; unfold SessionService.deref;
            cbn [SessionService.objects];
            rewrite lookup_app_r, Nat.sub_diag by lia; reflexivity |].
    split; [| split; [| discriminate]].
    + intros l0 [= <-]. destruct (Hloc _ _ Hl) as [Hlt _].
      unfold SessionService.deref. cbn [SessionService.objects].
      rewrite lookup_app_l by exact Hlt. reflexivity.
    + intros sid' Hne. rewrite lookup_insert_ne by auto.
      destruct (SessionService.conversation_histories self !! sid') as [l' |] eqn:Hl';
        [| reflexivity].
      destruct (Hloc _ _ Hl') as [Hlt _].
      unfold SessionService.deref. cbn [SessionService.objects].
      rewrite lookup_app_l by exact Hlt. reflexivity.
  - rewrite Hl. repeat split; auto.
Qed.

Lemma clear_conversation_history_count_witness :
  (SessionService.clear_conversation_history
     (SessionService.add_message_to_history (fun n => Z.of_nat n) (fun _ => "t")
        SessionService.__init__ "s" "user" "hello") "s").2 = 1.
Proof.
  pose proof (clear_conversation_history_count
                (SessionService.add_message_to_history (fun n => Z.of_nat n) (fun _ => "t")
                   SessionService.__init__ "s" "user" "hello") "s"
                (proj1 (add_message_to_history_spec (fun n => Z.of_nat n) (fun _ => "t")
                          SessionService.__init__ "s" "user" "hello" init_wf))) as H.
  destruct (SessionService.clear_conversation_history _ _) as [self' n].
  destruct H as [-> _]. reflexivity.
Defined.


Section ChatGeneralProofs.

Import SessionService.

Variable uuid4 : nat -> string.
Variable utcnow : nat -> Z.
Variable isoformat : Z -> string.

Lemma last_n_snoc {A} n (l : list A) x : last_n (S n) (l ++ [x]) = last_n n l ++ [x].
Proof.
  unfold last_n. rewrite length_app. simpl length.
  replace (length l + 1 - S n)%nat with (length l - n)%nat by lia.
  rewrite drop_app_le by lia. reflexivity.
Qed.

Lemma last_n_last_n {A} n m (l : list A) :
  (n <= m)%nat -> last_n n (last_n m l) = last_n n l.
Proof.
  intros Hnm. unfold last_n. rewrite length_drop, drop_drop. f_equal. lia.
Qed.

Lemma history_of_update_session_activity self sid sid' :
  history_of (update_session_activity utcnow self sid) sid' = history_of self sid'.
Proof.
  unfold history_of, deref.
  destruct (update_session_activity_histories utcnow self sid) as [-> ->]. reflexivity.
Qed.

Lemma create_session_spec self mode :
  sessions_wf self ->
  let '(self', sid) := create_session uuid4 utcnow self mode in
  sid = uuid4 (uuids self)
  /\ sessions self' !! sid
     = Some (SessionData sid (utcnow (ticks self)) (utcnow (S (ticks self))) mode)
  /\ conversation_histories self' !! sid = Some (length (objects self))
  /\ history_of self' sid = []
  /\ forall sid', sid' <> sid ->
       sessions self' !! sid' = sessions self !! sid'
       /\ history_of self' sid' = history_of self sid'.
Proof.
  intros (Hdom & Hloc & Hinj). unfold create_session. simpl.
  split; [reflexivity |].
  split; [apply lookup_insert_eq |].
  split; [apply lookup_insert_eq |].
  split.
  - unfold history_of. simpl. rewrite lookup_insert_eq. unfold deref. simpl.
    rewrite lookup_app_r, Nat.sub_diag by lia. reflexivity.
  - intros sid' Hne. split; [apply lookup_insert_ne; auto |].
    unfold history_of. simpl. rewrite lookup_insert_ne by auto.
    destruct (conversation_histories self !! sid') as [l |] eqn:Hl; [| reflexivity].
    destruct (Hloc _ _ Hl) as [Hlt _]. unfold deref. simpl.
    rewrite lookup_app_l by exact Hlt. reflexivity.
Qed.

End ChatGeneralProofs.

Lemma get_or_create_session_spec :
  forall (uuid4 : nat -> string) (utcnow : nat -> Z)
         (self : SessionService.service) (request : option string) (mode : string),
    sessions_wf self ->
    let known :=
      match request with
      | Some sid =>
          negb (String.eqb sid "")
          && bool_decide (is_Some (SessionService.sessions self !! sid))
      | None => false
      end in
    let '(self', sid) :=
      SessionService.get_or_create_session uuid4 utcnow self request mode in
    is_Some (SessionService.sessions self' !! sid)
    /\ is_Some (SessionService.conversation_histories self' !! sid)
    /\ (known = true ->
        request = Some sid
        /\ history_of self' sid = history_of self sid
        /\ SessionService.last_active <$> SessionService.sessions self' !! sid
           = Some (utcnow (SessionService.ticks self)))
    /\ (known = false ->
        sid = uuid4 (SessionService.uuids self)
        /\ history_of self' sid = []
        /\ SessionService.mode <$> SessionService.sessions self' !! sid = Some mode).
Proof.
  intros uuid4 utcnow self request mode Hwf known.
  assert (known = false ->
          let '(self', sid) := SessionService.create_session uuid4 utcnow self mode in
          is_Some (SessionService.sessions self' !! sid)
          /\ is_Some (SessionService.conversation_histories self' !! sid)
          /\ (known = true ->
              request = Some sid
              /\ history_of self' sid = history_of self sid
              /\ SessionService.last_active <$> SessionService.sessions self' !! sid
                 = Some (utcnow (SessionService.ticks self)))
          /\ (known = false ->
              sid = uuid4 (SessionService.uuids self)
              /\ history_of self' sid = []
              /\ SessionService.mode <$> SessionService.sessions self' !! sid = Some mode))
    as Hcreate.
  { intros Hk. pose proof (create_session_spec uuid4 utcnow self mode Hwf) as H.
    destruct (SessionService.create_session uuid4 utcnow self mode) as [self' sid].
    destruct H as (Hsid & Hs & Hh & Hnil & _).
    split; [rewrite Hs; eauto |]. split; [rewrite Hh; eauto |].
    split; [congruence |]. intros _. rewrite Hs. auto. }
  unfold SessionService.get_or_create_session.
  destruct request as [given |]; [| apply Hcreate; reflexivity].
  destruct (negb (String.eqb given "")
            && bool_decide (is_Some (SessionService.sessions self !! given))) eqn:Hk;
    [| apply Hcreate; reflexivity].
  apply andb_true_iff in Hk as [_ Hsome]. apply bool_decide_eq_true in Hsome.
  destruct Hwf as (Hdom & _).
  split; [apply update_session_activity_sessions, Hsome |].
  split; [destruct (update_session_activity_histories utcnow self given) as [-> _];
          apply Hdom, Hsome |].
  split; [| intros H; discriminate H].
  intros _. split; [reflexivity |].
  split; [apply history_of_update_session_activity |].
  unfold SessionService.update_session_activity.
  destruct Hsome as [sd Hsd]. rewrite Hsd. simpl. rewrite lookup_insert_eq. reflexivity.
Qed.

(** X16: [get_or_create_session] always answers with a session that exists
    afterwards and has a history.  A non-empty identifier of a known
    session is returned as it is, its history untouched and its last
    activity set to the current time; in every other case ([None], the
    empty string, an unknown identifier) the answer is a fresh identifier
    whose session has the requested mode and an empty history. *)
Theorem get_or_create_session_cases :
  forall (uuid4 : nat -> string) (utcnow : nat -> Z)
         (self : SessionService.service) (request : option string) (mode : string),
    sessions_wf self ->
    let known :=
      match request with
      | Some sid =>
          negb (String.eqb sid "")
          && bool_decide (is_Some (SessionService.sessions self !! sid))
      | None => false
      end in
    let '(self', sid) :=
      SessionService.get_or_create_session uuid4 utcnow self request mode in
    is_Some (SessionService.sessions self' !! sid)
    /\ is_Some (SessionService.conversation_histories self' !! sid)
    /\ (known = true ->
        request = Some sid
        /\ history_of self' sid = history_of self sid
        /\ SessionService.last_active <$> SessionService.sessions self' !! sid
           = Some (utcnow (SessionService.ticks self)))
    /\ (known = false ->
        sid = uuid4 (SessionService.uuids self)
        /\ history_of self' sid = []
        /\ SessionService.mode <$> SessionService.sessions self' !! sid = Some mode).
Proof. exact get_or_create_session_spec. Qed.

Lemma get_or_create_session_cases_witness :
  (SessionService.get_or_create_session (fun _ => "id") (fun n => Z.of_nat n)
     SessionService.__init__ None "general").2 = "id"%string.
Proof.
  pose proof (get_or_create_session_cases (fun _ => "id") (fun n => Z.of_nat n)
                SessionService.__init__ None "general" init_wf) as H.
  cbv zeta in H.
  destruct (SessionService.get_or_create_session _ _ _ _ _) as [self' sid].
  destruct H as (_ & _ & _ & H). destruct (H eq_refl) as (-> & _). reflexivity.
Defined.

(** X17: [chat_general] sends the user's message to the model twice: the
    history it read is the very list the message is then appended to, so
    the formatted messages are the system message, at most nine earlier
    messages of the session, and the user's message two times: all but the
    last are the system message and the last ten entries of the session's
    history as it is stored afterwards. *)
Theorem chat_general_repeats_user_message :
  forall (uuid4 : nat -> string) (utcnow : nat -> Z) (isoformat : Z -> string)
         (self : SessionService.service) (request_session_id : option string)
         (request_message : string),
    sessions_wf self ->
    let '(self', sid, messages) :=
      chat_general_messages uuid4 utcnow isoformat self request_session_id request_message in
    exists earlier,
      messages
      = LLMService.system_message
          :: earlier ++ [LLMService.ChatMessage "user" request_message;
                         LLMService.ChatMessage "user" request_message]
      /\ (length earlier <= 9)%nat
      /\ (exists ts,
            last (history_of self' sid)
            = Some (SessionService.Message "user" request_message ts))
      /\ earlier ++ [LLMService.ChatMessage "user" request_message]
         = map (fun msg => LLMService.ChatMessage (SessionService.role msg)
                                                  (SessionService.content msg))
               (SessionService.last_n 10 (history_of self' sid)).
Proof.
  intros uuid4 utcnow isoformat self request message Hwf.
  unfold chat_general_messages.
  pose proof (get_or_create_session_wf uuid4 utcnow self request "general" Hwf) as Hwf1.
  pose proof (get_or_create_session_spec uuid4 utcnow self request "general" Hwf) as Hhist.
  cbv zeta in Hhist.
  destruct (SessionService.get_or_create_session uuid4 utcnow self request "general")
    as [self1 sid].
  cbn [fst snd] in Hwf1. destruct Hhist as (_ & [l Hl] & _).
  unfold SessionService.get_conversation_history. rewrite Hl.
  destruct (add_message_to_history_spec utcnow isoformat self1 sid "user" message Hwf1)
    as (_ & Hsid & _ & Halias & _).
  rewrite (Halias l Hl).
  set (m := SessionService.Message "user" message _) in *.
  set (old := SessionService.deref self1 l).
  exists (map (fun msg => LLMService.ChatMessage (SessionService.role msg)
                                                 (SessionService.content msg))
              (SessionService.last_n 9 old)).
  split; [| split; [| split]].
  - unfold LLMService.format_messages_for_general_chat.
    destruct (old ++ [m]) as [| x xs] eqn:E; [destruct old; discriminate |].
    rewrite <- E, last_n_snoc, map_app. simpl. rewrite <- app_assoc. reflexivity.
  - rewrite length_map. apply last_n_length.
  - exists (SessionService.timestamp m). rewrite Hsid.
    change 50%nat with (S 49). rewrite last_n_snoc, last_snoc. reflexivity.
  - rewrite Hsid, last_n_last_n by lia.
    assert (history_of self1 sid = old) as -> by (unfold history_of; rewrite Hl; reflexivity).
    rewrite last_n_snoc, map_app. reflexivity.
Qed.

Lemma chat_general_repeats_user_message_witness :
  (chat_general_messages (fun _ => "id") (fun n => Z.of_nat n) (fun _ => "t")
     SessionService.__init__ None "hello").2
  = [LLMService.system_message;
     LLMService.ChatMessage "user" "hello"; LLMService.ChatMessage "user" "hello"].
Proof.
  pose proof (chat_general_repeats_user_message (fun _ => "id") (fun n => Z.of_nat n)
                (fun _ => "t") SessionService.__init__ None "hello" init_wf) as H.
  destruct H as (earlier & _ & _ & _). reflexivity.
Defined.

(** X18: [format_messages_for_general_chat] passes at most 12 messages: the
    system message first, the role and content of the last ten entries of
    the history in order, and the user's message last; a history of ten
    entries or fewer is passed whole, and with no history (or an empty one)
    the list is just the system message and the user's message. *)
Theorem format_messages_for_general_chat_window :
  forall (user_message : string) (history : option (list SessionService.message)),
    let messages := LLMService.format_messages_for_general_chat user_message history in
    let entries := default [] history in
    messages
    = LLMService.system_message
        :: map (fun msg => LLMService.ChatMessage (SessionService.role msg)
                                                  (SessionService.content msg))
               (drop (length entries - 10) entries)
        ++ [LLMService.ChatMessage "user" user_message]
    /\ (length messages <= 12)%nat
    /\ length messages = (2 + Nat.min 10 (length entries))%nat.
Proof.
  intros user_message history messages entries.
  assert (messages
          = LLMService.system_message
              :: map (fun msg => LLMService.ChatMessage (SessionService.role msg)
                                                        (SessionService.content msg))
                     (drop (length entries - 10) entries)
              ++ [LLMService.ChatMessage "user" user_message]) as ->.
  { unfold messages, entries, LLMService.format_messages_for_general_chat.
    destruct history as [[| m ms] |]; reflexivity. }
  split; [reflexivity |].
  simpl length. rewrite length_app, length_map, length_drop. simpl length. lia.
Qed.

(** ** Document metadata reaches every chunk *)

Lemma dict_update_keeps kvs : forall (md : dict) k,
  is_Some (md !! k) -> is_Some (dict_update md kvs !! k).
Proof.
  unfold dict_update. induction kvs as [| [k' v] kvs IH]; intros md k Hk; simpl; [exact Hk |].
  apply IH. destruct (decide (k' = k)) as [-> |].
  - rewrite lookup_insert_eq. eauto.
  - rewrite lookup_insert_ne by done. exact Hk.
Qed.

Lemma dict_update_other keys kvs : forall (md : dict) k,
  Forall (fun kv : string * value => In kv.1 keys) kvs ->
  ~ In k keys ->
  dict_update md kvs !! k = md !! k.
Proof.
  unfold dict_update. induction kvs as [| [k' v] kvs IH]; intros md k Hkvs Hk; simpl;
    [reflexivity |].
  inversion Hkvs as [| ? ? Hin Hrest]; subst. rewrite IH by assumption.
  apply lookup_insert_ne. intros ->. exact (Hk Hin).
Qed.

Lemma built_on_keeps keys md c : built_on keys md c -> keeps_metadata keys md c.
Proof.
  intros (kvs & E & Hkvs). unfold keeps_metadata. rewrite E. split.
  - intros k. apply dict_update_keeps.
  - intros k. apply dict_update_other, Hkvs.
Qed.

(** [{**md, **chunk_md}] is [chunk_md] when the chunk kept the keys. *)
Lemma keeps_metadata_merge keys (md : dict) c :
  keeps_metadata keys md c -> metadata c ∪ md = metadata c.
Proof.
  intros [Hkeep _]. apply map_eq. intros k.
  destruct (metadata c !! k) as [v |] eqn:Hc.
  - apply lookup_union_Some_l, Hc.
  - apply lookup_union_None. split; [exact Hc |].
    destruct (md !! k) as [w |] eqn:Hm; [| reflexivity].
    destruct (Hkeep k ltac:(eauto)) as [x Hx]. congruence.
Qed.

Section BuiltOn.

Import ChunkingService.

Variable tree_sitter : string -> string -> result (option (list ts_node)).

Lemma lines_loop_built md size l : forall st,
  Forall (built_on engine_keys md) (ls_chunks st) ->
  Forall (built_on engine_keys md) (ls_chunks (foldl (lines_step md size) st l)).
Proof.
  induction l as [| [i line] l IH]; intros st Hst; simpl; [exact Hst |].
  apply IH. unfold lines_step.
  destruct ((ls_current_size st + len (split_ws line) >? size)
            && negb (bool_decide (ls_current_chunk st = []))); simpl; [| exact Hst].
  apply Forall_app. split; [exact Hst |].
  constructor; [built | constructor].
Qed.

Lemma chunk_by_lines_built text md size ps :
  Forall (built_on engine_keys md) (_chunk_by_lines text md size ps).
Proof.
  unfold _chunk_by_lines.
  match goal with
  | |- context [foldl ?f ?st ?l] =>
      pose proof (lines_loop_built md
                    (match size with Some n => n | None => max_chunk_size end)
                    l st ltac:(constructor)) as H
  end.
  destruct (bool_decide _); [exact H |].
  apply Forall_app. split; [exact H |].
  constructor; [built | constructor].
Qed.

Lemma chunk_config_built text md :
  exists chunks, chunk_config text md = Ok chunks /\ Forall (built_on engine_keys md) chunks.
Proof.
  unfold chunk_config. destruct (str_len text <? 2000).
  - eexists. split; [reflexivity |]. constructor; [built | constructor].
  - eexists. split; [reflexivity | apply chunk_by_lines_built].
Qed.

Lemma paragraphs_step_built md st para :
  Forall (built_on engine_keys md) (ls_chunks st) ->
  exists st', paragraphs_step md st para = Ok st' /\ Forall (built_on engine_keys md) (ls_chunks st').
Proof.
  intros Hst. unfold paragraphs_step.
  destruct ((ls_current_size st + len (split_ws para) >? max_chunk_size)
            && negb (bool_decide (ls_current_chunk st = []))) eqn:Hflush.
  - apply andb_true_iff in Hflush as [_ Hne]. rewrite Hne.
    apply negb_true_iff, bool_decide_eq_false in Hne.
    destruct (last_slice_nonempty _ Hne) as (x & ->).
    eexists. split; [reflexivity |]. simpl.
    apply Forall_app. split; [exact Hst |].
    constructor; [built | constructor].
  - eexists. split; [reflexivity | exact Hst].
Qed.

Lemma chunk_by_paragraphs_built text md :
  exists chunks, _chunk_by_paragraphs text md = Ok chunks /\ Forall (built_on engine_keys md) chunks.
Proof.
  unfold _chunk_by_paragraphs.
  destruct (for_each_result_ok (paragraphs_step md)
              (fun st => Forall (built_on engine_keys md) (ls_chunks st)) (fun _ => True)
              (re_split blank_line_re text)
              (fun st x Hst _ => paragraphs_step_built md st x Hst)
              ltac:(apply Forall_forall; auto)
              (LinesState [] [] 0) ltac:(constructor)) as (st & -> & Hst).
  simpl. destruct (bool_decide (ls_current_chunk st = [])).
  - eauto.
  - eexists. split; [reflexivity |].
    apply Forall_app. split; [exact Hst |].
    constructor; [built | constructor].
Qed.

Lemma markdown_section_built lines hs md i start :
  (start < default (length lines) (hs !! S i) <= length lines)%nat ->
  exists c, markdown_section lines hs md (i, start) = Ok c /\ built_on engine_keys md c.
Proof.
  intros Hrange. unfold markdown_section.
  change (match hs !! S i with Some e => e | None => length lines end)
    with (default (length lines) (hs !! S i)).
  destruct (slice_nonempty lines start _ (proj1 Hrange) (proj2 Hrange))
    as (x & rest & ->).
  eexists. split; [reflexivity |]. built.
Qed.

Lemma chunk_document_text_built text md :
  exists chunks, chunk_document_text text md = Ok chunks /\ Forall (built_on engine_keys md) chunks.
Proof.
  unfold chunk_document_text.
  destruct (bool_decide _); [| apply chunk_by_paragraphs_built].
  unfold _chunk_markdown. destruct (bool_decide _); [apply chunk_by_paragraphs_built |].
  apply mapM_result_ok.
  eapply Forall_impl.
  - apply (ascending_enumerate (length (split_lines text)) _ _ 0 0 eq_refl).
    apply header_indices_ascending.
  - intros [i start] Hrange. apply markdown_section_built, Hrange.
Qed.

Lemma chunk_sql_built text md :
  exists chunks, chunk_sql text md = Ok chunks /\ Forall (built_on engine_keys md) chunks.
Proof.
  eexists. split; [reflexivity |].
  apply Forall_concat, Forall_map, Forall_forall. intros [i piece] _.
  destruct (sql_statement_cases md i piece) as [[_ ->] | (_ & _ & ->)]; [constructor |].
  constructor; [| constructor]. unfold sql_chunk. built.
Qed.

Lemma regex_section_built lines bs language md i start :
  (start < default (length lines) (bs !! S i) <= length lines)%nat ->
  exists c, regex_section lines bs language md (i, start) = Ok c /\ built_on engine_keys md c.
Proof.
  intros Hrange. unfold regex_section.
  change (match bs !! S i with Some e => e | None => length lines end)
    with (default (length lines) (bs !! S i)).
  destruct (slice_nonempty lines start _ (proj1 Hrange) (proj2 Hrange))
    as (x & rest & ->).
  eexists. split; [reflexivity |]. built.
Qed.

Lemma chunk_with_regex_built text language md :
  exists chunks,
    _chunk_with_regex text language md = Ok chunks /\ Forall (built_on engine_keys md) chunks.
Proof.
  unfold _chunk_with_regex.
  destruct (patterns language) as [pats |]; [| exists []; split; [reflexivity | constructor]].
  destruct (bool_decide _); [exists []; split; [reflexivity | constructor] |].
  apply mapM_result_ok.
  eapply Forall_impl.
  - apply (ascending_enumerate (length (split_lines text)) _ _ 0 0 eq_refl).
    apply (filter_enumerate_ascending _ (split_lines text) 0).
  - intros [i start] Hrange. apply regex_section_built, Hrange.
Qed.

Lemma ast_chunks_of_built text md nodes :
  exists chunks,
    ast_chunks_of text md nodes = Ok chunks /\ Forall (built_on engine_keys md) chunks.
Proof.
  unfold ast_chunks_of.
  set (lines := split_lines text).
  set (found := List.filter _ nodes).
  assert (Forall (built_on engine_keys md) (map (ast_node_chunk text lines md) found))
    as Hfound.
  { apply Forall_map, Forall_forall. intros node _. unfold ast_node_chunk. built. }
  destruct (bool_decide (map _ found = [])); [eauto |].
  destruct (for_each_result_ok (global_step lines) (fun _ => True)
              (fun c => exists s e, meta_int c "start_line" = Ok s
                                    /\ meta_int c "end_line" = Ok e)
              (map (ast_node_chunk text lines md) found)) with (st := ([] : list string, 0))
    as ([global_lines current_line] & -> & _).
  - intros [gl cl] c _ (s0 & e0 & Hs & He). unfold global_step.
    rewrite Hs. simpl. rewrite He. simpl. eauto.
  - apply Forall_map, Forall_forall. intros node _. apply ast_node_chunk_lines.
  - exact I.
  - cbn -[dict_update]. destruct (bool_decide _); [eauto |].
    destruct (bool_decide _); [eauto |].
    eexists. split; [reflexivity |].
    constructor; [built | exact Hfound].
Qed.

Lemma chunk_code_built text md :
  exists chunks, chunk_code tree_sitter text md = Ok chunks /\ Forall (built_on engine_keys md) chunks.
Proof.
  rewrite chunk_code_cascade.
  set (language := language_of _).
  assert (exists chunks, _chunk_with_ast tree_sitter text language md = Ok chunks
                         /\ Forall (built_on engine_keys md) chunks) as ([| c cs] & -> & Hast).
  { unfold _chunk_with_ast.
    destruct (tree_sitter language text) as [[nodes |] | e]; simpl.
    - destruct (ast_chunks_of_built text md nodes) as (chunks & -> & H). simpl. eauto.
    - exists []. split; [reflexivity | constructor].
    - exists []. split; [destruct e; reflexivity | constructor]. }
  2: eauto.
  destruct (chunk_with_regex_built text language md) as ([| c cs] & -> & Hre); [| eauto].
  eexists. split; [reflexivity | apply chunk_by_lines_built].
Qed.

Lemma chunk_document_built text md :
  exists chunks,
    chunk_document tree_sitter text md = Ok chunks /\ Forall (built_on engine_keys md) chunks.
Proof.
  assert (exists chunks, chunk_generic text md = Ok chunks /\ Forall (built_on engine_keys md) chunks)
    as Hgeneric by (eexists; split; [reflexivity | apply chunk_by_lines_built]).
  unfold chunk_document, dispatch.
  destruct (value_in _ code_types);
    [destruct (chunk_code_built text md) as (chunks & -> & H); simpl; eauto |].
  destruct (value_in _ config_types);
    [destruct (chunk_config_built text md) as (chunks & -> & H); simpl; eauto |].
  destruct (value_in _ text_types);
    [destruct (chunk_document_text_built text md) as (chunks & -> & H); simpl; eauto |].
  destruct (bool_decide (_ = VStr ".sql"));
    [destruct (chunk_sql_built text md) as (chunks & -> & H); simpl; eauto |].
  destruct (value_in _ web_types).
  { eexists. split; [reflexivity | apply chunk_by_lines_built]. }
  destruct (bool_decide (_ = VStr ".csv")); exact Hgeneric.
Qed.

End BuiltOn.

Lemma process_csv_content_built text md :
  Forall (built_on csv_keys md) (RAGPipeline._process_csv_content text md).
Proof.
  unfold RAGPipeline._process_csv_content. destruct (str_len text >? 10000000).
  - unfold RAGPipeline._process_large_csv_content.
    destruct (bool_decide _); [constructor |].
    destruct (bool_decide _); repeat (constructor; [built |]); constructor.
  - destruct (bool_decide _); [constructor |].
    unfold RAGPipeline.csv_try_block.
    destruct (length _ <=? 1000)%nat.
    + destruct (bool_decide _); cbn -[dict_update];
        repeat (constructor; [unfold RAGPipeline.csv_header_chunk,
                              RAGPipeline.csv_sample_chunk; built |]); constructor.
    + destruct (bool_decide _), (format_comma_value _); cbn -[dict_update];
        repeat (constructor; [unfold RAGPipeline.csv_header_chunk,
                              RAGPipeline.csv_sample_chunk; built |]); constructor.
Qed.

(** X19: whatever the file type and whichever strategy answers,
    [chunk_document] returns chunks whose metadata is the document's with
    the chunk's own fields written over it: every key of the document's
    metadata is still there, and every key the engine does not write
    ([file_name], [file_type], [file_size], ...) has the document's value.
    The same holds on the orchestrator's CSV path for the keys written
    there.  So the merge [{**metadata, **chunk.metadata}] that
    [add_document] stores is the chunk's metadata itself. *)
Theorem chunks_keep_document_metadata :
  forall (tree_sitter : string -> string -> result (option (list ChunkingService.ts_node)))
         (text : string) (md : dict),
    (exists chunks,
        ChunkingService.chunk_document tree_sitter text md = Ok chunks
        /\ Forall (fun c => keeps_metadata engine_keys md c /\ metadata c ∪ md = metadata c)
                  chunks)
    /\ Forall (fun c => keeps_metadata csv_keys md c /\ metadata c ∪ md = metadata c)
              (RAGPipeline._process_csv_content text md).
Proof.
  intros tree_sitter text md. split.
  - destruct (chunk_document_built tree_sitter text md) as (chunks & Hok & Hb).
    exists chunks. split; [exact Hok |].
    eapply Forall_impl; [exact Hb |]. intros c Hc. apply built_on_keeps in Hc.
    split; [exact Hc | eapply keeps_metadata_merge, Hc].
  - eapply Forall_impl; [apply process_csv_content_built |].
    intros c Hc. apply built_on_keeps in Hc.
    split; [exact Hc | eapply keeps_metadata_merge, Hc].
Qed.

(** ** Storing a document *)

Lemma str_app_inv_head p : forall a b : string, (p ++ a = p ++ b)%string -> a = b.
Proof.
  induction p as [| c p IH]; intros a b H; [exact H |].
  simpl in H. injection H as H. apply IH, H.
Qed.

Lemma chunk_id_inj doc_id i j :
  DocumentStore.chunk_id doc_id i = DocumentStore.chunk_id doc_id j -> i = j.
Proof.
  unfold DocumentStore.chunk_id, str_of_int. intros H.
  apply str_app_inv_head, str_app_inv_head in H.
  apply pretty_Z_inj in H. lia.
Qed.

Lemma enumerate_from_fst {A} (l : list A) : forall i,
  (enumerate_from i l).*1 = seq i (length l).
Proof. induction l as [| x l IH]; intros i; simpl; [| rewrite IH]; reflexivity. Qed.

Lemma sublist_take_NoDup {A} (l : list A) k : NoDup l -> NoDup (take k l).
Proof.
  revert k. induction l as [| x l IH]; intros k Hnd; destruct k; simpl;
    try constructor.
  - inversion Hnd as [| ? ? Hx Hl]; subst. intros Hin. apply Hx.
    apply list_elem_of_lookup in Hin as [i Hi].
    apply lookup_take_Some in Hi as [Hi _]. eapply list_elem_of_lookup_2, Hi.
  - inversion Hnd; subst. apply IH. assumption.
Qed.

(** The identifiers under which a run of chunks is stored are distinct. *)
Lemma stored_as_ids doc_id md (chunks : list chunk) i0 k new :
  Forall2 (stored_as doc_id md) (take k (enumerate_from i0 chunks)) new ->
  NoDup (map VectorStoreService.stored_id new).
Proof.
  intros H.
  assert (map VectorStoreService.stored_id new
          = DocumentStore.chunk_id doc_id <$> (take k (enumerate_from i0 chunks)).*1) as ->.
  { induction H as [| ic s ics new' (Hid & _) _ IH]; [reflexivity |].
    simpl. rewrite Hid. f_equal. exact IH. }
  apply NoDup_fmap_2_strong.
  - intros x y _ _. apply chunk_id_inj.
  - rewrite fmap_take, enumerate_from_fst. apply sublist_take_NoDup, NoDup_seq.
Qed.

Section StoreLoop.

Import VectorStoreService DocumentStore.

Variable tree_sitter : string -> string -> result (option (list ChunkingService.ts_node)).
Variable sha256 : list byte -> list byte.
Variable available : bool.
Variable load : result unit.
Variable model_encode : string -> result (list float).
Variable collection_add : list stored -> stored -> result unit.
Variable utcnow : nat -> Z.
Variable isoformat : Z -> string.

Lemma store_chunks_spec doc_id md : forall chunks i0 self n,
  exists k new,
    (k <= length chunks)%nat
    /\ collection (vectorstore_service
                     (store_chunks sha256 available load model_encode collection_add
                        utcnow isoformat self doc_id md n (enumerate_from i0 chunks)).1)
       = collection (vectorstore_service self) ++ new
    /\ Forall2 (stored_as doc_id md) (take k (enumerate_from i0 chunks)) new
    /\ match (store_chunks sha256 available load model_encode collection_add
                utcnow isoformat self doc_id md n (enumerate_from i0 chunks)).2 with
       | Ok m => k = length chunks /\ m = n + len chunks
       | Raise e =>
           (k < length chunks)%nat
           /\ exists entry,
                collection_add (collection (vectorstore_service self) ++ new) entry
                = Raise e
       end.
Proof.
  induction chunks as [| c chunks IH]; intros i0 self n.
  - exists 0%nat, []. simpl. rewrite app_nil_r.
    split; [lia |]. split; [reflexivity |]. split; [constructor |].
    split; [reflexivity | unfold len; simpl; lia].
  - cbn [enumerate_from store_chunks].
    rewrite embed_text_local.
    destruct (embed_with_local_returns sha256 available load model_encode
                (embedding_service self) (content c)) as (es & v & -> & _).
    unfold VectorStoreService.add_document. cbn [collection clock].
    set (entry := Stored _ _ _ _).
    destruct (collection_add (collection (vectorstore_service self)) entry) eqn:Hadd.
    + destruct (IH (S i0)
                  (Pipeline es (Service (collection (vectorstore_service self) ++ [entry])
                                        (S (clock (vectorstore_service self)))))
                  (n + 1)) as (k & new & Hk & Hcoll & Hnew & Hres).
      exists (S k), (entry :: new).
      split; [simpl; lia |].
      split; [rewrite Hcoll; cbn [vectorstore_service collection];
              rewrite <- app_assoc; reflexivity |].
      split.
      { cbn [take]. constructor; [| exact Hnew].
        split; [reflexivity |]. split; [reflexivity |].
        eexists. reflexivity. }
      destruct (store_chunks _ _ _ _ _ _ _ _ _ _ _ _).2 as [m | e].
      * destruct Hres as [-> ->]. split; [reflexivity |]. unfold len. simpl length. lia.
      * destruct Hres as (Hlt & entry' & Hraise). split; [simpl; lia |].
        exists entry'. cbn [vectorstore_service collection] in Hraise.
        rewrite <- app_assoc in Hraise. exact Hraise.
    + exists 0%nat, []. cbn [fst snd vectorstore_service collection].
      rewrite app_nil_r.
      split; [lia |]. split; [reflexivity |]. split; [constructor |].
      split; [simpl; lia |]. exists entry. exact Hadd.
Qed.

End StoreLoop.

Section AddDocument.

Import VectorStoreService DocumentStore.

Variable tree_sitter : string -> string -> result (option (list ChunkingService.ts_node)).
Variable sha256 : list byte -> list byte.
Variable available : bool.
Variable load : result unit.
Variable model_encode : string -> result (list float).
Variable collection_add : list stored -> stored -> result unit.
Variable utcnow : nat -> Z.
Variable isoformat : Z -> string.

Lemma add_document_chunks_returns text md :
  exists chunks, RAGPipeline.add_document_chunks tree_sitter text md = Ok chunks.
Proof.
  unfold RAGPipeline.add_document_chunks.
  destruct (bool_decide _); [eauto | apply chunk_document_returns].
Qed.

(** The three ways [add_document] ends. *)
Lemma add_document_spec self doc_id text md :
  exists chunks k new,
    RAGPipeline.add_document_chunks tree_sitter text md = Ok chunks
    /\ collection (vectorstore_service
                     (DocumentStore.add_document tree_sitter sha256 available load
                        model_encode collection_add utcnow isoformat
                        self doc_id text md).1)
       = collection (vectorstore_service self) ++ new
    /\ Forall2 (stored_as doc_id md) (take k (enumerate chunks)) new
    /\ NoDup (map stored_id new)
    /\ let answer :=
         (DocumentStore.add_document tree_sitter sha256 available load
            model_encode collection_add utcnow isoformat self doc_id text md).2 in
       (chunks = [] /\ k = 0%nat
        /\ answer = report "warning" 0 "No chunks generated from document")
       \/ (chunks <> [] /\ k = length chunks
           /\ answer = report "success" (len chunks)
                         ("Successfully added " ++ str_of_int (len chunks) ++ " chunks"))
       \/ ((k < length chunks)%nat
           /\ exists entry e,
                collection_add (collection (vectorstore_service self) ++ new) entry
                = Raise e
                /\ answer = report "error" 0 ("Error adding document: " ++ exn_str e)).
Proof.
  destruct (add_document_chunks_returns text md) as (chunks & Hchunks).
  unfold DocumentStore.add_document. rewrite Hchunks.
  destruct (bool_decide_reflect (chunks = [])) as [-> | Hne].
  - exists [], 0%nat, []. cbn [fst snd]. rewrite app_nil_r.
    split; [reflexivity |]. split; [reflexivity |]. split; [constructor |].
    split; [constructor |]. left. auto.
  - destruct (store_chunks_spec sha256 available load model_encode collection_add
                utcnow isoformat doc_id md chunks 0 self 0)
      as (k & new & Hk & Hcoll & Hnew & Hres).
    fold (enumerate chunks) in Hcoll, Hnew, Hres.
    exists chunks, k, new.
    destruct (store_chunks _ _ _ _ _ _ _ _ _ _ _ (enumerate chunks)) as [self' [m | e]];
      cbn [fst snd] in *.
    + destruct Hres as [-> ->].
      split; [reflexivity |]. split; [exact Hcoll |]. split; [exact Hnew |].
      split; [eapply stored_as_ids; exact Hnew |].
      right. left. rewrite Z.add_0_l. auto.
    + destruct Hres as (Hlt & entry & Hraise).
      split; [reflexivity |]. split; [exact Hcoll |]. split; [exact Hnew |].
      split; [eapply stored_as_ids; exact Hnew |].
      right. right. split; [exact Hlt |]. eauto.
Qed.

End AddDocument.

(** X20: [add_document] ends in one of three ways, and in each the
    collection has grown by the first [k] chunks of the document, in order,
    chunk [i] under the identifier [doc_id_chunk_i] (all distinct) with the
    chunk's content and the merged metadata stamped with [added_at]:
    no chunks, [k = 0], status ["warning"]; all chunks stored, status
    ["success"] with [chunks_added] their number; or the store raised at
    chunk [k], status ["error"] with [chunks_added] 0 although the [k]
    chunks stored before it stay in the collection. *)
Theorem add_document_outcomes :
  forall (tree_sitter : string -> string -> result (option (list ChunkingService.ts_node)))
         (sha256 : list byte -> list byte) (available : bool) (load : result unit)
         (model_encode : string -> result (list float))
         (collection_add : list VectorStoreService.stored -> VectorStoreService.stored
                           -> result unit)
         (utcnow : nat -> Z) (isoformat : Z -> string)
         (self : DocumentStore.pipeline) (doc_id text : string) (md : dict),
    let before :=
      VectorStoreService.collection (DocumentStore.vectorstore_service self) in
    let '(self', answer) :=
      DocumentStore.add_document tree_sitter sha256 available load model_encode
        collection_add utcnow isoformat self doc_id text md in
    exists chunks k new,
      RAGPipeline.add_document_chunks tree_sitter text md = Ok chunks
      /\ VectorStoreService.collection (DocumentStore.vectorstore_service self')
         = before ++ new
      /\ Forall2 (stored_as doc_id md) (take k (enumerate chunks)) new
      /\ NoDup (map VectorStoreService.stored_id new)
      /\ ((chunks = [] /\ k = 0%nat
           /\ answer !! "status" = Some (VStr "warning")
           /\ answer !! "chunks_added" = Some (VInt 0))
          \/ (chunks <> [] /\ k = length chunks
              /\ answer !! "status" = Some (VStr "success")
              /\ answer !! "chunks_added" = Some (VInt (len chunks)))
          \/ ((k < length chunks)%nat
              /\ answer !! "status" = Some (VStr "error")
              /\ answer !! "chunks_added" = Some (VInt 0)
              /\ exists entry e, collection_add (before ++ new) entry = Raise e)).
Proof.
  intros tree_sitter sha256 available load model_encode collection_add utcnow isoformat
         self doc_id text md before.
  destruct (add_document_spec tree_sitter sha256 available load model_encode
              collection_add utcnow isoformat self doc_id text md)
    as (chunks & k & new & Hchunks & Hcoll & Hnew & Hids & Hcases).
  destruct (DocumentStore.add_document _ _ _ _ _ _ _ _ _ _ _ _) as [self' answer].
  cbn [fst snd] in *.
  exists chunks, k, new.
  split; [exact Hchunks |]. split; [exact Hcoll |]. split; [exact Hnew |].
  split; [exact Hids |].
  destruct Hcases as [(H1 & H2 & ->) | [(H1 & H2 & ->) | (H1 & entry & e & H2 & ->)]].
  - left. repeat split; auto.
  - right. left. repeat split; auto.
  - right. right. repeat split; eauto.
Qed.

(** X21: when the collection takes every entry, [add_document] stores
    every chunk of the document and never answers ["error"]: the collection
    grows by exactly as many entries as the document has chunks, and the
    answer's [chunks_added] is that number. *)
Theorem add_document_stores_every_chunk :
  forall (tree_sitter : string -> string -> result (option (list ChunkingService.ts_node)))
         (sha256 : list byte -> list byte) (available : bool) (load : result unit)
         (model_encode : string -> result (list float))
         (collection_add : list VectorStoreService.stored -> VectorStoreService.stored
                           -> result unit)
         (utcnow : nat -> Z) (isoformat : Z -> string)
         (self : DocumentStore.pipeline) (doc_id text : string) (md : dict),
    (forall entries entry, collection_add entries entry = Ok tt) ->
    let '(self', answer) :=
      DocumentStore.add_document tree_sitter sha256 available load model_encode
        collection_add utcnow isoformat self doc_id text md in
    exists chunks new,
      RAGPipeline.add_document_chunks tree_sitter text md = Ok chunks
      /\ VectorStoreService.collection (DocumentStore.vectorstore_service self')
         = VectorStoreService.collection (DocumentStore.vectorstore_service self) ++ new
      /\ length new = length chunks
      /\ map VectorStoreService.stored_content new = map content chunks
      /\ answer !! "chunks_added" = Some (VInt (len chunks))
      /\ answer !! "status"
         = Some (VStr (if bool_decide (chunks = []) then "warning" else "success")).
Proof.
  intros tree_sitter sha256 available load model_encode collection_add utcnow isoformat
         self doc_id text md Hadd.
  destruct (add_document_spec tree_sitter sha256 available load model_encode
              collection_add utcnow isoformat self doc_id text md)
    as (chunks & k & new & Hchunks & Hcoll & Hnew & Hids & Hcases).
  destruct (DocumentStore.add_document _ _ _ _ _ _ _ _ _ _ _ _) as [self' answer].
  cbn [fst snd] in *.
  exists chunks, new.
  assert (k = length chunks
          /\ answer !! "chunks_added" = Some (VInt (len chunks))
          /\ answer !! "status"
             = Some (VStr (if bool_decide (chunks = []) then "warning" else "success")))
    as (-> & Hn & Hs).
  { destruct Hcases as [(-> & -> & ->) | [(Hne & -> & ->) | (_ & entry & e & Hraise & _)]].
    - repeat split; reflexivity.
    - rewrite bool_decide_eq_false_2 by exact Hne. repeat split; reflexivity.
    - rewrite Hadd in Hraise. discriminate. }
  split; [exact Hchunks |]. split; [exact Hcoll |].
  rewrite <- (enumerate_from_length chunks 0) in Hnew at 1.
  rewrite firstn_all in Hnew. fold (enumerate chunks) in Hnew.
  split; [apply Forall2_length in Hnew; rewrite <- Hnew;
          apply enumerate_from_length |].
  split; [| split; assumption].
  clear -Hnew. unfold enumerate in Hnew. revert Hnew. generalize 0%nat. revert new.
  induction chunks as [| c chunks IH]; intros new i0 H; inversion H; subst; simpl;
    [reflexivity |].
  f_equal; [| eapply IH; eassumption].
  match goal with Hs : stored_as _ _ _ _ |- _ => destruct Hs as (_ & Hc & _); exact Hc end.
Qed.

Lemma add_document_stores_every_chunk_witness :
  exists chunks new,
    RAGPipeline.add_document_chunks no_tree_sitter "a" ∅ = Ok chunks
    /\ VectorStoreService.collection
         (DocumentStore.vectorstore_service
            (DocumentStore.add_document no_tree_sitter prefix_digest false (Ok tt)
               (fun _ => Ok []) (fun _ _ => Ok tt) (fun n => Z.of_nat n) (fun _ => "t")
               (DocumentStore.Pipeline (EmbeddingService.Service "groq" false)
                  (VectorStoreService.Service [] 0)) "doc" "a" ∅).1)
       = new
    /\ length new = length chunks.
Proof.
  pose proof (add_document_stores_every_chunk no_tree_sitter prefix_digest false (Ok tt)
                (fun _ => Ok []) (fun _ _ => Ok tt) (fun n => Z.of_nat n) (fun _ => "t")
                (DocumentStore.Pipeline (EmbeddingService.Service "groq" false)
                   (VectorStoreService.Service [] 0)) "doc" "a" ∅
                (fun _ _ => eq_refl)) as H.
  destruct (DocumentStore.add_document _ _ _ _ _ _ _ _ _ _ _ _) as [self' answer].
  destruct H as (chunks & new & H1 & H2 & H3 & _).
  exists chunks, new. auto.
Defined.

(** ** CSV documents always give chunks *)

Lemma process_large_csv_content_count text md :
  (1 <= length (RAGPipeline._process_large_csv_content text md) <= 2)%nat.
Proof.
  unfold RAGPipeline._process_large_csv_content.
  rewrite bool_decide_eq_false_2 by apply split_on_nonempty.
  destruct (bool_decide _); simpl; lia.
Qed.

Lemma process_csv_content_count text md :
  (1 <= length (RAGPipeline._process_csv_content text md) <= 3)%nat.
Proof.
  unfold RAGPipeline._process_csv_content.
  destruct (str_len text >? 10000000).
  { pose proof (process_large_csv_content_count text md). lia. }
  rewrite bool_decide_eq_false_2 by apply split_on_nonempty.
  unfold RAGPipeline.csv_try_block.
  destruct (length _ <=? 1000)%nat.
  - destruct (bool_decide _); simpl; lia.
  - destruct (bool_decide _), (format_comma_value _); simpl; lia.
Qed.

(** X22: the CSV path always produces between one and three chunks (one or
    two for a text of more than 10,000,000 characters, cut from its first
    1000 characters only), whatever the text and the metadata: its
    [if not lines] exits are never taken, since splitting a string never
    gives an empty list. *)
Theorem process_csv_content_chunk_count :
  forall (text : string) (md : dict),
    (1 <= length (RAGPipeline._process_csv_content text md) <= 3)%nat
    /\ (1 <= length (RAGPipeline._process_large_csv_content text md) <= 2)%nat
    /\ (forall text',
          str_prefix 1000 text' = str_prefix 1000 text ->
          str_len text' = str_len text ->
          RAGPipeline._process_large_csv_content text' md
          = RAGPipeline._process_large_csv_content text md).
Proof.
  intros text md.
  split; [apply process_csv_content_count |].
  split; [apply process_large_csv_content_count |].
  intros text' Hpre Hlen. unfold RAGPipeline._process_large_csv_content.
  rewrite Hpre, Hlen. reflexivity.
Qed.

(** X23: for a document whose [file_type] is ['.csv'], [add_document] never
    answers ["warning"]: there is always a chunk to store, so the answer is
    ["success"] with at least one chunk added, or ["error"] after the store
    raised. *)
Theorem add_document_csv_never_warns :
  forall (tree_sitter : string -> string -> result (option (list ChunkingService.ts_node)))
         (sha256 : list byte -> list byte) (available : bool) (load : result unit)
         (model_encode : string -> result (list float))
         (collection_add : list VectorStoreService.stored -> VectorStoreService.stored
                           -> result unit)
         (utcnow : nat -> Z) (isoformat : Z -> string)
         (self : DocumentStore.pipeline) (doc_id text : string) (md : dict),
    md !! "file_type" = Some (VStr ".csv") ->
    let answer :=
      (DocumentStore.add_document tree_sitter sha256 available load model_encode
         collection_add utcnow isoformat self doc_id text md).2 in
    (exists n, 1 <= n <= 3
               /\ answer !! "status" = Some (VStr "success")
               /\ answer !! "chunks_added" = Some (VInt n))
    \/ (answer !! "status" = Some (VStr "error")
        /\ answer !! "chunks_added" = Some (VInt 0)).
Proof.
  intros tree_sitter sha256 available load model_encode collection_add utcnow isoformat
         self doc_id text md Hcsv answer.
  destruct (add_document_spec tree_sitter sha256 available load model_encode
              collection_add utcnow isoformat self doc_id text md)
    as (chunks & k & new & Hchunks & _ & _ & _ & Hcases).
  fold answer in Hcases. cbv zeta in Hcases.
  unfold RAGPipeline.add_document_chunks in Hchunks.
  rewrite bool_decide_eq_true_2 in Hchunks by exact Hcsv.
  injection Hchunks as <-.
  pose proof (process_csv_content_count text md) as Hcount.
  destruct Hcases as [(Hnil & _) | [(_ & _ & ->) | (_ & entry & e & _ & ->)]].
  - rewrite Hnil in Hcount. simpl in Hcount. lia.
  - left. exists (len (RAGPipeline._process_csv_content text md)).
    split; [unfold len; lia |]. split; reflexivity.
  - right. split; reflexivity.
Qed.

Lemma add_document_csv_never_warns_witness :
  (DocumentStore.add_document no_tree_sitter prefix_digest false (Ok tt)
     (fun _ => Ok []) (fun _ _ => Ok tt) (fun n => Z.of_nat n) (fun _ => "t")
     (DocumentStore.Pipeline (EmbeddingService.Service "groq" false)
        (VectorStoreService.Service [] 0)) "doc" "id,name" csv_metadata).2
  !! "status" = Some (VStr "success").
Proof.
  destruct (add_document_csv_never_warns no_tree_sitter prefix_digest false (Ok tt)
              (fun _ => Ok []) (fun _ _ => Ok tt) (fun n => Z.of_nat n) (fun _ => "t")
              (DocumentStore.Pipeline (EmbeddingService.Service "groq" false)
                 (VectorStoreService.Service [] 0)) "doc" "id,name" csv_metadata eq_refl)
    as [(n & _ & H & _) | [H _]]; [exact H |].
  vm_compute in H. discriminate H.
Defined.

(** ** SQL statements keep their order *)

Lemma sql_loop_increasing md pieces : forall k n m c c',
  (n < m)%nat ->
  concat (map (ChunkingService.sql_statement md) (enumerate_from k pieces)) !! n = Some c ->
  concat (map (ChunkingService.sql_statement md) (enumerate_from k pieces)) !! m = Some c' ->
  exists i j,
    (k <= i < j)%nat
    /\ metadata c !! "statement_index" = Some (VInt (Z.of_nat i + 1))
    /\ metadata c' !! "statement_index" = Some (VInt (Z.of_nat j + 1)).
Proof.
  induction pieces as [| x pieces IH]; intros k n m c c' Hnm Hc Hc'; [done |].
  rewrite enumerate_loop_cons in Hc, Hc'.
  destruct (sql_statement_cases md k x) as [[_ Heq] | (_ & _ & Heq)];
    rewrite Heq in Hc, Hc'; simpl in Hc, Hc'.
  - destruct (IH _ _ _ _ _ Hnm Hc Hc') as (i & j & Hij & Hi & Hj).
    exists i, j. split; [lia | auto].
  - destruct m as [| m]; [lia |]. simpl in Hc'.
    destruct n as [| n]; simpl in Hc.
    + injection Hc as <-.
      destruct (sql_loop_lookup md pieces _ _ _ Hc') as (j & piece & _ & Hle & _ & ->).
      exists k, j. split; [lia |].
      split; unfold ChunkingService.sql_chunk; simpl; dict_lookup.
    + destruct (IH (S k) n m c c' ltac:(lia) Hc Hc') as (i & j & Hij & Hi & Hj).
      exists i, j. split; [lia | auto].
Qed.

(** X24: the chunks of [chunk_sql] come in the order of the statements:
    [statement_index] grows strictly from each chunk to the next, so no two
    chunks of a file share an index, and every index is at least 1 (the
    chunk at position [n], counted from 0, has an index of at least
    [n + 1]). *)
Theorem chunk_sql_indices_increase :
  forall (text : string) (md : dict),
    exists chunks,
      ChunkingService.chunk_sql text md = Ok chunks
      /\ (forall (n m : nat) (c c' : chunk),
            (n < m)%nat ->
            chunks !! n = Some c ->
            chunks !! m = Some c' ->
            exists i j,
              1 <= i < j
              /\ metadata c !! "statement_index" = Some (VInt i)
              /\ metadata c' !! "statement_index" = Some (VInt j))
      /\ (forall (n : nat) (c : chunk),
            chunks !! n = Some c ->
            exists i,
              Z.of_nat n + 1 <= i
              /\ metadata c !! "statement_index" = Some (VInt i)).
Proof.
  intros text md. eexists. split; [reflexivity |]. split.
  - intros n m c c' Hnm Hc Hc'.
    destruct (sql_loop_increasing md _ 0 n m c c' Hnm Hc Hc') as (i & j & Hij & Hi & Hj).
    exists (Z.of_nat i + 1), (Z.of_nat j + 1). split; [lia | auto].
  - intros n c Hc.
    destruct (sql_loop_lookup md _ 0 n c Hc) as (i & piece & _ & Hle & _ & ->).
    exists (Z.of_nat i + 1). split; [lia |].
    unfold ChunkingService.sql_chunk. simpl. dict_lookup.
Qed.

Lemma chunk_sql_indices_increase_witness :
  exists chunks c c' i j,
    ChunkingService.chunk_sql sql_example ∅ = Ok chunks
    /\ chunks !! 0%nat = Some c /\ chunks !! 1%nat = Some c'
    /\ 1 <= i < j
    /\ metadata c !! "statement_index" = Some (VInt i)
    /\ metadata c' !! "statement_index" = Some (VInt j).
Proof.
  assert (exists c c', ChunkingService.chunk_sql sql_example ∅ = Ok [c; c'])
    as (c & c' & Hex) by (eexists _, _; vm_compute; reflexivity).
  destruct (chunk_sql_indices_increase sql_example ∅) as (chunks & Hok & H & _).
  rewrite Hex in Hok. injection Hok as <-.
  destruct (H 0%nat 1%nat c c' ltac:(lia) eq_refl eq_refl) as (i & j & Hij & Hi & Hj).
  exists [c; c'], c, c', i, j.
  split; [exact Hex |]. split; [reflexivity |]. split; [reflexivity |].
  split; [exact Hij |]. split; assumption.
Defined.

(** ** Choosing the prompt *)

Lemma any_in_subset l1 l2 s :
  (forall p, In p l1 -> In p l2) -> any_in l1 s = true -> any_in l2 s = true.
Proof.
  unfold any_in. intros Hsub H. apply existsb_exists in H as (p & Hin & Hp).
  apply existsb_exists. exists p. auto.
Qed.

(** X25: two task types of [build_code_generation_prompt] cannot occur when
    it is called by [_build_intelligent_prompt]: a query with one of the
    words that select ["debugging"] or ["review"] there has already been
    sent to the debugging, architecture or review builder, so the
    generation builder only ever sees ["generation"], ["explanation"] or
    ["general"]. *)
Theorem generation_prompt_task_types :
  forall query : string,
    Prompts.chosen_builder query = Prompts.CodeGeneration ->
    (forall (history : Type) (debugging architecture review generation
                              : string -> string -> history -> string)
            (context : string) (h : history),
        Prompts._build_intelligent_prompt history debugging architecture review
          generation query context h
        = generation context query h)
    /\ (Prompts.task_type query = "generation"%string
        \/ Prompts.task_type query = "explanation"%string
        \/ Prompts.task_type query = "general"%string).
Proof.
  intros query Hchosen.
  split; [intros; unfold Prompts._build_intelligent_prompt; rewrite Hchosen; reflexivity |].
  revert Hchosen. unfold Prompts.chosen_builder, Prompts.task_type.
  destruct (any_in Prompts.debugging_words (lower query)) eqn:Hd; [discriminate |].
  destruct (any_in Prompts.architecture_words (lower query)) eqn:Ha; [discriminate |].
  destruct (any_in Prompts.review_words (lower query)) eqn:Hr; [discriminate |].
  intros _.
  destruct (any_in ["create"; "generate"; "write"; "implement"; "build"] (lower query));
    [auto |].
  destruct (any_in ["fix"; "debug"; "error"; "bug"; "issue"; "problem"] (lower query))
    eqn:H1.
  { exfalso. apply (any_in_subset _ Prompts.debugging_words) in H1; [congruence |].
    simpl. tauto. }
  destruct (any_in ["review"; "improve"; "optimize"; "refactor"] (lower query)) eqn:H2.
  { exfalso. unfold any_in in H2. apply existsb_exists in H2 as (p & Hin & Hp).
    simpl in Hin. destruct Hin as [<- | Hin].
    - assert (any_in Prompts.review_words (lower query) = true); [| congruence].
      eapply any_in_intro; [| exact Hp]. simpl. tauto.
    - assert (any_in Prompts.architecture_words (lower query) = true); [| congruence].
      eapply any_in_intro; [| exact Hp]. simpl. intuition. }
  destruct (any_in ["explain"; "how"; "what"; "why"; "understand"] (lower query)); auto.
Qed.

Lemma generation_prompt_task_types_witness :
  Prompts.task_type "Write a parser" = "generation"%string
  \/ Prompts.task_type "Write a parser" = "explanation"%string
  \/ Prompts.task_type "Write a parser" = "general"%string.
Proof.
  apply (generation_prompt_task_types "Write a parser"). vm_compute. reflexivity.
Defined.
